(** * A character-level GPT and its sampling loop (notebook.ipynb)

    Shallow embedding of the model-defining cells of the notebook
    ([SingleHeadAttention], [MultiHeadedSelfAttention],
    [VanillaNeuralNetwork], [TransformerBlock], [GPT]) and of [generate].

    Conventions of the embedding.
    - A tensor is its shape together with its elements, read by index.
      Elements outside the shape are never read by the code, so every
      statement about elements is made for indices inside the shape.
    - float32 elements are modelled as real numbers; the value -inf that
      [masked_fill] writes is kept apart ([ext]).  Rounding, overflow and
      NaN are not modelled.
    - Sizes ([vocab_size], [model_dim], ...) are natural numbers.
    - A Python exception is a [Raise] in the [result] type.
    - [self.training], which [model.train()] and [model.eval()] set for
      the whole module tree, is the argument [training] of the forward
      functions.
    - The random initialisation of the weights (or the checkpoint loaded
      afterwards) is an argument of the constructors ([Params]); the
      Bernoulli draws of the dropout layers and the draws of
      [torch.multinomial] are arguments of the functions that consume
      them. *)

From Stdlib Require Import Reals Lra Lia ZArith List Bool.
From stdpp Require Import gmap.
Import ListNotations.

(** ** Exceptions *)

Inductive exn : Set :=
| IndexError
| RuntimeError
| KeyError
| ZeroDivisionError.

Inductive result (A : Type) : Type :=
| Ok (a : A)
| Raise (e : exn).

Arguments Ok {A} a.
Arguments Raise {A} e.

Definition bind {A B : Type} (m : result A) (k : A -> result B) : result B :=
  match m with
  | Ok a => k a
  | Raise e => Raise e
  end.

Notation "x <- m ;; k" := (bind m (fun x => k))
  (at level 100, m at next level, right associativity).

Fixpoint mapM {A B : Type} (f : A -> result B) (l : list A) : result (list B) :=
  match l with
  | [] => Ok []
  | a :: l' => b <- f a ;; bs <- mapM f l' ;; Ok (b :: bs)
  end.

(** ** Tensors *)

Record Tensor1 (A : Type) : Type := mkT1
  { len1 : nat; at1 : nat -> A }.

Record Tensor2 (A : Type) : Type := mkT2
  { rows : nat; cols : nat; at2 : nat -> nat -> A }.

Record Tensor3 (A : Type) : Type := mkT3
  { dim0 : nat; dim1 : nat; dim2 : nat; at3 : nat -> nat -> nat -> A }.

Arguments mkT1 {A}.
Arguments len1 {A}.
Arguments at1 {A}.
Arguments mkT2 {A}.
Arguments rows {A}.
Arguments cols {A}.
Arguments at2 {A}.
Arguments mkT3 {A}.
Arguments dim0 {A}.
Arguments dim1 {A}.
Arguments dim2 {A}.
Arguments at3 {A}.

(** A float that may be -inf. *)
Inductive ext : Type :=
| Finite (r : R)
| NegInf.

(** exp(-inf) = 0. *)
Definition exp_ext (s : ext) : R :=
  match s with
  | Finite r => exp r
  | NegInf => 0%R
  end.

(** [sum_upto n f] is f 0 + ... + f (n-1). *)
Fixpoint sum_upto (n : nat) (f : nat -> R) : R :=
  match n with
  | O => 0%R
  | S k => (sum_upto k f + f k)%R
  end.

(** [x + y] on tensors of one shape (the only case the model reaches). *)
Definition add (x y : Tensor3 R) : result (Tensor3 R) :=
  if (dim0 x =? dim0 y) && (dim1 x =? dim1 y) && (dim2 x =? dim2 y)
  then Ok (mkT3 (dim0 x) (dim1 x) (dim2 x)
             (fun b t k => (at3 x b t k + at3 y b t k)%R))
  else Raise RuntimeError.

(** [x + p] with [p] of shape (T, D) broadcast over the batch axis. *)
Definition add_broadcast (x : Tensor3 R) (p : Tensor2 R) : result (Tensor3 R) :=
  if (dim1 x =? rows p) && (dim2 x =? cols p)
  then Ok (mkT3 (dim0 x) (dim1 x) (dim2 x)
             (fun b t k => (at3 x b t k + at2 p t k)%R))
  else Raise RuntimeError.

(** [torch.transpose(x, 1, 2)] *)
Definition transpose (x : Tensor3 R) : Tensor3 R :=
  mkT3 (dim0 x) (dim2 x) (dim1 x) (fun b i j => at3 x b j i).

(** Batched [x @ y], for operands of one batch size (the only case the
    model reaches). *)
Definition matmul (x y : Tensor3 R) : result (Tensor3 R) :=
  if (dim0 x =? dim0 y) && (dim2 x =? dim1 y)
  then Ok (mkT3 (dim0 x) (dim1 x) (dim2 y)
             (fun b i j => sum_upto (dim2 x) (fun k => (at3 x b i k * at3 y b k j)%R)))
  else Raise RuntimeError.

(** [x / c] for a Python float [c] other than 0.  The code divides the
    scores by [A ** 0.5], which is 0 for heads of size A = 0 only; the
    quotient is then NaN, which the real numbers do not have, so what is
    stated about scores and attention weights is stated for A >= 1.  (The
    output of a head of size 0 has no elements.) *)
Definition div_scalar (x : Tensor3 R) (c : R) : Tensor3 R :=
  mkT3 (dim0 x) (dim1 x) (dim2 x) (fun b i j => (at3 x b i j / c)%R).

(** [torch.tril(torch.ones(T, T))] *)
Definition tril_ones (T : nat) : Tensor2 R :=
  mkT2 T T (fun i j => if j <=? i then 1%R else 0%R).

(** [mask == 0] *)
Definition eq_zero (mask : Tensor2 R) : Tensor2 bool :=
  mkT2 (rows mask) (cols mask)
    (fun i j => if Req_dec_T (at2 mask i j) 0%R then true else false).

(** [scores.masked_fill(m, float("-inf"))], [m] of shape (T, T) broadcast
    over the batch axis. *)
Definition masked_fill_neg_inf (scores : Tensor3 R) (m : Tensor2 bool)
  : result (Tensor3 ext) :=
  if (dim1 scores =? rows m) && (dim2 scores =? cols m)
  then Ok (mkT3 (dim0 scores) (dim1 scores) (dim2 scores)
             (fun b i j => if at2 m i j then NegInf else Finite (at3 scores b i j)))
  else Raise RuntimeError.

(** [nn.functional.softmax(s, dim=-1)]: exp(s_j) / sum_k exp(s_k). *)
Definition softmax (s : Tensor3 ext) : Tensor3 R :=
  mkT3 (dim0 s) (dim1 s) (dim2 s)
    (fun b i j =>
       (exp_ext (at3 s b i j)
        / sum_upto (dim2 s) (fun k => exp_ext (at3 s b i k)))%R).

(** The same on a (B, V) tensor of finite values. *)
Definition softmax2 (s : Tensor2 R) : Tensor2 R :=
  mkT2 (rows s) (cols s)
    (fun b j => (exp (at2 s b j) / sum_upto (cols s) (fun k => exp (at2 s b k)))%R).

(** [torch.cat((x, y), dim=-1)] *)
Definition cat2 (x y : Tensor3 R) : result (Tensor3 R) :=
  if (dim0 x =? dim0 y) && (dim1 x =? dim1 y)
  then Ok (mkT3 (dim0 x) (dim1 x) (dim2 x + dim2 y)
             (fun b t k => if k <? dim2 x then at3 x b t k
                           else at3 y b t (k - dim2 x)))
  else Raise RuntimeError.

(** [torch.cat(ts, dim=-1)]; an empty list is refused. *)
Fixpoint cat (ts : list (Tensor3 R)) : result (Tensor3 R) :=
  match ts with
  | [] => Raise RuntimeError
  | [x] => Ok x
  | x :: rest => r <- cat rest ;; cat2 x r
  end.

(** [torch.arange(T)] *)
Definition arange (T : nat) : Tensor1 Z :=
  mkT1 T (fun t => Z.of_nat t).

(** ** Parameters

    The values of all weights: a path through the module tree, then a row
    and a column (a vector uses row 0). *)
Definition Params : Type := list nat -> nat -> nat -> R.

Definition sub (theta : Params) (k : nat) : Params :=
  fun path => theta (k :: path).

(** [a // b] *)
Definition floordiv (a b : nat) : result nat :=
  if b =? 0 then Raise ZeroDivisionError else Ok (a / b).

(** ** nn.Linear *)
Module Linear.
Record t : Type := mk
  { in_features : nat;
    out_features : nat;
    weight : nat -> nat -> R;
    bias : option (nat -> R) }.

Definition init (theta : Params) (in_f out_f : nat) (with_bias : bool) : t :=
  mk in_f out_f (theta [0])
     (if with_bias then Some (theta [1] 0) else None).

(** y = x W^T + b on the last axis. *)
Definition forward (l : t) (x : Tensor3 R) : result (Tensor3 R) :=
  if dim2 x =? in_features l
  then Ok (mkT3 (dim0 x) (dim1 x) (out_features l)
             (fun b t o =>
                (sum_upto (in_features l) (fun i => at3 x b t i * weight l o i)
                 + match bias l with Some c => c o | None => 0 end)%R))
  else Raise RuntimeError.
End Linear.

(** ** nn.Embedding *)
Module Embedding.
Record t : Type := mk
  { num_embeddings : nat;
    embedding_dim : nat;
    weight : nat -> nat -> R }.

Definition init (theta : Params) (n d : nat) : t := mk n d (theta [0]).

Definition in_range (e : t) (i : Z) : bool :=
  (0 <=? i)%Z && (i <? Z.of_nat (num_embeddings e))%Z.

(** The exception for an index outside the table.  The lookup is
    [index_select] on the weight, which raises IndexError; on a weight
    without elements (no rows, or rows of width 0) its bounds check is a
    separate one and raises RuntimeError. *)
Definition out_of_range (e : t) : exn :=
  if (num_embeddings e =? 0) || (embedding_dim e =? 0)
  then RuntimeError
  else IndexError.

(** Lookup for a (B, T) tensor of indices. *)
Definition forward (e : t) (idx : Tensor2 Z) : result (Tensor3 R) :=
  if forallb (fun b => forallb (fun t => in_range e (at2 idx b t))
                         (seq 0 (cols idx)))
       (seq 0 (rows idx))
  then Ok (mkT3 (rows idx) (cols idx) (embedding_dim e)
             (fun b t k => weight e (Z.to_nat (at2 idx b t)) k))
  else Raise (out_of_range e).

(** Lookup for a (T) tensor of indices. *)
Definition forward1 (e : t) (idx : Tensor1 Z) : result (Tensor2 R) :=
  if forallb (fun t => in_range e (at1 idx t)) (seq 0 (len1 idx))
  then Ok (mkT2 (len1 idx) (embedding_dim e)
             (fun t k => weight e (Z.to_nat (at1 idx t)) k))
  else Raise (out_of_range e).
End Embedding.

(** ** nn.LayerNorm *)
Module LayerNorm.
Record t : Type := mk
  { normalized_shape : nat;
    weight : nat -> R;
    bias : nat -> R;
    eps : R }.

Definition init (theta : Params) (d : nat) : t :=
  mk d (theta [0] 0) (theta [1] 0) (1 / 100000)%R.

Definition mean (d : nat) (v : nat -> R) : R :=
  (sum_upto d v / INR d)%R.

Definition forward (ln : t) (x : Tensor3 R) : result (Tensor3 R) :=
  if dim2 x =? normalized_shape ln
  then Ok (mkT3 (dim0 x) (dim1 x) (dim2 x)
             (fun b t k =>
                let d := normalized_shape ln in
                let mu := mean d (at3 x b t) in
                let var := mean d (fun j => ((at3 x b t j - mu) * (at3 x b t j - mu))%R) in
                ((at3 x b t k - mu) / sqrt (var + eps ln) * weight ln k
                 + bias ln k)%R))
  else Raise RuntimeError.
End LayerNorm.

(** ** nn.Dropout

    [training] is the module's mode ([model.train()] / [model.eval()]);
    [keep] holds the Bernoulli draws of this call. *)
Definition Mask : Type := nat -> nat -> nat -> bool.

Module Dropout.
Record t : Type := mk { p : R }.

Definition forward (d : t) (training : bool) (keep : Mask) (x : Tensor3 R)
  : Tensor3 R :=
  if training
  then mkT3 (dim0 x) (dim1 x) (dim2 x)
         (fun b t k => if keep b t k then (at3 x b t k / (1 - p d))%R else 0%R)
  else x.
End Dropout.

(** ** nn.ReLU *)
Definition relu (x : Tensor3 R) : Tensor3 R :=
  mkT3 (dim0 x) (dim1 x) (dim2 x) (fun b t k => Rmax 0 (at3 x b t k)).

(** ** SingleHeadAttention *)
Module SingleHeadAttention.
Record t : Type := mk
  { key_layer : Linear.t;
    query_layer : Linear.t;
    value_layer : Linear.t }.

Definition init (theta : Params) (model_dim head_size : nat) : t :=
  mk (Linear.init (sub theta 0) model_dim head_size false)
     (Linear.init (sub theta 1) model_dim head_size false)
     (Linear.init (sub theta 2) model_dim head_size false).

(** The body of [forward] down to the softmax: the attention weights,
    and V for the last line. *)
Definition weights (h : t) (embedded : Tensor3 R)
  : result (Tensor3 R * Tensor3 R) :=
  K <- Linear.forward (key_layer h) embedded ;;
  Q <- Linear.forward (query_layer h) embedded ;;
  V <- Linear.forward (value_layer h) embedded ;;
  let T := dim1 K in
  let A := dim2 K in
  qk <- matmul Q (transpose K) ;;
  let scores := div_scalar qk (sqrt (INR A)) in
  let mask := tril_ones T in
  scores <- masked_fill_neg_inf scores (eq_zero mask) ;;
  let scores := softmax scores in
  Ok (scores, V).

Definition forward (h : t) (embedded : Tensor3 R) : result (Tensor3 R) :=
  sv <- weights h embedded ;;
  matmul (fst sv) (snd sv).
End SingleHeadAttention.

(** ** MultiHeadedSelfAttention *)
Module MultiHeadedSelfAttention.
Record t : Type := mk
  { attention_heads : list SingleHeadAttention.t;
    compute : Linear.t;
    dropout : Dropout.t }.

Definition init (theta : Params) (model_dim num_heads : nat) : result t :=
  heads <- mapM (fun k =>
                   head_size <- floordiv model_dim num_heads ;;
                   Ok (SingleHeadAttention.init (sub (sub theta 0) k)
                         model_dim head_size))
             (seq 0 num_heads) ;;
  Ok (mk heads
        (Linear.init (sub theta 1) model_dim model_dim true)
        (Dropout.mk (2 / 10)%R)).

Definition forward (training : bool) (keep : Mask) (m : t)
           (embedded : Tensor3 R) : result (Tensor3 R) :=
  outs <- mapM (fun head => SingleHeadAttention.forward head embedded)
            (attention_heads m) ;;
  c <- cat outs ;;
  y <- Linear.forward (compute m) c ;;
  Ok (Dropout.forward (dropout m) training keep y).
End MultiHeadedSelfAttention.

(** ** VanillaNeuralNetwork *)
Module VanillaNeuralNetwork.
Record t : Type := mk
  { first_linear_layer : Linear.t;
    second_linear_layer : Linear.t;
    dropout : Dropout.t }.

Definition init (theta : Params) (model_dim : nat) : t :=
  mk (Linear.init (sub theta 0) model_dim (model_dim * 4) true)
     (Linear.init (sub theta 1) (model_dim * 4) model_dim true)
     (Dropout.mk (2 / 10)%R).

Definition forward (training : bool) (keep : Mask) (n : t) (x : Tensor3 R)
  : result (Tensor3 R) :=
  h <- Linear.forward (first_linear_layer n) x ;;
  y <- Linear.forward (second_linear_layer n) (relu h) ;;
  Ok (Dropout.forward (dropout n) training keep y).
End VanillaNeuralNetwork.

(** ** TransformerBlock

    [keeps 0] and [keeps 1] are the dropout draws of the attention and of
    the feed-forward sub-layer. *)
Module TransformerBlock.
Record t : Type := mk
  { mhsa : MultiHeadedSelfAttention.t;
    vanilla_nn : VanillaNeuralNetwork.t;
    layer_norm_one : LayerNorm.t;
    layer_norm_two : LayerNorm.t }.

Definition init (theta : Params) (model_dim num_heads : nat) : result t :=
  a <- MultiHeadedSelfAttention.init (sub theta 0) model_dim num_heads ;;
  Ok (mk a
        (VanillaNeuralNetwork.init (sub theta 1) model_dim)
        (LayerNorm.init (sub theta 2) model_dim)
        (LayerNorm.init (sub theta 3) model_dim)).

Definition forward (training : bool) (keeps : nat -> Mask) (blk : t)
           (embedded : Tensor3 R) : result (Tensor3 R) :=
  n1 <- LayerNorm.forward (layer_norm_one blk) embedded ;;
  a <- MultiHeadedSelfAttention.forward training (keeps 0) (mhsa blk) n1 ;;
  embedded <- add embedded a ;;
  n2 <- LayerNorm.forward (layer_norm_two blk) embedded ;;
  f <- VanillaNeuralNetwork.forward training (keeps 1) (vanilla_nn blk) n2 ;;
  embedded <- add embedded f ;;
  Ok embedded.
End TransformerBlock.

(** [nn.Sequential] over the blocks; block number [k] draws its dropout
    masks from [rng k]. *)
Fixpoint sequential (training : bool) (rng : nat -> nat -> Mask) (k : nat)
         (blocks : list TransformerBlock.t) (x : Tensor3 R)
  : result (Tensor3 R) :=
  match blocks with
  | [] => Ok x
  | blk :: rest =>
      y <- TransformerBlock.forward training (rng k) blk x ;;
      sequential training rng (S k) rest y
  end.

(** ** GPT *)
Module GPT.
Record t : Type := mk
  { token_embedding : Embedding.t;
    pos_embedding : Embedding.t;
    transformer_blocks : list TransformerBlock.t;
    layer_norm_three : LayerNorm.t;
    vocab_projection : Linear.t }.

Definition init (theta : Params)
           (vocab_size context_length model_dim num_blocks num_heads : nat)
  : result t :=
  blocks <- mapM (fun k => TransformerBlock.init (sub (sub theta 2) k)
                             model_dim num_heads)
              (seq 0 num_blocks) ;;
  Ok (mk (Embedding.init (sub theta 0) vocab_size model_dim)
        (Embedding.init (sub theta 1) context_length model_dim)
        blocks
        (LayerNorm.init (sub theta 3) model_dim)
        (Linear.init (sub theta 4) model_dim vocab_size true)).

Definition forward (training : bool) (rng : nat -> nat -> Mask) (m : t)
           (context : Tensor2 Z) : result (Tensor3 R) :=
  let T := cols context in
  token_embeddings <- Embedding.forward (token_embedding m) context ;;
  pos_embedding <- Embedding.forward1 (pos_embedding m) (arange T) ;;
  embedded <- add_broadcast token_embeddings pos_embedding ;;
  output <- sequential training rng 0 (transformer_blocks m) embedded ;;
  n <- LayerNorm.forward (layer_norm_three m) output ;;
  Linear.forward (vocab_projection m) n.
End GPT.

(** ** generate *)

(** A Python [str]: the sequence of its code points. *)
Definition pystr : Type := list N.

(** [context[:, -context_length:]], with Python's rules for the start of a
    slice: a negative start counts from the end and is clipped at 0, any
    other start is clipped at the length (so [-0] is the start 0). *)
Definition slice_last (context : Tensor2 Z) (context_length : Z) : Tensor2 Z :=
  let T := Z.of_nat (cols context) in
  let start := (- context_length)%Z in
  let lo := if (start <? 0)%Z then Z.max (T + start) 0 else Z.min start T in
  mkT2 (rows context) (Z.to_nat (T - lo))
    (fun b t => at2 context b (Z.to_nat lo + t)).

(** [prediction[:, -1, :]] *)
Definition select_last (prediction : Tensor3 R) : result (Tensor2 R) :=
  if dim1 prediction =? 0 then Raise IndexError
  else Ok (mkT2 (dim0 prediction) (dim2 prediction)
             (fun b v => at3 prediction b (dim1 prediction - 1) v)).

(** [torch.multinomial(probabilities, 1)]: one index per row.  [draw i p b]
    is the index drawn for row [b] by the [i]-th call, given [p]. *)
Definition Sampler : Type := nat -> Tensor2 R -> nat -> Z.

Definition multinomial (draw : Sampler) (i : nat) (probabilities : Tensor2 R)
  : result (Tensor2 Z) :=
  if cols probabilities =? 0 then Raise RuntimeError
  else Ok (mkT2 (rows probabilities) 1 (fun b _ => draw i probabilities b)).

(** [torch.cat((context, next_char), dim=-1)] *)
Definition cat_tokens (context next_char : Tensor2 Z) : result (Tensor2 Z) :=
  if rows context =? rows next_char
  then Ok (mkT2 (rows context) (cols context + cols next_char)
             (fun b t => if t <? cols context then at2 context b t
                         else at2 next_char b (t - cols context)))
  else Raise RuntimeError.

(** [x.item()]: only a tensor of one element converts to a scalar. *)
Definition item (x : Tensor2 Z) : result Z :=
  if rows x * cols x =? 1 then Ok (at2 x 0 0) else Raise RuntimeError.

(** [d[k]] *)
Definition getitem (d : gmap Z pystr) (k : Z) : result pystr :=
  match d !! k with
  | Some s => Ok s
  | None => Raise KeyError
  end.

(** What a run of [generate] does that its caller cannot see in the
    returned string: each call of the model, with the context the loop
    holds when it starts the iteration ([running]) and the tensor it hands
    to the model ([passed]); and each tensor [torch.multinomial] returns. *)
Inductive event : Type :=
| ModelCall (running passed : Tensor2 Z)
| Sampled (next_char : Tensor2 Z).

Section Generate.

Variable model : Tensor2 Z -> result (Tensor3 R).
Variable draw : Sampler.
Variable context_length : Z.
Variable int_to_char : gmap Z pystr.

(** One iteration of the loop, up to the draw ... *)
Definition predict (i : nat) (context : Tensor2 Z) : result (Tensor2 Z) :=
  prediction <- model context ;;
  last_time_step <- select_last prediction ;;
  let probabilities := softmax2 last_time_step in
  multinomial draw i probabilities.

(** ... and from the draw on. *)
Definition update (context next_char : Tensor2 Z)
  : result (Tensor2 Z * pystr) :=
  context <- cat_tokens context next_char ;;
  k <- item next_char ;;
  c <- getitem int_to_char k ;;
  Ok (context, c).

Definition iteration (i : nat) (context : Tensor2 Z)
  : list event * result (Tensor2 Z * pystr) :=
  let running := context in
  let context := slice_last context context_length in
  match predict i context with
  | Raise e => ([ModelCall running context], Raise e)
  | Ok next_char =>
      ([ModelCall running context; Sampled next_char], update context next_char)
  end.

(** [for i in range(new_chars)], from iteration [i] on, [n] iterations
    left.  The result is the final [context] and [res]. *)
Fixpoint loop (n i : nat) (context : Tensor2 Z) (res : list pystr)
  : list event * result (Tensor2 Z * list pystr) :=
  match n with
  | O => ([], Ok (context, res))
  | S n' =>
      match iteration i context with
      | (evs, Raise e) => (evs, Raise e)
      | (evs, Ok (context', c)) =>
          let (evs', out) := loop n' (S i) context' (res ++ [c]) in
          (evs ++ evs', out)
      end
  end.

Definition generate (new_chars : nat) (context : Tensor2 Z) : result pystr :=
  cr <- snd (loop new_chars 0 context []) ;;
  Ok (concat (snd cr)).

End Generate.

(** ** Shapes of well-built modules

    What the constructors establish, stated on the records so that it can
    be carried through lists of heads and of blocks. *)

Definition linear_dims (l : Linear.t) (i o : nat) : Prop :=
  Linear.in_features l = i /\ Linear.out_features l = o.

Definition head_wf (d hs : nat) (h : SingleHeadAttention.t) : Prop :=
  linear_dims (SingleHeadAttention.key_layer h) d hs /\
  linear_dims (SingleHeadAttention.query_layer h) d hs /\
  linear_dims (SingleHeadAttention.value_layer h) d hs.

Definition mhsa_wf (d nh : nat) (m : MultiHeadedSelfAttention.t) : Prop :=
  length (MultiHeadedSelfAttention.attention_heads m) = nh /\
  Forall (head_wf d (d / nh)) (MultiHeadedSelfAttention.attention_heads m) /\
  linear_dims (MultiHeadedSelfAttention.compute m) d d.

Definition vnn_wf (d : nat) (n : VanillaNeuralNetwork.t) : Prop :=
  linear_dims (VanillaNeuralNetwork.first_linear_layer n) d (d * 4) /\
  linear_dims (VanillaNeuralNetwork.second_linear_layer n) (d * 4) d.

Definition block_wf (d nh : nat) (blk : TransformerBlock.t) : Prop :=
  mhsa_wf d nh (TransformerBlock.mhsa blk) /\
  vnn_wf d (TransformerBlock.vanilla_nn blk) /\
  LayerNorm.normalized_shape (TransformerBlock.layer_norm_one blk) = d /\
  LayerNorm.normalized_shape (TransformerBlock.layer_norm_two blk) = d.

Definition gpt_wf (V C d nb nh : nat) (m : GPT.t) : Prop :=
  Embedding.num_embeddings (GPT.token_embedding m) = V /\
  Embedding.embedding_dim (GPT.token_embedding m) = d /\
  Embedding.num_embeddings (GPT.pos_embedding m) = C /\
  Embedding.embedding_dim (GPT.pos_embedding m) = d /\
  length (GPT.transformer_blocks m) = nb /\
  Forall (block_wf d nh) (GPT.transformer_blocks m) /\
  LayerNorm.normalized_shape (GPT.layer_norm_three m) = d /\
  linear_dims (GPT.vocab_projection m) d V.

(** The invariant of ModelConfig: [model_dim % num_heads == 0]. *)
Definition divisible (model_dim num_heads : nat) : Prop :=
  0 < num_heads /\ model_dim mod num_heads = 0.

(** A context the model accepts: every index a token, no more positions
    than the positional table has. *)
Definition tokens_in_range (V : nat) (context : Tensor2 Z) : Prop :=
  forall b t, b < rows context -> t < cols context ->
    (0 <= at2 context b t < Z.of_nat V)%Z.

Definition valid_context (V C : nat) (context : Tensor2 Z) : Prop :=
  cols context <= C /\ tokens_in_range V context.

Definition shape3 {A : Type} (x : Tensor3 A) : nat * nat * nat :=
  (dim0 x, dim1 x, dim2 x).

(** Two activations of one batch size and width that coincide on the
    positions 0..i. *)
Definition agree (i : nat) (x y : Tensor3 R) : Prop :=
  dim0 x = dim0 y /\ dim2 x = dim2 y /\ i < dim1 x /\ i < dim1 y /\
  forall b t k, b < dim0 x -> t <= i -> k < dim2 x ->
    at3 x b t k = at3 y b t k.

(** Two contexts of one batch size that coincide on the positions 0..i. *)
Definition agree_tokens (i : nat) (c1 c2 : Tensor2 Z) : Prop :=
  rows c1 = rows c2 /\ i < cols c1 /\ i < cols c2 /\
  forall b t, b < rows c1 -> t <= i -> at2 c1 b t = at2 c2 b t.


(** The scaled score of query position [i] against key position [j], and
    its exponential under the causal mask: the entries of [scores] in
    [SingleHeadAttention.forward] before the softmax divides them. *)
Definition score (Q K : Tensor3 R) (b i j : nat) : R :=
  (sum_upto (dim2 Q) (fun a => at3 Q b i a * at3 K b j a)
   / sqrt (INR (dim2 K)))%R.

Definition masked_exp (Q K : Tensor3 R) (b i j : nat) : R :=
  if j <=? i then exp (score Q K b i j) else 0%R.

(** ** Reading a run of [generate] *)

(** The model calls of a run, in order: the context the loop held and the
    tensor it passed. *)
Fixpoint calls (evs : list event) : list (Tensor2 Z * Tensor2 Z) :=
  match evs with
  | [] => []
  | ModelCall running passed :: evs' => (running, passed) :: calls evs'
  | Sampled _ :: evs' => calls evs'
  end.

(** The tensors [torch.multinomial] returned, in order. *)
Fixpoint sampled (evs : list event) : list (Tensor2 Z) :=
  match evs with
  | [] => []
  | ModelCall _ _ :: evs' => sampled evs'
  | Sampled next_char :: evs' => next_char :: sampled evs'
  end.

(** A context of one row and at least one token, all of them [tok]. *)
Definition single_row (tok : Z -> Prop) (c : Tensor2 Z) : Prop :=
  rows c = 1 /\ 1 <= cols c /\ forall t, t < cols c -> tok (at2 c 0 t).

(** The model returns a prediction (1, T, V) with T, V >= 1 for every such
    context of at most [L] tokens. *)
Definition model_accepts (model : Tensor2 Z -> result (Tensor3 R))
           (tok : Z -> Prop) (L : Z) : Prop :=
  forall c, single_row tok c -> (Z.of_nat (cols c) <= L)%Z ->
    exists p, model c = Ok p /\ dim0 p = 1 /\ 1 <= dim1 p /\ 1 <= dim2 p.

(** Every index drawn in the iterations [i .. i+n-1] is a token and a key
    of [int_to_char], whose entry satisfies [P]. *)
Definition draws_ok (draw : Sampler) (tok : Z -> Prop)
           (int_to_char : gmap Z pystr) (P : pystr -> Prop) (i n : nat) : Prop :=
  forall j p, i <= j -> j < i + n ->
    tok (draw j p 0) /\ exists s, int_to_char !! (draw j p 0) = Some s /\ P s.

(** ** Concrete instances

    The configuration of the end-to-end example: vocab_size 4,
    context_length 8, model_dim 8, one block, two heads; the context
    [0, 1, 2] of shape (1, 3). *)
Definition theta0 : Params :=
  fun path r c => INR (length path + r + 2 * c).

Definition rng0 : nat -> nat -> Mask := fun _ _ _ _ _ => true.

Definition context0 : Tensor2 Z := mkT2 1 3 (fun _ t => Z.of_nat t).

(** The same context with another last token. *)
Definition context0' : Tensor2 Z :=
  mkT2 1 3 (fun _ t => if t =? 2 then 3%Z else Z.of_nat t).

(** Two rows. *)
Definition context2 : Tensor2 Z := mkT2 2 3 (fun _ t => Z.of_nat t).

(** Nine tokens, one more than context_length = 8; and an index that is
    not a token of a vocabulary of 4. *)
Definition context_long : Tensor2 Z := mkT2 1 9 (fun _ _ => 0%Z).

Definition context_bad : Tensor2 Z := mkT2 1 3 (fun _ _ => 4%Z).

(** A context of one token, as in the notebook's test cell. *)
Definition context1 : Tensor2 Z := mkT2 1 1 (fun _ _ => 0%Z).

(** A sampler that always draws index 1, and a vocabulary. *)
Definition draw0 : Sampler := fun _ _ _ => 1%Z.

Definition int_to_char0 : gmap Z pystr :=
  {[ 0%Z := [10%N]; 1%Z := [32%N]; 2%Z := [33%N]; 3%Z := [34%N] ]}.

(** An activation of shape (1, 3, 8). *)
Definition embedded0 : Tensor3 R :=
  mkT3 1 3 8 (fun _ t k => INR (t + k)).

Definition embedded0' : Tensor3 R :=
  mkT3 1 3 8 (fun _ t k => if t =? 2 then 0%R else INR (t + k)).

(** * The vocabulary, the dataset and the training batches *)

(** A dict built by inserting the pairs in order: a later pair with the
    same key replaces the earlier one.  This is a dict display
    [{k1: v1, ...}] and a dict comprehension alike. *)
Definition dict_of {K V : Type} `{Countable K} (pairs : list (K * V)) : gmap K V :=
  foldl (fun m p => <[p.1 := p.2]> m) ∅ pairs.

(** [char_to_int = {char: idx for idx, char in int_to_char.items()}], with
    [int_to_char] given by its items in insertion order. *)
Definition char_to_int_of (int_to_char : list (Z * pystr)) : gmap pystr Z :=
  dict_of (map (fun '(idx, char) => (char, idx)) int_to_char).

(** [k in d] and [d[k]] for the dict of characters. *)
Definition contains (d : gmap pystr Z) (k : pystr) : bool :=
  match d !! k with
  | Some _ => true
  | None => false
  end.

Definition getitem_char (d : gmap pystr Z) (k : pystr) : result Z :=
  match d !! k with
  | Some v => Ok v
  | None => Raise KeyError
  end.

(** The bound of a slice: a negative bound counts from the end and is
    clipped at 0, any other bound is clipped at the length [n]. *)
Definition clip (n i : Z) : Z :=
  if (i <? 0)%Z then Z.max (i + n) 0 else Z.min i n.

(** [l[start:stop]] *)
Definition pyslice {A : Type} (l : list A) (start stop : Z) : list A :=
  let n := Z.of_nat (length l) in
  let s := clip n start in
  let e := clip n stop in
  firstn (Z.to_nat (e - s)) (skipn (Z.to_nat s) l).

(** [torch.tensor(l, dtype=torch.long)] for a list of ints. *)
Definition tensor (l : list Z) : Tensor1 Z :=
  mkT1 (length l) (fun t => nth t l 0%Z).

(** ** TweetDataset *)
Module TweetDataset.
Record t : Type := mk { data : list Z }.

(** [[char_to_int[char] for char in text if char in char_to_int]] *)
Fixpoint comprehension (char_to_int : gmap pystr Z) (text : pystr)
  : result (list Z) :=
  match text with
  | [] => Ok []
  | c :: rest =>
      let char := [c] in
      if contains char_to_int char
      then v <- getitem_char char_to_int char ;;
           vs <- comprehension char_to_int rest ;;
           Ok (v :: vs)
      else comprehension char_to_int rest
  end.

Definition __init__ (char_to_int : gmap pystr Z) (text : pystr) : result t :=
  d <- comprehension char_to_int text ;;
  Ok (mk d).

(** [context_length] is the global of the training cell. *)
Definition __len__ (context_length : Z) (self : t) : Z :=
  (Z.of_nat (length (data self)) - context_length)%Z.

Definition __getitem__ (context_length : Z) (self : t) (idx : Z)
  : Tensor1 Z * Tensor1 Z :=
  let x := tensor (pyslice (data self) idx (idx + context_length)) in
  let y := tensor (pyslice (data self) (idx + 1) (idx + 1 + context_length)) in
  (x, y).
End TweetDataset.

(** The batch a DataLoader makes of the items it picked: [torch.stack] of
    tensors of one length; an empty list or tensors of different lengths
    are refused. *)
Definition stack (xs : list (Tensor1 Z)) : result (Tensor2 Z) :=
  match xs with
  | [] => Raise RuntimeError
  | x :: _ =>
      if forallb (fun y => len1 y =? len1 x) xs
      then Ok (mkT2 (length xs) (len1 x) (fun b t => at1 (nth b xs x) t))
      else Raise RuntimeError
  end.

(** The inputs and the targets of the batch picked by the indices [idxs]. *)
Definition batch (context_length : Z) (ds : TweetDataset.t) (idxs : list Z)
  : result (Tensor2 Z * Tensor2 Z) :=
  let items := map (TweetDataset.__getitem__ context_length ds) idxs in
  x <- stack (map fst items) ;;
  y <- stack (map snd items) ;;
  Ok (x, y).

(** ** The constants of the training cell *)
Module Notebook.
Definition vocab_size : nat := 124.
Definition context_length : nat := 128.
Definition model_dim : nat := 252.
Definition num_blocks : nat := 6.
Definition num_heads : nat := 6.

(** The items of [int_to_char], each character by its code point. *)
Definition int_to_char : list (Z * pystr) :=
  [
    (0%Z, [10%N]); (1%Z, [32%N]); (2%Z, [33%N]); (3%Z, [34%N]); (4%Z, [35%N]);
    (5%Z, [36%N]); (6%Z, [37%N]); (7%Z, [38%N]); (8%Z, [39%N]); (9%Z, [40%N]);
    (10%Z, [41%N]); (11%Z, [42%N]); (12%Z, [43%N]); (13%Z, [44%N]);
    (14%Z, [45%N]); (15%Z, [46%N]); (16%Z, [47%N]); (17%Z, [48%N]);
    (18%Z, [49%N]); (19%Z, [50%N]); (20%Z, [51%N]); (21%Z, [52%N]);
    (22%Z, [53%N]); (23%Z, [54%N]); (24%Z, [55%N]); (25%Z, [56%N]);
    (26%Z, [57%N]); (27%Z, [58%N]); (28%Z, [59%N]); (29%Z, [61%N]);
    (30%Z, [63%N]); (31%Z, [64%N]); (32%Z, [65%N]); (33%Z, [66%N]);
    (34%Z, [67%N]); (35%Z, [68%N]); (36%Z, [69%N]); (37%Z, [70%N]);
    (38%Z, [71%N]); (39%Z, [72%N]); (40%Z, [73%N]); (41%Z, [74%N]);
    (42%Z, [75%N]); (43%Z, [76%N]); (44%Z, [77%N]); (45%Z, [78%N]);
    (46%Z, [79%N]); (47%Z, [80%N]); (48%Z, [81%N]); (49%Z, [82%N]);
    (50%Z, [83%N]); (51%Z, [84%N]); (52%Z, [85%N]); (53%Z, [86%N]);
    (54%Z, [87%N]); (55%Z, [88%N]); (56%Z, [89%N]); (57%Z, [90%N]);
    (58%Z, [91%N]); (59%Z, [93%N]); (60%Z, [95%N]); (61%Z, [97%N]);
    (62%Z, [98%N]); (63%Z, [99%N]); (64%Z, [100%N]); (65%Z, [101%N]);
    (66%Z, [102%N]); (67%Z, [103%N]); (68%Z, [104%N]); (69%Z, [105%N]);
    (70%Z, [106%N]); (71%Z, [107%N]); (72%Z, [108%N]); (73%Z, [109%N]);
    (74%Z, [110%N]); (75%Z, [111%N]); (76%Z, [112%N]); (77%Z, [113%N]);
    (78%Z, [114%N]); (79%Z, [115%N]); (80%Z, [116%N]); (81%Z, [117%N]);
    (82%Z, [118%N]); (83%Z, [119%N]); (84%Z, [120%N]); (85%Z, [121%N]);
    (86%Z, [122%N]); (87%Z, [123%N]); (88%Z, [124%N]); (89%Z, [125%N]);
    (90%Z, [126%N]); (91%Z, [224%N]); (92%Z, [225%N]); (93%Z, [232%N]);
    (94%Z, [233%N]); (95%Z, [235%N]); (96%Z, [241%N]); (97%Z, [243%N]);
    (98%Z, [250%N]); (99%Z, [649%N]); (100%Z, [817%N]); (101%Z, [969%N]);
    (102%Z, [1103%N]); (103%Z, [1237%N]); (104%Z, [1293%N]);
    (105%Z, [1295%N]); (106%Z, [1312%N]); (107%Z, [1381%N]);
    (108%Z, [1388%N]); (109%Z, [1403%N]); (110%Z, [1615%N]);
    (111%Z, [1642%N]); (112%Z, [1757%N]); (113%Z, [1762%N]);
    (114%Z, [1770%N]); (115%Z, [8197%N]); (116%Z, [8211%N]);
    (117%Z, [8212%N]); (118%Z, [8216%N]); (119%Z, [8217%N]);
    (120%Z, [8220%N]); (121%Z, [8221%N]); (122%Z, [8230%N]);
    (123%Z, [8287%N])
  ].

Definition char_to_int : gmap pystr Z := char_to_int_of int_to_char.
End Notebook.

(** ** Small instances for the dataset *)

(** A vocabulary of four characters: newline, space, exclamation mark and
    double quote. *)
Definition items4 : list (Z * pystr) :=
  [(0%Z, [10%N]); (1%Z, [32%N]); (2%Z, [33%N]); (3%Z, [34%N])].

(** A text of six characters: space, exclamation mark, question mark,
    newline, double quote, space.  The question mark is not in the
    vocabulary. *)
Definition text6 : pystr := [32%N; 33%N; 63%N; 10%N; 34%N; 32%N].

(** Its dataset. *)
Definition dataset5 : TweetDataset.t := TweetDataset.mk [1%Z; 2%Z; 0%Z; 3%Z; 1%Z].

(** ** The contract of the sampler and of the model, for [generate] *)

(** What [torch.multinomial] guarantees: each drawn index is a column of
    the distribution it was given. *)
Definition sampler_in_range (draw : Sampler) : Prop :=
  forall i p b, 0 < cols p -> (0 <= draw i p b < Z.of_nat (cols p))%Z.

(** The model returns logits (1, T, V), T >= 1, for every context of one
    row of at least one and at most [L] tokens, all below [V]. *)
Definition model_logits (model : Tensor2 Z -> result (Tensor3 R))
           (V : nat) (L : Z) : Prop :=
  forall c, single_row (fun z => (0 <= z < Z.of_nat V)%Z) c ->
            (Z.of_nat (cols c) <= L)%Z ->
    exists p, model c = Ok p /\ dim0 p = 1 /\ 1 <= dim1 p /\ dim2 p = V.

(** A sampler that always draws index 0. *)
Definition draw_first : Sampler := fun _ _ _ => 0%Z.

(** An empty context of one row. *)
Definition context_empty : Tensor2 Z := mkT2 1 0 (fun _ _ => 0%Z).

(** A vocabulary without an entry for index 1. *)
Definition int_to_char_short : gmap Z pystr := {[ 0%Z := [10%N] ]}.

(** ** Rows of a batch *)

(** Row [b1] of [x1] and row [b2] of [x2] are the same sequence of
    vectors. *)
Definition same_row (b1 b2 : nat) (x1 x2 : Tensor3 R) : Prop :=
  dim1 x1 = dim1 x2 /\ dim2 x1 = dim2 x2 /\
  forall t k, t < dim1 x1 -> k < dim2 x1 -> at3 x1 b1 t k = at3 x2 b2 t k.

(** A batch of two rows whose second row is [context0], and [context0]
    alone. *)
Definition context_pair : Tensor2 Z :=
  mkT2 2 3 (fun b t => if b =? 0 then 3%Z else Z.of_nat t).

(** [theta0] with the parameters of head 1 of a MultiHeadedSelfAttention
    set to zero. *)
Definition theta0_without_head1 : Params :=
  fun path =>
    match path with
    | 0 :: 1 :: _ => fun _ _ => 0%R
    | _ => theta0 path
    end.

(** ** Models for the window of [generate] *)

(** [model] behind a check of the length of its argument: a context of
    more than [L] tokens is refused. *)
Definition refuse_longer (L : nat) (model : Tensor2 Z -> result (Tensor3 R))
  : Tensor2 Z -> result (Tensor3 R) :=
  fun context => if cols context <=? L then model context else Raise RuntimeError.

(** ** [generate] with a model that keeps state

    [model] may be any callable.  One that changes when it is called (a
    module that counts or records its calls, say) is a function from its
    state before the call to its state after the call and its answer;
    the loop then threads that state through its iterations. *)
Section GenerateStateful.

Variable State : Type.
Variable model : State -> Tensor2 Z -> State * result (Tensor3 R).
Variable draw : Sampler.
Variable context_length : Z.
Variable int_to_char : gmap Z pystr.

Definition predict_st (i : nat) (st : State) (context : Tensor2 Z)
  : State * result (Tensor2 Z) :=
  let (st, prediction) := model st context in
  (st,
   prediction <- prediction ;;
   last_time_step <- select_last prediction ;;
   let probabilities := softmax2 last_time_step in
   multinomial draw i probabilities).

Definition iteration_st (i : nat) (st : State) (context : Tensor2 Z)
  : State * result (Tensor2 Z * pystr) :=
  let context := slice_last context context_length in
  let (st, next_char) := predict_st i st context in
  (st, next_char <- next_char ;; update int_to_char context next_char).

Fixpoint loop_st (n i : nat) (st : State) (context : Tensor2 Z)
         (res : list pystr) : State * result (Tensor2 Z * list pystr) :=
  match n with
  | O => (st, Ok (context, res))
  | S n' =>
      match iteration_st i st context with
      | (st, Raise e) => (st, Raise e)
      | (st, Ok (context', c)) => loop_st n' (S i) st context' (res ++ [c])
      end
  end.

Definition generate_st (new_chars : nat) (st : State) (context : Tensor2 Z)
  : State * result pystr :=
  let (st, out) := loop_st new_chars 0 st context [] in
  (st, cr <- out ;; Ok (concat (snd cr))).

End GenerateStateful.

Arguments predict_st {State}.
Arguments iteration_st {State}.
Arguments loop_st {State}.
Arguments generate_st {State}.

(** A model that records the contexts it is called on, in order, and
    answers as [model]. *)
Definition recording (model : Tensor2 Z -> result (Tensor3 R))
  : list (Tensor2 Z) -> Tensor2 Z -> list (Tensor2 Z) * result (Tensor3 R) :=
  fun log context => (log ++ [context], model context).
(** * Proofs *)

(** ** The result monad *)

Lemma bind_Ok {A B : Type} (m : result A) (k : A -> result B) (b : B) :
  (x <- m ;; k x) = Ok b -> exists a, m = Ok a /\ k a = Ok b.
Proof.
  destruct m as [a|e]; simpl; intros H; [|discriminate].
  exists a; split; [reflexivity|exact H].
Qed.

Lemma bind_Raise_l {A B : Type} (m : result A) (k : A -> result B) (e : exn) :
  m = Raise e -> (x <- m ;; k x) = Raise e.
Proof. intros ->; reflexivity. Qed.

Lemma mapM_length {A B : Type} (f : A -> result B) (l : list A) (bs : list B) :
  mapM f l = Ok bs -> length bs = length l.
Proof.
  revert bs; induction l as [|a l IH]; simpl; intros bs H.
  - injection H as <-; reflexivity.
  - apply bind_Ok in H as (b & _ & H).
    apply bind_Ok in H as (bs' & Hbs & H).
    injection H as <-; simpl; f_equal; apply IH; exact Hbs.
Qed.

Lemma mapM_map {A B : Type} (f : A -> result B) (g : A -> B) (l : list A) :
  (forall a, In a l -> f a = Ok (g a)) -> mapM f l = Ok (map g l).
Proof.
  induction l as [|a l IH]; simpl; intros H; [reflexivity|].
  rewrite (H a (or_introl eq_refl)); simpl.
  rewrite IH; [reflexivity|]; intros a' Ha'; apply H; right; exact Ha'.
Qed.

(** ** Finite sums *)

Lemma sum_upto_ext (n : nat) (f g : nat -> R) :
  (forall k, k < n -> f k = g k) -> sum_upto n f = sum_upto n g.
Proof.
  induction n as [|n IH]; simpl; intros H; [reflexivity|].
  rewrite IH, (H n); [reflexivity|lia|]; intros k Hk; apply H; lia.
Qed.

Lemma sum_upto_tail (m n : nat) (f : nat -> R) :
  m <= n -> (forall k, m <= k -> k < n -> f k = 0%R) ->
  sum_upto n f = sum_upto m f.
Proof.
  induction n as [|n IH]; intros Hmn H.
  - replace m with 0 by lia; reflexivity.
  - destruct (Nat.eq_dec m (S n)) as [->|Hne]; [reflexivity|].
    simpl; rewrite IH, (H n); [lra|lia|lia|lia|]; intros k ? ?; apply H; lia.
Qed.

Lemma sum_upto_div (n : nat) (f : nat -> R) (c : R) :
  sum_upto n (fun k => (f k / c)%R) = (sum_upto n f / c)%R.
Proof.
  induction n as [|n IH]; simpl; [lra|]; rewrite IH; lra.
Qed.

Lemma sum_upto_pos (n : nat) (f : nat -> R) :
  0 < n -> (forall k, k < n -> (0 < f k)%R) -> (0 < sum_upto n f)%R.
Proof.
  induction n as [|n IH]; intros Hn H; [lia|]; simpl.
  destruct n as [|n].
  - simpl; specialize (H 0 ltac:(lia)); lra.
  - assert (0 < sum_upto (S n) f)%R by (apply IH; [lia|]; intros; apply H; lia).
    specialize (H (S n) ltac:(lia)); lra.
Qed.

(** ** The lower-triangular mask *)

Lemma tril_test (i j : nat) :
  (if Req_dec_T (if j <=? i then 1%R else 0%R) 0%R then true else false)
  = negb (j <=? i).
Proof.
  destruct (j <=? i); simpl; destruct (Req_dec_T _ _) as [H|H];
    try reflexivity; exfalso; lra.
Qed.

Lemma eq_zero_tril (T i j : nat) :
  at2 (eq_zero (tril_ones T)) i j = negb (j <=? i).
Proof. apply tril_test. Qed.

(** ** Linear layers *)

Lemma Linear_forward_inv (l : Linear.t) (x y : Tensor3 R) :
  Linear.forward l x = Ok y ->
  dim2 x = Linear.in_features l /\
  dim0 y = dim0 x /\ dim1 y = dim1 x /\ dim2 y = Linear.out_features l /\
  forall b t o,
    at3 y b t o =
    (sum_upto (Linear.in_features l) (fun i => at3 x b t i * Linear.weight l o i)
     + match Linear.bias l with Some c => c o | None => 0 end)%R.
Proof.
  unfold Linear.forward.
  destruct (dim2 x =? Linear.in_features l) eqn:E; [|discriminate].
  intros H; injection H as <-; simpl.
  apply Nat.eqb_eq in E; repeat split; assumption.
Qed.

Lemma Linear_forward_ok (l : Linear.t) (x : Tensor3 R) :
  dim2 x = Linear.in_features l -> exists y, Linear.forward l x = Ok y.
Proof.
  intros H; unfold Linear.forward.
  rewrite H, Nat.eqb_refl; eexists; reflexivity.
Qed.

Lemma Linear_forward_bad (l : Linear.t) (x : Tensor3 R) :
  dim2 x <> Linear.in_features l -> Linear.forward l x = Raise RuntimeError.
Proof.
  intros H; unfold Linear.forward.
  apply Nat.eqb_neq in H; rewrite H; reflexivity.
Qed.

Lemma Linear_forward_agree (l : Linear.t) (i : nat) (x1 x2 y1 : Tensor3 R) :
  agree i x1 x2 -> Linear.forward l x1 = Ok y1 ->
  exists y2, Linear.forward l x2 = Ok y2 /\ agree i y1 y2.
Proof.
  intros (H0 & H2 & Hi1 & Hi2 & Hat) H1.
  apply Linear_forward_inv in H1 as (Hin & E0 & E1 & E2 & Ey1).
  destruct (Linear_forward_ok l x2) as (y2 & Hy2); [congruence|].
  exists y2; split; [exact Hy2|].
  apply Linear_forward_inv in Hy2 as (_ & F0 & F1 & F2 & Ey2).
  unfold agree; repeat split; try congruence; try lia.
  intros b t o Hb Ht Ho; rewrite Ey1, Ey2; f_equal.
  apply sum_upto_ext; intros k Hk; rewrite Hat; [reflexivity| | |]; lia.
Qed.

(** ** Attention weights in closed form *)

Lemma weights_inv (h : SingleHeadAttention.t) (x w V : Tensor3 R) :
  SingleHeadAttention.weights h x = Ok (w, V) ->
  exists K Q,
    Linear.forward (SingleHeadAttention.key_layer h) x = Ok K /\
    Linear.forward (SingleHeadAttention.query_layer h) x = Ok Q /\
    Linear.forward (SingleHeadAttention.value_layer h) x = Ok V /\
    dim2 Q = dim2 K /\
    shape3 w = (dim0 x, dim1 x, dim1 x) /\
    forall b i j,
      at3 w b i j = (masked_exp Q K b i j / sum_upto (dim1 x) (masked_exp Q K b i))%R.
Proof.
  unfold SingleHeadAttention.weights; intros H.
  apply bind_Ok in H as (K & HK & H).
  apply bind_Ok in H as (Q & HQ & H).
  apply bind_Ok in H as (V' & HV & H).
  apply bind_Ok in H as (qk & Hqk & H).
  apply bind_Ok in H as (s & Hs & H).
  injection H as <- <-.
  exists K, Q; repeat split; try assumption.
  - unfold matmul in Hqk; simpl in Hqk.
    destruct (_ && _) eqn:E in Hqk; [|discriminate].
    apply andb_true_iff in E as [_ E]; apply Nat.eqb_eq in E; exact E.
  - apply Linear_forward_inv in HK as (_ & K0 & K1 & _).
    apply Linear_forward_inv in HQ as (_ & Q0 & Q1 & _).
    unfold matmul in Hqk; destruct (_ && _) in Hqk; [|discriminate].
    injection Hqk as <-.
    unfold masked_fill_neg_inf in Hs; destruct (_ && _) in Hs; [|discriminate].
    injection Hs as <-; unfold shape3; simpl; congruence.
  - apply Linear_forward_inv in HK as (_ & K0 & K1 & _).
    apply Linear_forward_inv in HQ as (_ & Q0 & Q1 & _).
    unfold matmul in Hqk; destruct (_ && _) in Hqk; [|discriminate].
    injection Hqk as <-.
    unfold masked_fill_neg_inf in Hs; destruct (_ && _) in Hs; [|discriminate].
    injection Hs as <-; intros b i j.
    cbn [at3 softmax dim2 div_scalar transpose].
    rewrite K1; f_equal.
    + rewrite tril_test; unfold masked_exp, score.
      destruct (j <=? i); reflexivity.
    + apply sum_upto_ext; intros k _.
      rewrite tril_test; unfold masked_exp, score.
      destruct (k <=? i); reflexivity.
Qed.

Lemma weights_ok (h : SingleHeadAttention.t) (d hs : nat) (x : Tensor3 R) :
  head_wf d hs h -> dim2 x = d ->
  exists w V, SingleHeadAttention.weights h x = Ok (w, V) /\
              shape3 V = (dim0 x, dim1 x, hs).
Proof.
  intros ((Ki & Ko) & (Qi & Qo) & (Vi & Vo)) Hx.
  unfold SingleHeadAttention.weights, Linear.forward, matmul, masked_fill_neg_inf.
  rewrite Ki, Qi, Vi, Hx, Nat.eqb_refl; simpl.
  rewrite Ko, Qo, !Nat.eqb_refl; simpl.
  rewrite !Nat.eqb_refl; simpl.
  do 2 eexists; split; [reflexivity|].
  unfold shape3; simpl; rewrite Vo; reflexivity.
Qed.

Lemma masked_exp_future (Q K : Tensor3 R) (b i j : nat) :
  i < j -> masked_exp Q K b i j = 0%R.
Proof.
  intros H; unfold masked_exp.
  destruct (j <=? i) eqn:E; [apply Nat.leb_le in E; lia|reflexivity].
Qed.

Lemma masked_exp_row (Q K : Tensor3 R) (b i T : nat) :
  i < T ->
  sum_upto T (masked_exp Q K b i) = sum_upto (S i) (masked_exp Q K b i).
Proof.
  intros H; apply sum_upto_tail; [lia|].
  intros k Hk _; apply masked_exp_future; lia.
Qed.

Lemma masked_exp_row_pos (Q K : Tensor3 R) (b i : nat) :
  (0 < sum_upto (S i) (masked_exp Q K b i))%R.
Proof.
  apply sum_upto_pos; [lia|]; intros k Hk; unfold masked_exp.
  destruct (k <=? i) eqn:E; [apply exp_pos|apply Nat.leb_gt in E; lia].
Qed.

Lemma masked_exp_agree (i : nat) (Q1 Q2 K1 K2 : Tensor3 R) (b t j : nat) :
  agree i Q1 Q2 -> agree i K1 K2 -> dim0 Q1 = dim0 K1 -> dim2 Q1 = dim2 K1 ->
  b < dim0 Q1 -> t <= i ->
  masked_exp Q1 K1 b t j = masked_exp Q2 K2 b t j.
Proof.
  intros (Q0 & Q2' & _ & _ & HQ) (K0 & K2' & _ & _ & HK) E0 E2 Hb Ht.
  unfold masked_exp; destruct (j <=? t) eqn:E; [|reflexivity].
  apply Nat.leb_le in E; unfold score; rewrite <- Q2', <- K2'; do 2 f_equal.
  apply sum_upto_ext; intros a Ha.
  rewrite HQ, HK; [reflexivity| | | | | |]; lia.
Qed.

(** ** SingleHeadAttention.forward *)

Lemma weights_of_linears (h : SingleHeadAttention.t) (x K Q V : Tensor3 R) :
  Linear.forward (SingleHeadAttention.key_layer h) x = Ok K ->
  Linear.forward (SingleHeadAttention.query_layer h) x = Ok Q ->
  Linear.forward (SingleHeadAttention.value_layer h) x = Ok V ->
  dim2 Q = dim2 K ->
  exists w, SingleHeadAttention.weights h x = Ok (w, V).
Proof.
  intros HK HQ HV E.
  unfold SingleHeadAttention.weights; rewrite HK, HQ, HV; simpl.
  apply Linear_forward_inv in HK as (_ & K0 & K1 & _).
  apply Linear_forward_inv in HQ as (_ & Q0 & Q1 & _).
  unfold matmul; simpl.
  rewrite Q0, K0, E, !Nat.eqb_refl; simpl.
  unfold masked_fill_neg_inf; simpl.
  rewrite Q1, K1, !Nat.eqb_refl; simpl.
  eexists; reflexivity.
Qed.

Lemma SHA_forward_inv (h : SingleHeadAttention.t) (x o : Tensor3 R) :
  SingleHeadAttention.forward h x = Ok o ->
  exists w V,
    SingleHeadAttention.weights h x = Ok (w, V) /\
    shape3 o = (dim0 x, dim1 x, dim2 V) /\
    forall b i a,
      at3 o b i a = sum_upto (dim1 x) (fun j => (at3 w b i j * at3 V b j a)%R).
Proof.
  unfold SingleHeadAttention.forward; intros H.
  apply bind_Ok in H as ([w V] & Hw & H); simpl in H.
  exists w, V; split; [exact Hw|].
  apply weights_inv in Hw as (K & Q & _ & _ & _ & _ & Hs & _).
  unfold shape3 in Hs; injection Hs as S0 S1 S2.
  unfold matmul in H; destruct (_ && _) in H; [|discriminate].
  injection H as <-; unfold shape3; simpl; rewrite S0, S1, S2.
  split; reflexivity.
Qed.

Lemma SHA_forward_of_weights (h : SingleHeadAttention.t) (x w V : Tensor3 R) :
  SingleHeadAttention.weights h x = Ok (w, V) ->
  exists o, SingleHeadAttention.forward h x = Ok o.
Proof.
  intros Hw; unfold SingleHeadAttention.forward; rewrite Hw; simpl.
  apply weights_inv in Hw as (K & Q & _ & _ & HV & _ & Hs & _).
  apply Linear_forward_inv in HV as (_ & V0 & V1 & _).
  unfold shape3 in Hs; injection Hs as S0 S1 S2.
  unfold matmul; rewrite S0, S2, V0, V1, !Nat.eqb_refl; simpl.
  eexists; reflexivity.
Qed.

Lemma SHA_forward_shape (h : SingleHeadAttention.t) (d hs : nat) (x : Tensor3 R) :
  head_wf d hs h -> dim2 x = d ->
  exists o, SingleHeadAttention.forward h x = Ok o /\
            shape3 o = (dim0 x, dim1 x, hs).
Proof.
  intros Hwf Hx.
  destruct (weights_ok h d hs x Hwf Hx) as (w & V & Hw & HV).
  destruct (SHA_forward_of_weights h x w V Hw) as (o & Ho).
  exists o; split; [exact Ho|].
  apply SHA_forward_inv in Ho as (w' & V' & Hw' & Hs & _).
  rewrite Hw in Hw'; injection Hw' as <- <-.
  unfold shape3 in HV; injection HV as _ _ V2; rewrite Hs, V2; reflexivity.
Qed.

Lemma SHA_forward_agree (h : SingleHeadAttention.t) (i : nat)
      (x1 x2 o1 : Tensor3 R) :
  agree i x1 x2 -> SingleHeadAttention.forward h x1 = Ok o1 ->
  exists o2, SingleHeadAttention.forward h x2 = Ok o2 /\ agree i o1 o2.
Proof.
  intros Hag H1.
  apply SHA_forward_inv in H1 as (w1 & V1 & Hw1 & Hs1 & Ho1).
  apply weights_inv in Hw1 as (K1 & Q1 & HK1 & HQ1 & HV1 & E1 & _ & Hat1).
  destruct (Linear_forward_agree _ i x1 x2 K1 Hag HK1) as (K2 & HK2 & AK).
  destruct (Linear_forward_agree _ i x1 x2 Q1 Hag HQ1) as (Q2 & HQ2 & AQ).
  destruct (Linear_forward_agree _ i x1 x2 V1 Hag HV1) as (V2 & HV2 & AV).
  assert (E2 : dim2 Q2 = dim2 K2).
  { destruct AQ as (_ & <- & _), AK as (_ & <- & _); exact E1. }
  destruct (weights_of_linears h x2 K2 Q2 V2 HK2 HQ2 HV2 E2) as (w2 & Hw2).
  destruct (SHA_forward_of_weights h x2 w2 V2 Hw2) as (o2 & H2).
  exists o2; split; [exact H2|].
  apply SHA_forward_inv in H2 as (w2' & V2' & Hw2' & Hs2 & Ho2).
  rewrite Hw2 in Hw2'; injection Hw2' as <- <-.
  apply weights_inv in Hw2 as (K2' & Q2' & HK2' & HQ2' & _ & _ & _ & Hat2).
  rewrite HK2 in HK2'; injection HK2' as <-.
  rewrite HQ2 in HQ2'; injection HQ2' as <-.
  unfold shape3 in Hs1, Hs2; injection Hs1 as S0 S1 S2; injection Hs2 as T0 T1 T2.
  destruct Hag as (X0 & X2 & Xi1 & Xi2 & _).
  pose proof AV as (V0 & Vd & _ & _ & HV).
  apply Linear_forward_inv in HK1 as (_ & K10 & _).
  apply Linear_forward_inv in HQ1 as (_ & Q10 & _).
  apply Linear_forward_inv in HV1 as (_ & V10 & _).
  unfold agree; repeat split; try congruence; try lia.
  intros b t a Hb Ht Ha; rewrite Ho1, Ho2.
  rewrite (sum_upto_tail (S t) (dim1 x1)), (sum_upto_tail (S t) (dim1 x2)); try lia.
  - apply sum_upto_ext; intros j Hj.
    rewrite Hat1, Hat2.
    rewrite (masked_exp_row Q1 K1 b t (dim1 x1)) by lia.
    rewrite (masked_exp_row Q2 K2 b t (dim1 x2)) by lia.
    rewrite HV by lia.
    f_equal; f_equal.
    + apply (masked_exp_agree i); try assumption; lia.
    + apply sum_upto_ext; intros k Hk.
      apply (masked_exp_agree i); try assumption; lia.
  - intros j Hj _; rewrite Hat2, masked_exp_future by lia; lra.
  - intros j Hj _; rewrite Hat1, masked_exp_future by lia; lra.
Qed.

Lemma SHA_forward_agree2 (h : SingleHeadAttention.t) (i : nat)
      (x1 x2 o1 o2 : Tensor3 R) :
  agree i x1 x2 ->
  SingleHeadAttention.forward h x1 = Ok o1 ->
  SingleHeadAttention.forward h x2 = Ok o2 ->
  agree i o1 o2.
Proof.
  intros Hag H1 H2.
  destruct (SHA_forward_agree h i x1 x2 o1 Hag H1) as (o2' & H2' & A).
  rewrite H2 in H2'; injection H2' as <-; exact A.
Qed.

(** ** Position-wise layers *)

Lemma shape3_inv {A : Type} (x y : Tensor3 A) :
  shape3 x = shape3 y -> dim0 x = dim0 y /\ dim1 x = dim1 y /\ dim2 x = dim2 y.
Proof. unfold shape3; intros H; injection H as -> -> ->; auto. Qed.

Lemma LayerNorm_forward_ok (ln : LayerNorm.t) (x : Tensor3 R) :
  dim2 x = LayerNorm.normalized_shape ln ->
  exists y, LayerNorm.forward ln x = Ok y /\ shape3 y = shape3 x.
Proof.
  intros H; unfold LayerNorm.forward; rewrite H, Nat.eqb_refl.
  eexists; split; [reflexivity|]; unfold shape3; simpl; rewrite H; reflexivity.
Qed.

Lemma LayerNorm_forward_agree (ln : LayerNorm.t) (i : nat)
      (x1 x2 y1 y2 : Tensor3 R) :
  agree i x1 x2 ->
  LayerNorm.forward ln x1 = Ok y1 -> LayerNorm.forward ln x2 = Ok y2 ->
  agree i y1 y2.
Proof.
  intros (X0 & X2 & Xi1 & Xi2 & Hat) H1 H2.
  unfold LayerNorm.forward in H1, H2.
  destruct (dim2 x1 =? _) eqn:E1 in H1; [|discriminate].
  destruct (dim2 x2 =? _) in H2; [|discriminate].
  apply Nat.eqb_eq in E1.
  injection H1 as <-; injection H2 as <-.
  unfold agree; simpl; repeat split; try assumption.
  intros b t k Hb Ht Hk.
  assert (Hrow : forall j, j < LayerNorm.normalized_shape ln ->
                           at3 x1 b t j = at3 x2 b t j).
  { intros j Hj; apply Hat; lia. }
  assert (Hmu : LayerNorm.mean (LayerNorm.normalized_shape ln) (at3 x1 b t)
                = LayerNorm.mean (LayerNorm.normalized_shape ln) (at3 x2 b t)).
  { unfold LayerNorm.mean; f_equal; apply sum_upto_ext; exact Hrow. }
  rewrite Hmu, (Hrow k) by lia.
  do 4 f_equal.
  unfold LayerNorm.mean; do 2 f_equal.
  apply sum_upto_ext; intros j Hj; rewrite (Hrow j Hj); reflexivity.
Qed.

Lemma relu_agree (i : nat) (x1 x2 : Tensor3 R) :
  agree i x1 x2 -> agree i (relu x1) (relu x2).
Proof.
  intros (X0 & X2 & Xi1 & Xi2 & Hat).
  unfold agree; simpl; repeat split; try assumption.
  intros b t k Hb Ht Hk; rewrite Hat by assumption; reflexivity.
Qed.

Lemma Dropout_forward_shape (d : Dropout.t) (training : bool) (keep : Mask)
      (x : Tensor3 R) :
  shape3 (Dropout.forward d training keep x) = shape3 x.
Proof. unfold Dropout.forward; destruct training; reflexivity. Qed.

Lemma Dropout_forward_agree (d : Dropout.t) (training : bool) (keep : Mask)
      (i : nat) (x1 x2 : Tensor3 R) :
  agree i x1 x2 ->
  agree i (Dropout.forward d training keep x1) (Dropout.forward d training keep x2).
Proof.
  intros Hag; unfold Dropout.forward; destruct training; [|exact Hag].
  destruct Hag as (X0 & X2 & Xi1 & Xi2 & Hat).
  unfold agree; simpl; repeat split; try assumption.
  intros b t k Hb Ht Hk; rewrite Hat by assumption; reflexivity.
Qed.

Lemma add_inv (x y z : Tensor3 R) :
  add x y = Ok z ->
  shape3 y = shape3 x /\ shape3 z = shape3 x /\
  forall b t k, at3 z b t k = (at3 x b t k + at3 y b t k)%R.
Proof.
  unfold add; destruct (_ && _) eqn:E; [|discriminate].
  apply andb_true_iff in E as [E E2]; apply andb_true_iff in E as [E0 E1].
  apply Nat.eqb_eq in E0, E1, E2.
  intros H; injection H as <-; unfold shape3; simpl.
  rewrite E0, E1, E2; repeat split.
Qed.

Lemma add_ok (x y : Tensor3 R) :
  shape3 y = shape3 x -> exists z, add x y = Ok z /\ shape3 z = shape3 x.
Proof.
  intros H; apply shape3_inv in H as (H0 & H1 & H2).
  unfold add; rewrite H0, H1, H2, !Nat.eqb_refl; simpl.
  eexists; split; [reflexivity|]; unfold shape3; simpl; congruence.
Qed.

Lemma add_agree (i : nat) (x1 x2 y1 y2 z1 z2 : Tensor3 R) :
  agree i x1 x2 -> agree i y1 y2 ->
  add x1 y1 = Ok z1 -> add x2 y2 = Ok z2 -> agree i z1 z2.
Proof.
  intros (X0 & X2 & Xi1 & Xi2 & HX) (Y0 & Y2 & _ & _ & HY) H1 H2.
  apply add_inv in H1 as (S1 & T1 & E1), H2 as (S2 & T2 & E2).
  apply shape3_inv in S1 as (? & ? & ?), T1 as (? & ? & ?).
  apply shape3_inv in S2 as (? & ? & ?), T2 as (? & ? & ?).
  unfold agree; repeat split; try congruence; try lia.
  intros b t k Hb Ht Hk; rewrite E1, E2, HX, HY; [reflexivity| | | | | |]; lia.
Qed.

(** ** Concatenation of the heads *)

Lemma cat2_inv (x y c : Tensor3 R) :
  cat2 x y = Ok c ->
  dim0 y = dim0 x /\ dim1 y = dim1 x /\
  shape3 c = (dim0 x, dim1 x, dim2 x + dim2 y) /\
  forall b t k, at3 c b t k = if k <? dim2 x then at3 x b t k
                              else at3 y b t (k - dim2 x).
Proof.
  unfold cat2; destruct (_ && _) eqn:E; [|discriminate].
  apply andb_true_iff in E as [E0 E1]; apply Nat.eqb_eq in E0, E1.
  intros H; injection H as <-; unfold shape3; simpl; repeat split; congruence.
Qed.

Lemma cat_shape (B T hs : nat) (outs : list (Tensor3 R)) :
  outs <> [] ->
  Forall (fun o => shape3 o = (B, T, hs)) outs ->
  exists c, cat outs = Ok c /\ shape3 c = (B, T, length outs * hs).
Proof.
  induction outs as [|o outs IH]; intros Hne Hall; [congruence|].
  apply Forall_cons_iff in Hall as [Ho Hall].
  destruct outs as [|o' outs].
  - exists o; split; [reflexivity|]; rewrite Ho; simpl; do 2 f_equal; lia.
  - destruct IH as (c & Hc & Sc); [discriminate|exact Hall|].
    change (cat (o :: o' :: outs)) with (r <- cat (o' :: outs) ;; cat2 o r).
    rewrite Hc; simpl bind.
    unfold shape3 in Ho, Sc; injection Ho as O0 O1 O2; injection Sc as C0 C1 C2.
    unfold cat2; rewrite O0, O1, C0, C1, !Nat.eqb_refl; simpl.
    eexists; split; [reflexivity|]; unfold shape3; simpl.
    rewrite O2, C2; simpl; reflexivity.
Qed.

Lemma cat_agree (i : nat) (l1 l2 : list (Tensor3 R)) (c1 c2 : Tensor3 R) :
  Forall2 (agree i) l1 l2 -> cat l1 = Ok c1 -> cat l2 = Ok c2 -> agree i c1 c2.
Proof.
  intros H; revert c1 c2; induction H as [|x1 x2 l1 l2 Hx Hl IH]; intros c1 c2 H1 H2.
  - discriminate.
  - destruct Hl as [|y1 y2 l1 l2 Hy Hl].
    + simpl in H1, H2; injection H1 as <-; injection H2 as <-; exact Hx.
    + change (cat (x1 :: y1 :: l1)) with (r <- cat (y1 :: l1) ;; cat2 x1 r) in H1.
      change (cat (x2 :: y2 :: l2)) with (r <- cat (y2 :: l2) ;; cat2 x2 r) in H2.
      apply bind_Ok in H1 as (r1 & Hr1 & H1), H2 as (r2 & Hr2 & H2).
      specialize (IH r1 r2 Hr1 Hr2).
      apply cat2_inv in H1 as (A0 & A1 & SA & EA), H2 as (B0 & B1 & SB & EB).
      unfold shape3 in SA, SB; injection SA as ? ? ?; injection SB as ? ? ?.
      destruct Hx as (X0 & X2 & Xi1 & Xi2 & HX), IH as (R0 & R2 & Ri1 & Ri2 & HR).
      unfold agree; repeat split; try congruence; try lia.
      intros b t k Hb Ht Hk; rewrite EA, EB, <- X2.
      destruct (k <? dim2 x1) eqn:E.
      * apply Nat.ltb_lt in E; apply HX; lia.
      * apply Nat.ltb_ge in E; apply HR; lia.
Qed.

(** ** MultiHeadedSelfAttention *)

Lemma heads_forward_shape (d hs : nat) (heads : list SingleHeadAttention.t)
      (x : Tensor3 R) :
  Forall (head_wf d hs) heads -> dim2 x = d ->
  exists outs,
    mapM (fun head => SingleHeadAttention.forward head x) heads = Ok outs /\
    Forall (fun o => shape3 o = (dim0 x, dim1 x, hs)) outs.
Proof.
  intros Hall Hx; induction Hall as [|h heads Hh Hall IH].
  - exists []; split; [reflexivity|constructor].
  - destruct (SHA_forward_shape h d hs x Hh Hx) as (o & Ho & So).
    destruct IH as (outs & Houts & Souts).
    exists (o :: outs); split; [|constructor; assumption].
    simpl; rewrite Ho; simpl; rewrite Houts; reflexivity.
Qed.

Lemma heads_forward_agree (i : nat) (heads : list SingleHeadAttention.t)
      (x1 x2 : Tensor3 R) (l1 l2 : list (Tensor3 R)) :
  agree i x1 x2 ->
  mapM (fun head => SingleHeadAttention.forward head x1) heads = Ok l1 ->
  mapM (fun head => SingleHeadAttention.forward head x2) heads = Ok l2 ->
  Forall2 (agree i) l1 l2.
Proof.
  intros Hag; revert l1 l2; induction heads as [|h heads IH]; simpl; intros l1 l2 H1 H2.
  - injection H1 as <-; injection H2 as <-; constructor.
  - apply bind_Ok in H1 as (o1 & Ho1 & H1), H2 as (o2 & Ho2 & H2).
    apply bind_Ok in H1 as (r1 & Hr1 & H1), H2 as (r2 & Hr2 & H2).
    injection H1 as <-; injection H2 as <-; constructor.
    + exact (SHA_forward_agree2 h i x1 x2 o1 o2 Hag Ho1 Ho2).
    + apply IH; assumption.
Qed.

Lemma MHSA_concat_shape (d nh : nat) (m : MultiHeadedSelfAttention.t)
      (x : Tensor3 R) :
  mhsa_wf d nh m -> 0 < nh -> dim2 x = d ->
  exists outs c,
    mapM (fun head => SingleHeadAttention.forward head x)
      (MultiHeadedSelfAttention.attention_heads m) = Ok outs /\
    cat outs = Ok c /\ shape3 c = (dim0 x, dim1 x, nh * (d / nh)).
Proof.
  intros (Hlen & Hheads & _) Hnh Hx.
  destruct (heads_forward_shape d (d / nh) _ x Hheads Hx) as (outs & Houts & Souts).
  pose proof (mapM_length _ _ _ Houts) as Hl.
  destruct (cat_shape (dim0 x) (dim1 x) (d / nh) outs) as (c & Hc & Sc).
  - intros ->; simpl in Hl; lia.
  - exact Souts.
  - exists outs, c; repeat split; try assumption.
    rewrite Sc, Hl, Hlen; reflexivity.
Qed.

Lemma divisible_exact (d nh : nat) : divisible d nh -> nh * (d / nh) = d.
Proof.
  intros (Hnh & Hmod).
  symmetry; apply Nat.Div0.div_exact; exact Hmod.
Qed.

Lemma not_divisible_lt (d nh : nat) :
  0 < nh -> d mod nh <> 0 -> nh * (d / nh) <> d.
Proof.
  intros Hnh Hmod E; apply Hmod.
  apply Nat.Div0.div_exact; symmetry; exact E.
Qed.

Lemma MHSA_forward_shape (d nh : nat) (training : bool) (keep : Mask)
      (m : MultiHeadedSelfAttention.t) (x : Tensor3 R) :
  mhsa_wf d nh m -> divisible d nh -> dim2 x = d ->
  exists y, MultiHeadedSelfAttention.forward training keep m x = Ok y /\
            shape3 y = shape3 x.
Proof.
  intros Hwf Hdiv Hx.
  destruct (MHSA_concat_shape d nh m x Hwf (proj1 Hdiv) Hx) as (outs & c & Ho & Hc & Sc).
  rewrite (divisible_exact d nh Hdiv) in Sc.
  destruct Hwf as (_ & _ & Ci & Co).
  unfold shape3 in Sc; injection Sc as C0 C1 C2.
  destruct (Linear_forward_ok (MultiHeadedSelfAttention.compute m) c) as (y & Hy);
    [congruence|].
  unfold MultiHeadedSelfAttention.forward; rewrite Ho; simpl; rewrite Hc; simpl.
  rewrite Hy; simpl; eexists; split; [reflexivity|].
  rewrite Dropout_forward_shape.
  apply Linear_forward_inv in Hy as (_ & Y0 & Y1 & Y2 & _).
  unfold shape3; congruence.
Qed.

Lemma MHSA_forward_bad (d nh : nat) (training : bool) (keep : Mask)
      (m : MultiHeadedSelfAttention.t) (x : Tensor3 R) :
  mhsa_wf d nh m -> 0 < nh -> d mod nh <> 0 -> dim2 x = d ->
  MultiHeadedSelfAttention.forward training keep m x = Raise RuntimeError.
Proof.
  intros Hwf Hnh Hmod Hx.
  destruct (MHSA_concat_shape d nh m x Hwf Hnh Hx) as (outs & c & Ho & Hc & Sc).
  destruct Hwf as (_ & _ & Ci & Co).
  unfold shape3 in Sc; injection Sc as C0 C1 C2.
  unfold MultiHeadedSelfAttention.forward; rewrite Ho; simpl; rewrite Hc; simpl.
  rewrite Linear_forward_bad; [reflexivity|].
  rewrite C2, Ci; apply not_divisible_lt; assumption.
Qed.

Lemma MHSA_forward_agree (training : bool) (keep : Mask)
      (m : MultiHeadedSelfAttention.t) (i : nat) (x1 x2 y1 y2 : Tensor3 R) :
  agree i x1 x2 ->
  MultiHeadedSelfAttention.forward training keep m x1 = Ok y1 ->
  MultiHeadedSelfAttention.forward training keep m x2 = Ok y2 ->
  agree i y1 y2.
Proof.
  intros Hag H1 H2; unfold MultiHeadedSelfAttention.forward in H1, H2.
  apply bind_Ok in H1 as (l1 & Hl1 & H1), H2 as (l2 & Hl2 & H2).
  apply bind_Ok in H1 as (c1 & Hc1 & H1), H2 as (c2 & Hc2 & H2).
  apply bind_Ok in H1 as (z1 & Hz1 & H1), H2 as (z2 & Hz2 & H2).
  injection H1 as <-; injection H2 as <-.
  apply Dropout_forward_agree.
  pose proof (heads_forward_agree i _ x1 x2 l1 l2 Hag Hl1 Hl2) as Hl.
  pose proof (cat_agree i l1 l2 c1 c2 Hl Hc1 Hc2) as Hc.
  destruct (Linear_forward_agree _ i c1 c2 z1 Hc Hz1) as (z2' & Hz2' & A).
  rewrite Hz2 in Hz2'; injection Hz2' as <-; exact A.
Qed.

(** ** VanillaNeuralNetwork *)

Lemma VNN_forward_shape (d : nat) (training : bool) (keep : Mask)
      (n : VanillaNeuralNetwork.t) (x : Tensor3 R) :
  vnn_wf d n -> dim2 x = d ->
  exists y, VanillaNeuralNetwork.forward training keep n x = Ok y /\
            shape3 y = shape3 x.
Proof.
  intros ((Fi & Fo) & (Si & So)) Hx.
  unfold VanillaNeuralNetwork.forward, Linear.forward.
  rewrite Hx, Fi, Nat.eqb_refl; simpl.
  rewrite Fo, Si, Nat.eqb_refl; simpl.
  eexists; split; [reflexivity|].
  rewrite Dropout_forward_shape; unfold shape3; simpl; congruence.
Qed.

Lemma VNN_forward_agree (training : bool) (keep : Mask)
      (n : VanillaNeuralNetwork.t) (i : nat) (x1 x2 y1 y2 : Tensor3 R) :
  agree i x1 x2 ->
  VanillaNeuralNetwork.forward training keep n x1 = Ok y1 ->
  VanillaNeuralNetwork.forward training keep n x2 = Ok y2 ->
  agree i y1 y2.
Proof.
  intros Hag H1 H2; unfold VanillaNeuralNetwork.forward in H1, H2.
  apply bind_Ok in H1 as (h1 & Hh1 & H1), H2 as (h2 & Hh2 & H2).
  apply bind_Ok in H1 as (z1 & Hz1 & H1), H2 as (z2 & Hz2 & H2).
  injection H1 as <-; injection H2 as <-.
  apply Dropout_forward_agree.
  destruct (Linear_forward_agree _ i x1 x2 h1 Hag Hh1) as (h2' & Hh2' & Ah).
  rewrite Hh2 in Hh2'; injection Hh2' as <-.
  destruct (Linear_forward_agree _ i _ _ z1 (relu_agree i h1 h2 Ah) Hz1)
    as (z2' & Hz2' & A).
  rewrite Hz2 in Hz2'; injection Hz2' as <-; exact A.
Qed.

(** ** TransformerBlock *)

Lemma TransformerBlock_forward_steps (d nh : nat) (training : bool)
      (keeps : nat -> Mask) (blk : TransformerBlock.t) (x : Tensor3 R) :
  block_wf d nh blk -> divisible d nh -> dim2 x = d ->
  exists n1 a x1 n2 f x2,
    LayerNorm.forward (TransformerBlock.layer_norm_one blk) x = Ok n1 /\
    MultiHeadedSelfAttention.forward training (keeps 0)
      (TransformerBlock.mhsa blk) n1 = Ok a /\
    add x a = Ok x1 /\
    LayerNorm.forward (TransformerBlock.layer_norm_two blk) x1 = Ok n2 /\
    VanillaNeuralNetwork.forward training (keeps 1)
      (TransformerBlock.vanilla_nn blk) n2 = Ok f /\
    add x1 f = Ok x2 /\
    TransformerBlock.forward training keeps blk x = Ok x2 /\
    shape3 x1 = shape3 x /\ shape3 x2 = shape3 x.
Proof.
  intros (Hm & Hv & L1 & L2) Hdiv Hx.
  destruct (LayerNorm_forward_ok _ x (eq_trans Hx (eq_sym L1))) as (n1 & Hn1 & Sn1).
  pose proof (shape3_inv _ _ Sn1) as (_ & _ & Dn1).
  destruct (MHSA_forward_shape d nh training (keeps 0) _ n1 Hm Hdiv
              (eq_trans Dn1 Hx)) as (a & Ha & Sa).
  destruct (add_ok x a (eq_trans Sa Sn1)) as (x1 & Hx1 & Sx1).
  pose proof (shape3_inv _ _ Sx1) as (_ & _ & Dx1).
  destruct (LayerNorm_forward_ok (TransformerBlock.layer_norm_two blk) x1)
    as (n2 & Hn2 & Sn2); [congruence|].
  pose proof (shape3_inv _ _ Sn2) as (_ & _ & Dn2).
  destruct (VNN_forward_shape d training (keeps 1) _ n2 Hv) as (f & Hf & Sf);
    [congruence|].
  destruct (add_ok x1 f (eq_trans Sf Sn2)) as (x2 & Hx2 & Sx2).
  exists n1, a, x1, n2, f, x2; repeat split; try assumption.
  - unfold TransformerBlock.forward.
    rewrite Hn1; simpl; rewrite Ha; simpl; rewrite Hx1; simpl.
    rewrite Hn2; simpl; rewrite Hf; simpl; rewrite Hx2; reflexivity.
  - congruence.
Qed.

Lemma TransformerBlock_forward_bad (d nh : nat) (training : bool)
      (keeps : nat -> Mask) (blk : TransformerBlock.t) (x : Tensor3 R) :
  block_wf d nh blk -> 0 < nh -> d mod nh <> 0 -> dim2 x = d ->
  TransformerBlock.forward training keeps blk x = Raise RuntimeError.
Proof.
  intros (Hm & Hv & L1 & L2) Hnh Hmod Hx.
  destruct (LayerNorm_forward_ok _ x (eq_trans Hx (eq_sym L1))) as (n1 & Hn1 & Sn1).
  pose proof (shape3_inv _ _ Sn1) as (_ & _ & Dn1).
  unfold TransformerBlock.forward; rewrite Hn1; simpl.
  rewrite (MHSA_forward_bad d nh); [reflexivity| | | |]; try assumption.
  congruence.
Qed.

Lemma TransformerBlock_forward_agree (training : bool) (keeps : nat -> Mask)
      (blk : TransformerBlock.t) (i : nat) (x1 x2 y1 y2 : Tensor3 R) :
  agree i x1 x2 ->
  TransformerBlock.forward training keeps blk x1 = Ok y1 ->
  TransformerBlock.forward training keeps blk x2 = Ok y2 ->
  agree i y1 y2.
Proof.
  intros Hag H1 H2; unfold TransformerBlock.forward in H1, H2.
  apply bind_Ok in H1 as (n1 & Hn1 & H1), H2 as (n2 & Hn2 & H2).
  apply bind_Ok in H1 as (a1 & Ha1 & H1), H2 as (a2 & Ha2 & H2).
  apply bind_Ok in H1 as (e1 & He1 & H1), H2 as (e2 & He2 & H2).
  apply bind_Ok in H1 as (m1 & Hm1 & H1), H2 as (m2 & Hm2 & H2).
  apply bind_Ok in H1 as (f1 & Hf1 & H1), H2 as (f2 & Hf2 & H2).
  apply bind_Ok in H1 as (z1 & Hz1 & H1), H2 as (z2 & Hz2 & H2).
  injection H1 as <-; injection H2 as <-.
  pose proof (LayerNorm_forward_agree _ i _ _ _ _ Hag Hn1 Hn2) as An.
  pose proof (MHSA_forward_agree _ _ _ i _ _ _ _ An Ha1 Ha2) as Aa.
  pose proof (add_agree i _ _ _ _ _ _ Hag Aa He1 He2) as Ae.
  pose proof (LayerNorm_forward_agree _ i _ _ _ _ Ae Hm1 Hm2) as Am.
  pose proof (VNN_forward_agree _ _ _ i _ _ _ _ Am Hf1 Hf2) as Af.
  exact (add_agree i _ _ _ _ _ _ Ae Af Hz1 Hz2).
Qed.

(** ** The stack of blocks *)

Lemma sequential_shape (d nh : nat) (training : bool) (rng : nat -> nat -> Mask)
      (blocks : list TransformerBlock.t) :
  Forall (block_wf d nh) blocks -> divisible d nh ->
  forall k x, dim2 x = d ->
  exists y, sequential training rng k blocks x = Ok y /\ shape3 y = shape3 x.
Proof.
  intros Hall Hdiv; induction Hall as [|blk blocks Hb Hall IH]; intros k x Hx.
  - exists x; split; reflexivity.
  - destruct (TransformerBlock_forward_steps d nh training (rng k) blk x Hb Hdiv Hx)
      as (_ & _ & _ & _ & _ & y & _ & _ & _ & _ & _ & _ & Hy & _ & Sy).
    pose proof (shape3_inv _ _ Sy) as (_ & _ & Dy).
    destruct (IH (S k) y (eq_trans Dy Hx)) as (z & Hz & Sz).
    exists z; split; [|congruence].
    simpl; rewrite Hy; exact Hz.
Qed.

Lemma sequential_agree (training : bool) (rng : nat -> nat -> Mask) (i : nat)
      (blocks : list TransformerBlock.t) :
  forall k x1 x2 y1 y2,
    agree i x1 x2 ->
    sequential training rng k blocks x1 = Ok y1 ->
    sequential training rng k blocks x2 = Ok y2 ->
    agree i y1 y2.
Proof.
  induction blocks as [|blk blocks IH]; simpl; intros k x1 x2 y1 y2 Hag H1 H2.
  - injection H1 as <-; injection H2 as <-; exact Hag.
  - apply bind_Ok in H1 as (z1 & Hz1 & H1), H2 as (z2 & Hz2 & H2).
    apply (IH (S k) z1 z2); try assumption.
    exact (TransformerBlock_forward_agree _ _ _ i _ _ _ _ Hag Hz1 Hz2).
Qed.

Lemma sequential_bad (d nh : nat) (training : bool) (rng : nat -> nat -> Mask)
      (blocks : list TransformerBlock.t) (k : nat) (x : Tensor3 R) :
  Forall (block_wf d nh) blocks -> blocks <> [] ->
  0 < nh -> d mod nh <> 0 -> dim2 x = d ->
  sequential training rng k blocks x = Raise RuntimeError.
Proof.
  intros Hall Hne Hnh Hmod Hx.
  destruct Hall as [|blk blocks Hb _]; [congruence|].
  simpl; rewrite (TransformerBlock_forward_bad d nh); auto.
Qed.

(** ** Embeddings *)

Lemma forallb_seq (f : nat -> bool) (n : nat) :
  forallb f (seq 0 n) = true <-> forall k, k < n -> f k = true.
Proof.
  rewrite forallb_forall; split.
  - intros H k Hk; apply H, in_seq; lia.
  - intros H k Hk; apply in_seq in Hk; apply H; lia.
Qed.

Lemma in_range_spec (e : Embedding.t) (z : Z) :
  Embedding.in_range e z = true <->
  (0 <= z < Z.of_nat (Embedding.num_embeddings e))%Z.
Proof.
  unfold Embedding.in_range.
  rewrite andb_true_iff, Z.leb_le, Z.ltb_lt; reflexivity.
Qed.

Lemma Embedding_forward_ok (e : Embedding.t) (idx : Tensor2 Z) :
  tokens_in_range (Embedding.num_embeddings e) idx ->
  exists y, Embedding.forward e idx = Ok y /\
            shape3 y = (rows idx, cols idx, Embedding.embedding_dim e) /\
            forall b t k,
              at3 y b t k = Embedding.weight e (Z.to_nat (at2 idx b t)) k.
Proof.
  intros H; unfold Embedding.forward.
  replace (forallb _ _) with true.
  - eexists; split; [reflexivity|]; split; reflexivity.
  - symmetry; apply forallb_seq; intros b Hb.
    apply forallb_seq; intros t Ht.
    apply in_range_spec, H; assumption.
Qed.

Lemma Embedding_forward_inv (e : Embedding.t) (idx : Tensor2 Z) (y : Tensor3 R) :
  Embedding.forward e idx = Ok y ->
  tokens_in_range (Embedding.num_embeddings e) idx /\
  shape3 y = (rows idx, cols idx, Embedding.embedding_dim e) /\
  forall b t k, at3 y b t k = Embedding.weight e (Z.to_nat (at2 idx b t)) k.
Proof.
  unfold Embedding.forward.
  destruct (forallb _ _) eqn:E; [|discriminate].
  intros H; injection H as <-; split; [|split; reflexivity].
  intros b t Hb Ht.
  rewrite forallb_seq in E; specialize (E b Hb).
  rewrite forallb_seq in E; apply in_range_spec, E, Ht.
Qed.

Lemma out_of_range_cases (e : Embedding.t) :
  Embedding.out_of_range e = IndexError \/ Embedding.out_of_range e = RuntimeError.
Proof. unfold Embedding.out_of_range; destruct (_ || _); auto. Qed.

Lemma out_of_range_nonempty (e : Embedding.t) :
  0 < Embedding.num_embeddings e -> 0 < Embedding.embedding_dim e ->
  Embedding.out_of_range e = IndexError.
Proof.
  intros Hn Hd; unfold Embedding.out_of_range.
  destruct (Embedding.num_embeddings e =? 0) eqn:E1; [apply Nat.eqb_eq in E1; lia|].
  destruct (Embedding.embedding_dim e =? 0) eqn:E2; [apply Nat.eqb_eq in E2; lia|].
  reflexivity.
Qed.

Lemma Embedding_forward_raises (e : Embedding.t) (idx : Tensor2 Z) (err : exn) :
  Embedding.forward e idx = Raise err -> err = Embedding.out_of_range e.
Proof.
  unfold Embedding.forward; destruct (forallb _ _); [discriminate|].
  intros H; injection H as <-; reflexivity.
Qed.

Lemma Embedding_forward_bad (e : Embedding.t) (idx : Tensor2 Z) (b t : nat) :
  b < rows idx -> t < cols idx ->
  ~ (0 <= at2 idx b t < Z.of_nat (Embedding.num_embeddings e))%Z ->
  Embedding.forward e idx = Raise (Embedding.out_of_range e).
Proof.
  intros Hb Ht Hbad.
  destruct (Embedding.forward e idx) as [y|err] eqn:E.
  - apply Embedding_forward_inv in E as (H & _); exfalso; apply Hbad, H; assumption.
  - apply Embedding_forward_raises in E; rewrite E; reflexivity.
Qed.

Lemma positions_ok (e : Embedding.t) (T : nat) :
  T <= Embedding.num_embeddings e ->
  exists p, Embedding.forward1 e (arange T) = Ok p /\
            rows p = T /\ cols p = Embedding.embedding_dim e /\
            forall t k, at2 p t k = Embedding.weight e t k.
Proof.
  intros H; unfold Embedding.forward1.
  replace (forallb _ _) with true.
  - eexists; split; [reflexivity|]; simpl; repeat split.
    intros t k; rewrite Nat2Z.id; reflexivity.
  - symmetry; apply forallb_seq; intros t Ht; simpl in *.
    apply in_range_spec; lia.
Qed.

Lemma positions_inv (e : Embedding.t) (T : nat) (p : Tensor2 R) :
  Embedding.forward1 e (arange T) = Ok p ->
  T <= Embedding.num_embeddings e /\
  rows p = T /\ cols p = Embedding.embedding_dim e /\
  forall t k, at2 p t k = Embedding.weight e t k.
Proof.
  unfold Embedding.forward1.
  destruct (forallb _ _) eqn:E; [|discriminate].
  intros H; injection H as <-; simpl; repeat split.
  - destruct T as [|T]; [lia|].
    rewrite forallb_seq in E; specialize (E T).
    simpl in E; apply in_range_spec in E; lia.
  - intros t k; rewrite Nat2Z.id; reflexivity.
Qed.

Lemma positions_bad (e : Embedding.t) (T : nat) :
  Embedding.num_embeddings e < T ->
  Embedding.forward1 e (arange T) = Raise (Embedding.out_of_range e).
Proof.
  intros H.
  destruct (Embedding.forward1 e (arange T)) as [p|err] eqn:E.
  - apply positions_inv in E as (E & _); lia.
  - unfold Embedding.forward1 in E; destruct (forallb _ _); congruence.
Qed.

(** ** Constructors *)

Lemma head_init_wf (theta : Params) (d hs : nat) :
  head_wf d hs (SingleHeadAttention.init theta d hs).
Proof. repeat split. Qed.

Lemma MHSA_init_ok (theta : Params) (d nh : nat) :
  exists m, MultiHeadedSelfAttention.init theta d nh = Ok m /\ mhsa_wf d nh m.
Proof.
  unfold MultiHeadedSelfAttention.init.
  rewrite (mapM_map _ (fun k => SingleHeadAttention.init (sub (sub theta 0) k)
                                  d (d / nh))).
  - simpl; eexists; split; [reflexivity|]; unfold mhsa_wf; simpl.
    rewrite length_map, length_seq; repeat split.
    apply List.Forall_forall; intros h Hh; apply in_map_iff in Hh as (k & <- & _).
    apply head_init_wf.
  - intros k Hk; apply in_seq in Hk; unfold floordiv.
    destruct (nh =? 0) eqn:E; [apply Nat.eqb_eq in E; lia|reflexivity].
Qed.

Lemma TransformerBlock_init_ok (theta : Params) (d nh : nat) :
  exists blk, TransformerBlock.init theta d nh = Ok blk /\ block_wf d nh blk.
Proof.
  unfold TransformerBlock.init.
  destruct (MHSA_init_ok (sub theta 0) d nh) as (m & -> & Hm); simpl.
  eexists; split; [reflexivity|]; repeat split; simpl; exact Hm || apply Hm.
Qed.

Lemma blocks_init_ok (theta : Params) (d nh : nat) (ks : list nat) :
  exists blocks,
    mapM (fun k => TransformerBlock.init (sub theta k) d nh) ks = Ok blocks /\
    length blocks = length ks /\ Forall (block_wf d nh) blocks.
Proof.
  induction ks as [|k ks (blocks & Hb & Hl & Hwf)].
  - exists []; repeat split; constructor.
  - destruct (TransformerBlock_init_ok (sub theta k) d nh) as (blk & Hblk & Hw).
    exists (blk :: blocks); simpl; rewrite Hblk; simpl; rewrite Hb; simpl.
    repeat split; [congruence|constructor; assumption].
Qed.

Lemma GPT_init_ok (theta : Params) (V C d nb nh : nat) :
  exists m, GPT.init theta V C d nb nh = Ok m /\ gpt_wf V C d nb nh m.
Proof.
  unfold GPT.init.
  destruct (blocks_init_ok (sub theta 2) d nh (seq 0 nb)) as (blocks & -> & Hl & Hwf).
  simpl; eexists; split; [reflexivity|].
  rewrite length_seq in Hl; unfold gpt_wf; simpl; repeat split; assumption.
Qed.

(** ** GPT.forward *)

Lemma GPT_forward_shape (V C d nb nh : nat) (training : bool)
      (rng : nat -> nat -> Mask) (m : GPT.t) (context : Tensor2 Z) :
  gpt_wf V C d nb nh m -> divisible d nh -> valid_context V C context ->
  exists logits, GPT.forward training rng m context = Ok logits /\
                 shape3 logits = (rows context, cols context, V).
Proof.
  intros (TV & TD & PC & PD & _ & Hblocks & L3 & (Pi & Po)) Hdiv (HT & Htok).
  unfold GPT.forward.
  destruct (Embedding_forward_ok (GPT.token_embedding m) context)
    as (te & -> & Ste & _); [rewrite TV; exact Htok|].
  destruct (positions_ok (GPT.pos_embedding m) (cols context))
    as (pe & -> & Pr & Pc & _); [rewrite PC; exact HT|].
  simpl bind.
  unfold shape3 in Ste; injection Ste as E0 E1 E2.
  unfold add_broadcast; rewrite E1, E2, Pr, Pc, TD, PD, !Nat.eqb_refl; simpl.
  match goal with |- context [sequential _ _ _ _ ?x] => set (emb := x) end.
  destruct (sequential_shape d nh training rng _ Hblocks Hdiv 0 emb)
    as (out & -> & Sout); [subst emb; simpl; congruence|].
  simpl bind.
  apply shape3_inv in Sout as (O0 & O1 & O2); subst emb; simpl in O0, O1, O2.
  destruct (LayerNorm_forward_ok (GPT.layer_norm_three m) out)
    as (n & -> & Sn); [congruence|].
  simpl bind.
  apply shape3_inv in Sn as (N0 & N1 & N2).
  destruct (Linear_forward_ok (GPT.vocab_projection m) n) as (y & Hy); [congruence|].
  exists y; split; [exact Hy|].
  apply Linear_forward_inv in Hy as (_ & Y0 & Y1 & Y2 & _).
  unfold shape3; congruence.
Qed.

Lemma GPT_forward_token_error (V C d nb nh : nat) (training : bool)
      (rng : nat -> nat -> Mask) (m : GPT.t) (context : Tensor2 Z) (b t : nat) :
  gpt_wf V C d nb nh m ->
  b < rows context -> t < cols context ->
  ~ (0 <= at2 context b t < Z.of_nat V)%Z ->
  exists e, GPT.forward training rng m context = Raise e /\
            (e = IndexError \/ e = RuntimeError) /\
            (0 < V -> 0 < d -> e = IndexError).
Proof.
  intros (TV & TD & _) Hb Ht Hbad; unfold GPT.forward.
  rewrite (Embedding_forward_bad _ context b t); [| | |rewrite TV]; try assumption.
  eexists; split; [reflexivity|]; split; [apply out_of_range_cases|].
  intros HV Hd; apply out_of_range_nonempty; lia.
Qed.

Lemma GPT_forward_length_error (V C d nb nh : nat) (training : bool)
      (rng : nat -> nat -> Mask) (m : GPT.t) (context : Tensor2 Z) :
  gpt_wf V C d nb nh m -> C < cols context ->
  exists e, GPT.forward training rng m context = Raise e /\
            (e = IndexError \/ e = RuntimeError) /\
            (0 < V -> 0 < C -> 0 < d -> e = IndexError).
Proof.
  intros (TV & TD & PC & PD & _) HT; unfold GPT.forward.
  destruct (Embedding.forward (GPT.token_embedding m) context) as [te|err] eqn:E.
  - simpl; rewrite positions_bad; [|rewrite PC; exact HT].
    eexists; split; [reflexivity|]; split; [apply out_of_range_cases|].
    intros HV HC Hd; apply out_of_range_nonempty; lia.
  - apply Embedding_forward_raises in E; subst err.
    eexists; split; [reflexivity|]; split; [apply out_of_range_cases|].
    intros HV HC Hd; apply out_of_range_nonempty; lia.
Qed.

Lemma GPT_forward_heads_error (V C d nb nh : nat) (training : bool)
      (rng : nat -> nat -> Mask) (m : GPT.t) (context : Tensor2 Z) :
  gpt_wf V C d nb nh m -> 0 < nb -> 0 < nh -> d mod nh <> 0 ->
  valid_context V C context ->
  GPT.forward training rng m context = Raise RuntimeError.
Proof.
  intros (TV & TD & PC & PD & Hlen & Hblocks & _) Hnb Hnh Hmod (HT & Htok).
  unfold GPT.forward.
  destruct (Embedding_forward_ok (GPT.token_embedding m) context)
    as (te & -> & Ste & _); [rewrite TV; exact Htok|].
  destruct (positions_ok (GPT.pos_embedding m) (cols context))
    as (pe & -> & Pr & Pc & _); [rewrite PC; exact HT|].
  simpl bind.
  unfold shape3 in Ste; injection Ste as E0 E1 E2.
  unfold add_broadcast; rewrite E1, E2, Pr, Pc, TD, PD, !Nat.eqb_refl; simpl.
  rewrite (sequential_bad d nh); [reflexivity| | | | |]; try assumption.
  - intros E; rewrite E in Hlen; simpl in Hlen; lia.
  - simpl; congruence.
Qed.

Lemma GPT_forward_agree (training : bool) (rng : nat -> nat -> Mask) (m : GPT.t)
      (i : nat) (c1 c2 : Tensor2 Z) (l1 l2 : Tensor3 R) :
  agree_tokens i c1 c2 ->
  GPT.forward training rng m c1 = Ok l1 ->
  GPT.forward training rng m c2 = Ok l2 ->
  agree i l1 l2.
Proof.
  intros (R0 & Hi1 & Hi2 & Htok) H1 H2; unfold GPT.forward in H1, H2.
  apply bind_Ok in H1 as (te1 & Hte1 & H1), H2 as (te2 & Hte2 & H2).
  apply bind_Ok in H1 as (pe1 & Hpe1 & H1), H2 as (pe2 & Hpe2 & H2).
  apply bind_Ok in H1 as (e1 & He1 & H1), H2 as (e2 & He2 & H2).
  apply bind_Ok in H1 as (o1 & Ho1 & H1), H2 as (o2 & Ho2 & H2).
  apply bind_Ok in H1 as (n1 & Hn1 & H1), H2 as (n2 & Hn2 & H2).
  apply Embedding_forward_inv in Hte1 as (_ & S1 & T1), Hte2 as (_ & S2 & T2).
  apply positions_inv in Hpe1 as (_ & _ & _ & P1), Hpe2 as (_ & _ & _ & P2).
  unfold shape3 in S1, S2; injection S1 as A0 A1 A2; injection S2 as B0 B1 B2.
  assert (Ae : agree i e1 e2).
  { unfold add_broadcast in He1, He2.
    destruct (_ && _) in He1; [|discriminate].
    destruct (_ && _) in He2; [|discriminate].
    injection He1 as <-; injection He2 as <-.
    unfold agree; simpl; repeat split; try congruence; try lia.
    intros b t k Hb Ht Hk.
    rewrite T1, T2, P1, P2, Htok; [reflexivity| |]; lia. }
  pose proof (sequential_agree training rng i _ 0 e1 e2 o1 o2 Ae Ho1 Ho2) as Ao.
  pose proof (LayerNorm_forward_agree _ i _ _ _ _ Ao Hn1 Hn2) as An.
  destruct (Linear_forward_agree _ i n1 n2 l1 An H1) as (l2' & Hl2' & A).
  rewrite H2 in Hl2'; injection Hl2' as <-; exact A.
Qed.

Lemma sequential_eval (training : bool) (rng1 rng2 : nat -> nat -> Mask) (k1 k2 : nat)
      (blocks : list TransformerBlock.t) (x : Tensor3 R) :
  training = false ->
  sequential training rng1 k1 blocks x = sequential training rng2 k2 blocks x.
Proof.
  intros ->; revert k1 k2 x; induction blocks as [|blk blocks IH]; intros k1 k2 x.
  - reflexivity.
  - simpl.
    change (TransformerBlock.forward false (rng1 k1) blk x)
      with (TransformerBlock.forward false (rng2 k2) blk x).
    destruct (TransformerBlock.forward false (rng2 k2) blk x); simpl; [|reflexivity].
    apply IH.
Qed.

(** ** generate *)

Lemma slice_last_cols (c : Tensor2 Z) (L : Z) :
  (0 < L)%Z ->
  Z.of_nat (cols (slice_last c L)) = Z.min (Z.of_nat (cols c)) L.
Proof. intros H; unfold slice_last; simpl; destruct (- L <? 0)%Z eqn:E; lia. Qed.

Lemma slice_last_rows (c : Tensor2 Z) (L : Z) :
  rows (slice_last c L) = rows c.
Proof. reflexivity. Qed.

Lemma slice_last_suffix (c : Tensor2 Z) (L : Z) :
  (0 < L)%Z ->
  forall b t, t < cols (slice_last c L) ->
    at2 (slice_last c L) b t = at2 c b (cols c - cols (slice_last c L) + t).
Proof.
  intros HL.
  pose proof (slice_last_cols c L HL) as Hc; revert Hc.
  unfold slice_last; simpl; intros Hc b t Ht.
  f_equal; destruct (- L <? 0)%Z eqn:E;
    [apply Z.ltb_lt in E|apply Z.ltb_ge in E]; lia.
Qed.

Lemma slice_last_single_row (tok : Z -> Prop) (c : Tensor2 Z) (L : Z) :
  (0 < L)%Z -> single_row tok c -> single_row tok (slice_last c L).
Proof.
  intros HL (Hr & Hc & Htok).
  pose proof (slice_last_cols c L HL) as Hcols.
  repeat split; [exact Hr|lia|].
  intros t Ht; unfold slice_last in *; simpl in *.
  apply Htok; destruct (- L <? 0)%Z; lia.
Qed.

Lemma calls_app (e1 e2 : list event) : calls (e1 ++ e2) = calls e1 ++ calls e2.
Proof.
  induction e1 as [|[r p|nc] e1 IH]; simpl; [reflexivity| |exact IH].
  rewrite IH; reflexivity.
Qed.

Lemma sampled_app (e1 e2 : list event) :
  sampled (e1 ++ e2) = sampled e1 ++ sampled e2.
Proof.
  induction e1 as [|[r p|nc] e1 IH]; simpl; [reflexivity|exact IH|].
  rewrite IH; reflexivity.
Qed.

Section GenerateFacts.

Variable model : Tensor2 Z -> result (Tensor3 R).
Variable draw : Sampler.
Variable context_length : Z.
Variable int_to_char : gmap Z pystr.

Lemma predict_inv (i : nat) (c next_char : Tensor2 Z) :
  predict model draw i c = Ok next_char ->
  exists p, model c = Ok p /\ rows next_char = dim0 p /\ cols next_char = 1 /\
            1 <= dim1 p /\ 1 <= dim2 p /\
            exists probabilities, forall b, at2 next_char b 0 = draw i probabilities b.
Proof.
  unfold predict; intros H.
  apply bind_Ok in H as (p & Hp & H).
  apply bind_Ok in H as (l & Hl & H).
  unfold select_last in Hl; destruct (dim1 p =? 0) eqn:E1; [discriminate|].
  injection Hl as <-; unfold multinomial in H; simpl in H.
  destruct (dim2 p =? 0) eqn:E2; [discriminate|].
  injection H as <-; simpl.
  apply Nat.eqb_neq in E1, E2.
  exists p; repeat split; try lia; [exact Hp|].
  eexists; intros b; reflexivity.
Qed.

Lemma predict_ok (tok : Z -> Prop) (i : nat) (c : Tensor2 Z) :
  model_accepts model tok context_length ->
  single_row tok c -> (Z.of_nat (cols c) <= context_length)%Z ->
  exists next_char probabilities,
    predict model draw i c = Ok next_char /\
    rows next_char = 1 /\ cols next_char = 1 /\
    at2 next_char 0 0 = draw i probabilities 0.
Proof.
  intros Hm Hc Hlen.
  destruct (Hm c Hc Hlen) as (p & Hp & P0 & P1 & P2).
  unfold predict; rewrite Hp; simpl.
  unfold select_last.
  destruct (dim1 p =? 0) eqn:E1; [apply Nat.eqb_eq in E1; lia|]; simpl.
  unfold multinomial; simpl.
  destruct (dim2 p =? 0) eqn:E2; [apply Nat.eqb_eq in E2; lia|].
  do 2 eexists; split; [reflexivity|]; simpl; repeat split; exact P0.
Qed.

(** One iteration, when nothing raises. *)
Lemma iteration_ok (tok : Z -> Prop) (P : pystr -> Prop) (i : nat) (c : Tensor2 Z) :
  (0 < context_length)%Z ->
  model_accepts model tok context_length ->
  draws_ok draw tok int_to_char P i 1 ->
  single_row tok c ->
  exists next_char c' s,
    iteration model draw context_length int_to_char i c
    = ([ModelCall c (slice_last c context_length); Sampled next_char], Ok (c', s)) /\
    rows next_char = 1 /\ cols next_char = 1 /\
    int_to_char !! (at2 next_char 0 0) = Some s /\ P s /\
    single_row tok c'.
Proof.
  intros HL Hm Hd Hc.
  pose proof (slice_last_single_row tok c context_length HL Hc) as Hv.
  pose proof (slice_last_cols c context_length HL) as Hcols.
  unfold iteration.
  remember (slice_last c context_length) as view eqn:Hview.
  destruct (predict_ok tok i view Hm Hv)
    as (nc & probs & Hnc & N0 & N1 & Nat0); [lia|].
  destruct (Hd i probs) as (Htok & s & Hs & HP); [lia|lia|].
  rewrite Hnc.
  unfold update, cat_tokens, item, getitem.
  destruct Hv as (V0 & V1 & Vtok).
  rewrite V0, N0, N1; simpl.
  rewrite Nat0, Hs; simpl.
  do 3 eexists; split; [reflexivity|].
  rewrite Nat0; repeat split; try assumption; simpl; try lia.
  intros t Ht.
  destruct (t <? cols view) eqn:E.
  - apply Nat.ltb_lt in E; apply Vtok; exact E.
  - apply Nat.ltb_ge in E.
    replace (t - cols view) with 0 by lia.
    rewrite Nat0; exact Htok.
Qed.

(** The whole loop, when nothing raises. *)
Lemma loop_ok (tok : Z -> Prop) (P : pystr -> Prop) :
  (0 < context_length)%Z ->
  model_accepts model tok context_length ->
  forall n i c res,
    draws_ok draw tok int_to_char P i n ->
    single_row tok c ->
    exists evs c' res',
      loop model draw context_length int_to_char n i c res
      = (evs, Ok (c', res ++ res')) /\
      length (calls evs) = n /\
      length res' = n /\ Forall P res' /\
      Forall (fun nc => rows nc = 1 /\ cols nc = 1) (sampled evs) /\
      map (fun nc => int_to_char !! (at2 nc 0 0)) (sampled evs) = map Some res'.
Proof.
  intros HL Hm; induction n as [|n IH]; intros i c res Hd Hc.
  - exists [], c, []; simpl; rewrite app_nil_r; repeat split; constructor.
  - destruct (iteration_ok tok P i c HL Hm) as (nc & c1 & s & Hit & N0 & N1 & Hs & HP & Hc1);
      [intros j p ? ?; apply Hd; lia|exact Hc|].
    destruct (IH (S i) c1 (res ++ [s])) as (evs & c' & res' & Hl & Lc & Lr & FP & FS & Hmap);
      [intros j p ? ?; apply Hd; lia|exact Hc1|].
    simpl loop; rewrite Hit, Hl.
    do 3 eexists; split; [rewrite <- app_assoc; reflexivity|].
    simpl; repeat split; try congruence; try (constructor; auto).
Qed.

(** The events of a run are kept when it raises, so facts about the model
    calls hold for every run. *)
Lemma iteration_calls (i : nat) (c : Tensor2 Z) :
  calls (fst (iteration model draw context_length int_to_char i c))
  = [(c, slice_last c context_length)].
Proof.
  unfold iteration; destruct (predict model draw i _); reflexivity.
Qed.

Lemma iteration_next (i : nat) (c c' : Tensor2 Z) (s : pystr) :
  snd (iteration model draw context_length int_to_char i c) = Ok (c', s) ->
  rows c = 1 /\ cols c' = cols (slice_last c context_length) + 1.
Proof.
  unfold iteration.
  destruct (predict model draw i _) as [nc|e] eqn:Hp; simpl; [|discriminate].
  apply predict_inv in Hp as (p & _ & N0 & N1 & _).
  unfold update; intros H.
  apply bind_Ok in H as (c1 & Hc1 & H).
  apply bind_Ok in H as (k & Hk & H).
  apply bind_Ok in H as (s' & _ & H).
  injection H as <- <-.
  unfold cat_tokens in Hc1.
  destruct (rows (slice_last c context_length) =? rows nc) eqn:E; [|discriminate].
  injection Hc1 as <-; simpl.
  unfold item in Hk; destruct (rows nc * cols nc =? 1) eqn:E1; [|discriminate].
  apply Nat.eqb_eq in E, E1; simpl in E; split; lia.
Qed.

Lemma loop_calls_windows :
  (0 < context_length)%Z ->
  forall n i c res k running passed,
    nth_error (calls (fst (loop model draw context_length int_to_char n i c res))) k
    = Some (running, passed) ->
    Z.of_nat (cols passed) = Z.min (Z.of_nat (cols running)) context_length /\
    Z.of_nat (cols passed) = Z.min (Z.of_nat (cols c) + Z.of_nat k) context_length.
Proof.
  intros HL; induction n as [|n IH]; intros i c res k running passed H.
  - destruct k; discriminate.
  - simpl loop in H.
    pose proof (iteration_calls i c) as Hcalls.
    pose proof (iteration_next i c) as Hnext.
    destruct (iteration model draw context_length int_to_char i c) as [evs [[c1 s]|e]].
    + specialize (Hnext c1 s eq_refl) as (_ & Hc1).
      pose proof (slice_last_cols c context_length HL) as Hs.
      specialize (IH (S i) c1 (res ++ [s])).
      destruct (loop model draw context_length int_to_char n (S i) c1 (res ++ [s]))
        as [evs' out].
      simpl in H, Hcalls, IH; rewrite calls_app, Hcalls in H.
      destruct k as [|k]; simpl in H.
      * injection H as <- <-; lia.
      * apply IH in H as (H1 & H2); split; [exact H1|lia].
    + simpl in H, Hcalls; rewrite Hcalls in H.
      pose proof (slice_last_cols c context_length HL) as Hs.
      destruct k as [|k]; simpl in H; [|destruct k; discriminate].
      injection H as <- <-; lia.
Qed.

Lemma loop_final_length :
  (0 < context_length)%Z ->
  forall n i c res evs c' res',
    loop model draw context_length int_to_char n i c res = (evs, Ok (c', res')) ->
    Z.of_nat (cols c')
    = (if n =? 0 then Z.of_nat (cols c)
       else Z.min (Z.of_nat (cols c) + Z.of_nat n) (context_length + 1))
    /\ length res' = length res + n.
Proof.
  intros HL; induction n as [|n IH]; intros i c res evs c' res' H.
  - simpl in H; injection H as <- <- <-; simpl; split; [reflexivity|lia].
  - simpl loop in H.
    pose proof (iteration_next i c) as Hnext.
    destruct (iteration model draw context_length int_to_char i c) as [ev [[c1 s]|e]];
      [|discriminate].
    specialize (Hnext c1 s eq_refl) as (_ & Hc1).
    pose proof (slice_last_cols c context_length HL) as Hs.
    specialize (IH (S i) c1 (res ++ [s])).
    destruct (loop model draw context_length int_to_char n (S i) c1 (res ++ [s]))
      as [evs' out].
    injection H as <- ->.
    specialize (IH evs' c' res' eq_refl) as (IH1 & IH2).
    rewrite length_app in IH2; simpl in IH2.
    split; [|lia].
    rewrite IH1; simpl (S n =? 0).
    destruct (n =? 0) eqn:E; [apply Nat.eqb_eq in E|apply Nat.eqb_neq in E]; lia.
Qed.

(** With more than one row (or none) the first iteration raises, whatever
    the model returns. *)
Lemma iteration_rows (i : nat) (c : Tensor2 Z) :
  rows c <> 1 ->
  exists e, snd (iteration model draw context_length int_to_char i c) = Raise e.
Proof.
  intros Hr.
  destruct (snd (iteration model draw context_length int_to_char i c))
    as [[c' s]|e] eqn:E.
  - apply iteration_next in E as (E & _); contradiction.
  - exists e; reflexivity.
Qed.

Lemma generate_rows (n : nat) (c : Tensor2 Z) :
  rows c <> 1 -> 0 < n ->
  exists e, generate model draw context_length int_to_char n c = Raise e.
Proof.
  intros Hr Hn; destruct n as [|n]; [lia|].
  destruct (iteration_rows 0 c Hr) as (e & He).
  unfold generate; simpl loop.
  destruct (iteration model draw context_length int_to_char 0 c) as [evs r].
  simpl in He; subst r; exists e; reflexivity.
Qed.

End GenerateFacts.

(** ** What the model is applied to

    The events of a run name the tensor of each model call; the lemmas
    here tie them to the model itself: the run fails where the model
    fails on that tensor, and the run is the same for any model with the
    same answers on the tensors of those lengths. *)
Section GenerateWindows.

Variable model : Tensor2 Z -> result (Tensor3 R).
Variable draw : Sampler.
Variable context_length : Z.
Variable int_to_char : gmap Z pystr.

Lemma iteration_ext (model' : Tensor2 Z -> result (Tensor3 R)) (i : nat)
      (c : Tensor2 Z) :
  model' (slice_last c context_length) = model (slice_last c context_length) ->
  iteration model' draw context_length int_to_char i c
  = iteration model draw context_length int_to_char i c.
Proof. intros H; unfold iteration, predict; rewrite H; reflexivity. Qed.

Lemma iteration_raise (i : nat) (c : Tensor2 Z) (e : exn) :
  model (slice_last c context_length) = Raise e ->
  iteration model draw context_length int_to_char i c
  = ([ModelCall c (slice_last c context_length)], Raise e).
Proof. intros H; unfold iteration, predict; rewrite H; reflexivity. Qed.

Lemma iteration_keeps_rows (i : nat) (c c' : Tensor2 Z) (s : pystr) :
  snd (iteration model draw context_length int_to_char i c) = Ok (c', s) ->
  rows c' = rows c.
Proof.
  unfold iteration.
  destruct (predict model draw i _) as [nc|e]; simpl; [|discriminate].
  unfold update; intros H.
  apply bind_Ok in H as (c1 & Hc1 & H).
  apply bind_Ok in H as (k & _ & H).
  apply bind_Ok in H as (s' & _ & H).
  injection H as <- <-.
  unfold cat_tokens in Hc1.
  destruct (rows (slice_last c context_length) =? rows nc); [|discriminate].
  injection Hc1 as <-; reflexivity.
Qed.

(** A model call of the run is a call: if the model raises on the tensor
    of the k-th call, the run raises that exception and has made k + 1
    calls. *)
Lemma loop_call_raises :
  forall n i c res k running passed,
    nth_error (calls (fst (loop model draw context_length int_to_char n i c res))) k
    = Some (running, passed) ->
    passed = slice_last running context_length /\
    forall e, model passed = Raise e ->
      snd (loop model draw context_length int_to_char n i c res) = Raise e /\
      length (calls (fst (loop model draw context_length int_to_char n i c res)))
      = S k.
Proof.
  induction n as [|n IH]; intros i c res k running passed H.
  - destruct k; discriminate.
  - simpl loop in H |- *.
    pose proof (iteration_calls model draw context_length int_to_char i c) as Hcalls.
    pose proof (iteration_raise i c) as Hraise.
    destruct (iteration model draw context_length int_to_char i c)
      as [evs [[c1 s]|e0]].
    + specialize (IH (S i) c1 (res ++ [s])).
      destruct (loop model draw context_length int_to_char n (S i) c1 (res ++ [s]))
        as [evs' out].
      simpl in H, Hcalls, IH |- *; rewrite calls_app, Hcalls in H |- *.
      destruct k as [|k]; simpl in H.
      * injection H as <- <-; split; [reflexivity|].
        intros e He; specialize (Hraise e He); discriminate.
      * apply IH in H as (H1 & H2); split; [exact H1|].
        intros e He; destruct (H2 e He) as (H3 & H4).
        split; [exact H3|simpl; rewrite H4; reflexivity].
    + simpl in H, Hcalls |- *; rewrite Hcalls in H |- *.
      destruct k as [|k]; simpl in H; [|destruct k; discriminate].
      injection H as <- <-; split; [reflexivity|].
      intros e He; specialize (Hraise e He).
      injection Hraise as _ ->; split; reflexivity.
Qed.

Lemma loop_one_calls (i : nat) (c : Tensor2 Z) (res : list pystr) :
  calls (fst (loop model draw context_length int_to_char 1 i c res))
  = [(c, slice_last c context_length)].
Proof.
  simpl loop.
  pose proof (iteration_calls model draw context_length int_to_char i c) as H.
  destruct (iteration model draw context_length int_to_char i c)
    as [evs [[c1 s]|e]]; simpl in H |- *; [|exact H].
  rewrite calls_app, H; reflexivity.
Qed.

(** The run depends on the model through its answers on tensors of
    min(T + k, context_length) tokens only, k counting the iterations. *)
Lemma loop_ext (model' : Tensor2 Z -> result (Tensor3 R)) :
  (0 < context_length)%Z ->
  forall n i c res,
    (forall x k, k < n -> rows x = rows c ->
       Z.of_nat (cols x) = Z.min (Z.of_nat (cols c) + Z.of_nat k) context_length ->
       model' x = model x) ->
    loop model' draw context_length int_to_char n i c res
    = loop model draw context_length int_to_char n i c res.
Proof.
  intros HL; induction n as [|n IH]; intros i c res H; [reflexivity|].
  simpl loop.
  pose proof (slice_last_cols c context_length HL) as Hs.
  rewrite iteration_ext
    by (apply (H _ 0); [lia|apply slice_last_rows|rewrite Hs; f_equal; lia]).
  pose proof (iteration_next model draw context_length int_to_char i c) as Hnext.
  pose proof (iteration_keeps_rows i c) as Hrows.
  destruct (iteration model draw context_length int_to_char i c)
    as [evs [[c1 s]|e]]; [|reflexivity].
  specialize (Hnext c1 s eq_refl) as (_ & Hc1).
  specialize (Hrows c1 s eq_refl).
  rewrite IH; [reflexivity|].
  intros x k Hk Hr Hc; apply (H x (S k)); [lia|congruence|lia].
Qed.

End GenerateWindows.

Lemma map_Some_length {A B : Type} (f : A -> option B) (l : list A) (r : list B) :
  map f l = map Some r -> length l = length r.
Proof.
  intros H; apply (f_equal (@length (option B))) in H.
  rewrite !length_map in H; exact H.
Qed.

Lemma concat_singletons (l : list pystr) :
  Forall (fun s => length s = 1) l -> length (concat l) = length l.
Proof.
  induction 1 as [|s l Hs _ IH]; simpl; [reflexivity|].
  rewrite length_app, IH, Hs; reflexivity.
Qed.

Lemma GPT_model_accepts (V C d nb nh : nat) (training : bool)
      (rng : nat -> nat -> Mask) (m : GPT.t) :
  gpt_wf V C d nb nh m -> divisible d nh -> 0 < V ->
  model_accepts (GPT.forward training rng m)
    (fun z => (0 <= z < Z.of_nat V)%Z) (Z.of_nat C).
Proof.
  intros Hwf Hdiv HV c (Hr & Hc & Htok) Hlen.
  destruct (GPT_forward_shape V C d nb nh training rng m c Hwf Hdiv)
    as (logits & Hl & Sl).
  - split; [lia|]; intros b t Hb Ht; rewrite Hr in Hb.
    replace b with 0 by lia; apply Htok; exact Ht.
  - unfold shape3 in Sl; injection Sl as S0 S1 S2.
    exists logits; repeat split; try assumption; lia.
Qed.

Lemma model_accepts_le (model : Tensor2 Z -> result (Tensor3 R))
      (tok : Z -> Prop) (L L' : Z) :
  (L' <= L)%Z -> model_accepts model tok L -> model_accepts model tok L'.
Proof. intros HL H c Hc Hlen; apply H; [exact Hc|lia]. Qed.

Lemma context0_valid : valid_context 4 8 context0.
Proof.
  split; [simpl; lia|]; intros b t _ Ht; simpl in *; lia.
Qed.

Lemma context0'_valid : valid_context 4 8 context0'.
Proof.
  split; [simpl; lia|]; intros b t _ Ht; simpl in *.
  destruct (t =? 2); lia.
Qed.

Lemma context0_agree : agree_tokens 1 context0 context0'.
Proof.
  repeat split; simpl; try lia.
  intros b t _ Ht; destruct (t =? 2) eqn:E; [apply Nat.eqb_eq in E; lia|reflexivity].
Qed.

Lemma embedded0_agree : agree 1 embedded0 embedded0'.
Proof.
  repeat split; simpl; try lia.
  intros b t k _ Ht _; destruct (t =? 2) eqn:E; [apply Nat.eqb_eq in E; lia|reflexivity].
Qed.

Lemma divisible_8_2 : divisible 8 2.
Proof. split; [lia|reflexivity]. Qed.

Lemma context1_single_row : single_row (fun z => (0 <= z < Z.of_nat 4)%Z) context1.
Proof. repeat split; simpl; lia. Qed.

Lemma context0_single_row : single_row (fun z => (0 <= z < Z.of_nat 4)%Z) context0.
Proof.
  split; [reflexivity|split; [simpl; lia|]]; intros t Ht; simpl in *; lia.
Qed.

Lemma draw0_ok (P : pystr -> Prop) (i n : nat) :
  P [32%N] ->
  draws_ok draw0 (fun z => (0 <= z < Z.of_nat 4)%Z) int_to_char0 P i n.
Proof.
  intros HP j p _ _; split; [unfold draw0; lia|].
  exists [32%N]; split; [reflexivity|exact HP].
Qed.

(** * The claims *)

(** C1. Causality.  Two inputs that coincide on the positions 0..i give
    outputs that coincide on the positions 0..i: for the attention output
    of a [SingleHeadAttention] on two activations, and for the logits of
    [GPT.forward] on two valid contexts.  Both runs return. *)
Theorem causality (theta : Params) (V C d nb nh : nat) (training : bool)
        (rng : nat -> nat -> Mask) (i : nat) :
  0 < d -> divisible d nh ->
  (forall hs x1 x2, 0 < hs -> dim2 x1 = d -> agree i x1 x2 ->
     exists o1 o2,
       SingleHeadAttention.forward (SingleHeadAttention.init theta d hs) x1 = Ok o1 /\
       SingleHeadAttention.forward (SingleHeadAttention.init theta d hs) x2 = Ok o2 /\
       agree i o1 o2) /\
  exists m, GPT.init theta V C d nb nh = Ok m /\
    forall c1 c2,
      valid_context V C c1 -> valid_context V C c2 -> agree_tokens i c1 c2 ->
      exists l1 l2,
        GPT.forward training rng m c1 = Ok l1 /\
        GPT.forward training rng m c2 = Ok l2 /\
        agree i l1 l2.
Proof.
  intros _ Hdiv; split.
  - intros hs x1 x2 _ Hx Hag.
    destruct (SHA_forward_shape _ d hs x1 (head_init_wf theta d hs) Hx) as (o1 & Ho1 & _).
    destruct (SHA_forward_agree _ i x1 x2 o1 Hag Ho1) as (o2 & Ho2 & A).
    exists o1, o2; split; [exact Ho1|split; [exact Ho2|exact A]].
  - destruct (GPT_init_ok theta V C d nb nh) as (m & Hm & Hwf).
    exists m; split; [exact Hm|]; intros c1 c2 V1 V2 Hag.
    destruct (GPT_forward_shape V C d nb nh training rng m c1 Hwf Hdiv V1) as (l1 & Hl1 & _).
    destruct (GPT_forward_shape V C d nb nh training rng m c2 Hwf Hdiv V2) as (l2 & Hl2 & _).
    exists l1, l2; split; [exact Hl1|split; [exact Hl2|]].
    exact (GPT_forward_agree training rng m i c1 c2 l1 l2 Hag Hl1 Hl2).
Qed.

Lemma causality_witness :
  (exists o1 o2,
     SingleHeadAttention.forward (SingleHeadAttention.init theta0 8 4) embedded0 = Ok o1 /\
     SingleHeadAttention.forward (SingleHeadAttention.init theta0 8 4) embedded0' = Ok o2 /\
     agree 1 o1 o2) /\
  exists m l1 l2,
    GPT.init theta0 4 8 8 1 2 = Ok m /\
    GPT.forward false rng0 m context0 = Ok l1 /\
    GPT.forward false rng0 m context0' = Ok l2 /\
    agree 1 l1 l2.
Proof.
  destruct (causality theta0 4 8 8 1 2 false rng0 1 ltac:(lia) divisible_8_2)
    as (Hh & m & Hm & Hg).
  split.
  - exact (Hh 4 embedded0 embedded0' ltac:(lia) eq_refl embedded0_agree).
  - destruct (Hg context0 context0' context0_valid context0'_valid context0_agree)
      as (l1 & l2 & H).
    exists m, l1, l2; split; [exact Hm|exact H].
Defined.

(** C2, as the code has it.  No constructor checks
    [model_dim % num_heads]: [MultiHeadedSelfAttention] and [GPT] are built
    for every configuration, each head with
    [head_size = model_dim // num_heads].  When [num_heads] does not
    divide [model_dim], the concatenated heads are narrower than
    [model_dim] and the forward pass raises RuntimeError at the [compute]
    projection of the first block. *)
Theorem construction_unchecked (theta : Params) (V C d nb nh : nat) :
  (exists a, MultiHeadedSelfAttention.init theta d nh = Ok a /\
     Forall (head_wf d (d / nh)) (MultiHeadedSelfAttention.attention_heads a) /\
     (0 < nh -> d mod nh <> 0 ->
      forall training keep x, dim2 x = d ->
        MultiHeadedSelfAttention.forward training keep a x = Raise RuntimeError)) /\
  (exists m, GPT.init theta V C d nb nh = Ok m /\
     (0 < nb -> 0 < nh -> d mod nh <> 0 ->
      forall training rng context, valid_context V C context ->
        GPT.forward training rng m context = Raise RuntimeError)).
Proof.
  split.
  - destruct (MHSA_init_ok theta d nh) as (a & Ha & Hwf).
    exists a; split; [exact Ha|]; split; [exact (proj1 (proj2 Hwf))|].
    intros Hnh Hmod training keep x Hx.
    exact (MHSA_forward_bad d nh training keep a x Hwf Hnh Hmod Hx).
  - destruct (GPT_init_ok theta V C d nb nh) as (m & Hm & Hwf).
    exists m; split; [exact Hm|]; intros Hnb Hnh Hmod training rng context Hv.
    exact (GPT_forward_heads_error V C d nb nh training rng m context
             Hwf Hnb Hnh Hmod Hv).
Qed.

Lemma construction_unchecked_witness :
  exists m, GPT.init theta0 4 8 7 1 2 = Ok m /\
            GPT.forward false rng0 m context0 = Raise RuntimeError.
Proof.
  destruct (construction_unchecked theta0 4 8 7 1 2) as (_ & m & Hm & H).
  exists m; split; [exact Hm|].
  apply H; [lia|lia|simpl; lia|exact context0_valid].
Defined.

(** C2, as stated, fails: with model_dim = 7 and num_heads = 2 the model
    is constructed, and the error appears in the forward pass. *)
Lemma construction_accepts_7_2 :
  7 mod 2 <> 0 /\
  (exists a, MultiHeadedSelfAttention.init theta0 7 2 = Ok a) /\
  exists m, GPT.init theta0 4 8 7 1 2 = Ok m /\
            GPT.forward false rng0 m context0 = Raise RuntimeError.
Proof.
  split; [simpl; lia|]; split.
  - destruct (MHSA_init_ok theta0 7 2) as (a & Ha & _); exists a; exact Ha.
  - destruct (GPT_init_ok theta0 4 8 7 1 2) as (m & Hm & Hwf).
    exists m; split; [exact Hm|].
    apply (GPT_forward_heads_error 4 8 7 1 2); try lia;
      [exact Hwf|simpl; lia|exact context0_valid].
Qed.

(** C6. Softmax rows of the masked scores.  For every input of width
    model_dim the attention weights are computed, have shape (B, T, T),
    and in every query row i the weights of the allowed positions j <= i
    sum to 1 while the weight of every masked position j > i is 0. *)
Theorem softmax_rows (theta : Params) (d hs : nat) (x : Tensor3 R) :
  0 < hs -> dim2 x = d ->
  exists w V,
    SingleHeadAttention.weights (SingleHeadAttention.init theta d hs) x = Ok (w, V) /\
    shape3 w = (dim0 x, dim1 x, dim1 x) /\
    forall b i, b < dim0 x -> i < dim1 x ->
      sum_upto (S i) (at3 w b i) = 1%R /\
      forall j, i < j -> j < dim1 x -> at3 w b i j = 0%R.
Proof.
  intros _ Hx.
  destruct (weights_ok _ d hs x (head_init_wf theta d hs) Hx) as (w & V & Hw & _).
  exists w, V; split; [exact Hw|].
  apply weights_inv in Hw as (K & Q & _ & _ & _ & _ & Sw & Hat).
  split; [exact Sw|]; intros b i _ Hi; split.
  - rewrite (sum_upto_ext _ _ (fun j => (masked_exp Q K b i j
                 / sum_upto (dim1 x) (masked_exp Q K b i))%R))
      by (intros j _; apply Hat).
    rewrite sum_upto_div, (masked_exp_row Q K b i (dim1 x) Hi).
    pose proof (masked_exp_row_pos Q K b i) as Hpos.
    apply Rdiv_diag; lra.
  - intros j Hj _; rewrite Hat, masked_exp_future by exact Hj; lra.
Qed.

Lemma softmax_rows_witness :
  exists w V,
    SingleHeadAttention.weights (SingleHeadAttention.init theta0 8 4) embedded0
    = Ok (w, V) /\
    sum_upto 2 (at3 w 0 1) = 1%R /\ at3 w 0 1 2 = 0%R.
Proof.
  destruct (softmax_rows theta0 8 4 embedded0 ltac:(lia) eq_refl)
    as (w & V & Hw & _ & H).
  exists w, V; split; [exact Hw|].
  destruct (H 0 1) as (Hsum & Hzero); [simpl; lia|simpl; lia|].
  split; [exact Hsum|apply Hzero; simpl; lia].
Defined.

(** C7. TransformerBlock is the pre-normalisation residual composition
    x' = x + MHSA(LayerNorm_1(x)), x'' = x' + FeedForward(LayerNorm_2(x')):
    each sum takes the un-normalised value, and the output has the shape
    of the input. *)
Theorem block_prenorm_residual (theta : Params) (d nh : nat) (training : bool)
        (keeps : nat -> Mask) (x : Tensor3 R) :
  divisible d nh -> dim2 x = d ->
  exists blk n1 a x1 n2 f x2,
    TransformerBlock.init theta d nh = Ok blk /\
    LayerNorm.forward (TransformerBlock.layer_norm_one blk) x = Ok n1 /\
    MultiHeadedSelfAttention.forward training (keeps 0)
      (TransformerBlock.mhsa blk) n1 = Ok a /\
    (forall b t k, at3 x1 b t k = (at3 x b t k + at3 a b t k)%R) /\
    LayerNorm.forward (TransformerBlock.layer_norm_two blk) x1 = Ok n2 /\
    VanillaNeuralNetwork.forward training (keeps 1)
      (TransformerBlock.vanilla_nn blk) n2 = Ok f /\
    (forall b t k, at3 x2 b t k = (at3 x1 b t k + at3 f b t k)%R) /\
    TransformerBlock.forward training keeps blk x = Ok x2 /\
    shape3 x1 = shape3 x /\ shape3 x2 = shape3 x.
Proof.
  intros Hdiv Hx.
  destruct (TransformerBlock_init_ok theta d nh) as (blk & Hblk & Hwf).
  destruct (TransformerBlock_forward_steps d nh training keeps blk x Hwf Hdiv Hx)
    as (n1 & a & x1 & n2 & f & x2 & Hn1 & Ha & Hx1 & Hn2 & Hf & Hx2 & Hfw & S1 & S2).
  exists blk, n1, a, x1, n2, f, x2.
  apply add_inv in Hx1 as (_ & _ & E1), Hx2 as (_ & _ & E2).
  split; [exact Hblk|]; split; [exact Hn1|]; split; [exact Ha|].
  split; [exact E1|]; split; [exact Hn2|]; split; [exact Hf|].
  split; [exact E2|]; split; [exact Hfw|]; split; [exact S1|exact S2].
Qed.

Lemma block_prenorm_residual_witness :
  exists blk y,
    TransformerBlock.init theta0 8 2 = Ok blk /\
    TransformerBlock.forward false (rng0 0) blk embedded0 = Ok y /\
    shape3 y = (1, 3, 8).
Proof.
  destruct (block_prenorm_residual theta0 8 2 false (rng0 0) embedded0
              divisible_8_2 eq_refl)
    as (blk & _ & _ & _ & _ & _ & y & Hblk & _ & _ & _ & _ & _ & _ & Hy & _ & Sy).
  exists blk, y; split; [exact Hblk|split; [exact Hy|exact Sy]].
Defined.

(** C8. GPT.forward raises when the context is longer than context_length
    or holds an index outside [0, vocab_size).  The exception comes from
    an embedding lookup: it is an IndexError when vocab_size,
    context_length and model_dim are positive, and an IndexError or a
    RuntimeError in general (a table without elements raises the
    latter).  On a valid context of shape (B, T) it returns logits of
    shape (B, T, vocab_size). *)
Theorem GPT_forward_contract (theta : Params) (V C d nb nh : nat)
        (training : bool) (rng : nat -> nat -> Mask) (context : Tensor2 Z) :
  exists m, GPT.init theta V C d nb nh = Ok m /\
    (C < cols context ->
     exists e, GPT.forward training rng m context = Raise e /\
               (e = IndexError \/ e = RuntimeError) /\
               (0 < V -> 0 < C -> 0 < d -> e = IndexError)) /\
    ((exists b t, b < rows context /\ t < cols context /\
                  ~ (0 <= at2 context b t < Z.of_nat V)%Z) ->
     exists e, GPT.forward training rng m context = Raise e /\
               (e = IndexError \/ e = RuntimeError) /\
               (0 < V -> 0 < d -> e = IndexError)) /\
    (divisible d nh -> valid_context V C context ->
     exists logits, GPT.forward training rng m context = Ok logits /\
                    shape3 logits = (rows context, cols context, V)).
Proof.
  destruct (GPT_init_ok theta V C d nb nh) as (m & Hm & Hwf).
  exists m; split; [exact Hm|]; split; [|split].
  - intros HT; exact (GPT_forward_length_error V C d nb nh training rng m context Hwf HT).
  - intros (b & t & Hb & Ht & Hbad).
    exact (GPT_forward_token_error V C d nb nh training rng m context b t Hwf Hb Ht Hbad).
  - intros Hdiv Hv.
    exact (GPT_forward_shape V C d nb nh training rng m context Hwf Hdiv Hv).
Qed.

Lemma GPT_forward_contract_witness :
  (exists m logits,
     GPT.init theta0 4 8 8 1 2 = Ok m /\
     GPT.forward false rng0 m context0 = Ok logits /\
     shape3 logits = (1, 3, 4)) /\
  (exists m, GPT.init theta0 4 8 8 1 2 = Ok m /\
             GPT.forward false rng0 m context_long = Raise IndexError) /\
  (exists m, GPT.init theta0 4 8 8 1 2 = Ok m /\
             GPT.forward false rng0 m context_bad = Raise IndexError).
Proof.
  split; [|split].
  - destruct (GPT_forward_contract theta0 4 8 8 1 2 false rng0 context0)
      as (m & Hm & _ & _ & H).
    destruct (H divisible_8_2 context0_valid) as (logits & Hl & Sl).
    exists m, logits; split; [exact Hm|split; [exact Hl|exact Sl]].
  - destruct (GPT_forward_contract theta0 4 8 8 1 2 false rng0 context_long)
      as (m & Hm & H & _).
    exists m; split; [exact Hm|].
    destruct H as (e & He & _ & Hcls); [simpl; lia|].
    rewrite He, Hcls; [reflexivity| | |]; lia.
  - destruct (GPT_forward_contract theta0 4 8 8 1 2 false rng0 context_bad)
      as (m & Hm & _ & H & _).
    exists m; split; [exact Hm|].
    destruct H as (e & He & _ & Hcls);
      [exists 0, 2; simpl; split; [lia|split; lia]|].
    rewrite He, Hcls; [reflexivity| |]; lia.
Defined.

(** C9. Determinism of the forward pass.  In inference mode the logits are
    a function of the parameters and of the context alone: whatever the
    random draws available to the dropout layers, two calls give the same
    result. *)
Theorem forward_deterministic (m : GPT.t) (context : Tensor2 Z)
        (rng1 rng2 : nat -> nat -> Mask) :
  GPT.forward false rng1 m context = GPT.forward false rng2 m context.
Proof.
  unfold GPT.forward.
  destruct (Embedding.forward _ _); [simpl|reflexivity].
  destruct (Embedding.forward1 _ _); [simpl|reflexivity].
  destruct (add_broadcast _ _); [simpl|reflexivity].
  rewrite (sequential_eval false rng1 rng2 0 0); reflexivity.
Qed.

(** C3, as the code has it.  [generate] is written for one sequence:
    [next_char.item()] accepts a tensor of one element only.  For a
    context of one row it draws one index in each of its new_chars
    iterations and keeps the character of each drawn index, in order; for
    any other number of rows it raises in the first iteration. *)
Theorem generate_single_row (model : Tensor2 Z -> result (Tensor3 R))
        (draw : Sampler) (context_length : Z) (int_to_char : gmap Z pystr)
        (tok : Z -> Prop) (new_chars : nat) (context : Tensor2 Z) :
  (rows context = 1 ->
   (0 < context_length)%Z ->
   model_accepts model tok context_length ->
   draws_ok draw tok int_to_char (fun _ => True) 0 new_chars ->
   single_row tok context ->
   exists evs c' res,
     loop model draw context_length int_to_char new_chars 0 context []
     = (evs, Ok (c', res)) /\
     length (sampled evs) = new_chars /\
     Forall (fun nc => rows nc = 1 /\ cols nc = 1) (sampled evs) /\
     map (fun nc => int_to_char !! (at2 nc 0 0)) (sampled evs) = map Some res /\
     generate model draw context_length int_to_char new_chars context
     = Ok (concat res)) /\
  (rows context <> 1 -> 0 < new_chars ->
   exists e, generate model draw context_length int_to_char new_chars context
             = Raise e).
Proof.
  split.
  - intros _ HL Hm Hd Hc.
    destruct (loop_ok model draw context_length int_to_char tok (fun _ => True)
                HL Hm new_chars 0 context [] Hd Hc)
      as (evs & c' & res & Hl & _ & Lr & _ & FS & Hmap).
    simpl in Hl.
    exists evs, c', res; split; [exact Hl|].
    split; [|split; [exact FS|split; [exact Hmap|]]].
    + exact (eq_trans (map_Some_length _ _ _ Hmap) Lr).
    + unfold generate; rewrite Hl; reflexivity.
  - intros Hr Hn.
    exact (generate_rows model draw context_length int_to_char new_chars context Hr Hn).
Qed.

Lemma generate_single_row_witness :
  exists m res e,
    GPT.init theta0 4 8 8 1 2 = Ok m /\
    length res = 2 /\
    generate (GPT.forward false rng0 m) draw0 8 int_to_char0 2 context0
    = Ok (concat res) /\
    generate (GPT.forward false rng0 m) draw0 8 int_to_char0 2 context2
    = Raise e.
Proof.
  destruct (GPT_init_ok theta0 4 8 8 1 2) as (m & Hm & Hwf).
  destruct (generate_single_row (GPT.forward false rng0 m) draw0 8 int_to_char0
              (fun z => (0 <= z < Z.of_nat 4)%Z) 2 context0) as (H & _).
  destruct (H eq_refl ltac:(lia)
              (GPT_model_accepts 4 8 8 1 2 false rng0 m Hwf divisible_8_2 ltac:(lia))
              (draw0_ok _ 0 2 I) context0_single_row)
    as (evs & c' & res & _ & Ls & _ & Hmap & Hg).
  destruct (generate_single_row (GPT.forward false rng0 m) draw0 8 int_to_char0
              (fun z => (0 <= z < Z.of_nat 4)%Z) 2 context2) as (_ & H2).
  destruct (H2 ltac:(simpl; lia) ltac:(lia)) as (e & He).
  exists m, res, e; split; [exact Hm|split; [|split; [exact Hg|exact He]]].
  exact (eq_trans (eq_sym (map_Some_length _ _ _ Hmap)) Ls).
Defined.

(** C3, as stated, fails for a batch of two rows: the first iteration
    raises at [next_char.item()]. *)
Lemma generate_two_rows_raises :
  rows context2 = 2 /\
  exists m, GPT.init theta0 4 8 8 1 2 = Ok m /\
    generate (GPT.forward false rng0 m) draw0 8 int_to_char0 1 context2
    = Raise RuntimeError.
Proof.
  split; [reflexivity|].
  eexists; split; [reflexivity|].
  vm_compute; reflexivity.
Qed.

(** C4, as the code has it.  Each iteration rebinds [context] to its own
    last context_length tokens and then appends the drawn index: after
    k >= 1 iterations the running context holds
    min(T0 + k, context_length + 1) tokens, and [res] holds the k
    characters generated so far. *)
Theorem running_context_length (model : Tensor2 Z -> result (Tensor3 R))
        (draw : Sampler) (context_length : Z) (int_to_char : gmap Z pystr)
        (k : nat) (context : Tensor2 Z)
        (evs : list event) (c' : Tensor2 Z) (res : list pystr) :
  (0 < context_length)%Z ->
  loop model draw context_length int_to_char k 0 context [] = (evs, Ok (c', res)) ->
  Z.of_nat (cols c')
  = (if k =? 0 then Z.of_nat (cols context)
     else Z.min (Z.of_nat (cols context) + Z.of_nat k) (context_length + 1))
  /\ length res = k.
Proof.
  intros HL H.
  exact (loop_final_length model draw context_length int_to_char HL
           k 0 context [] evs c' res H).
Qed.

Lemma running_context_length_witness :
  exists m evs c' res,
    GPT.init theta0 4 2 8 1 2 = Ok m /\
    loop (GPT.forward false rng0 m) draw0 2 int_to_char0 3 0 context1 []
    = (evs, Ok (c', res)) /\
    cols c' = 3 /\ length res = 3.
Proof.
  destruct (GPT_init_ok theta0 4 2 8 1 2) as (m & Hm & Hwf).
  destruct (loop_ok (GPT.forward false rng0 m) draw0 2 int_to_char0
              (fun z => (0 <= z < Z.of_nat 4)%Z) (fun _ => True) ltac:(lia)
              (GPT_model_accepts 4 2 8 1 2 false rng0 m Hwf divisible_8_2 ltac:(lia))
              3 0 context1 [] (draw0_ok _ 0 3 I) context1_single_row)
    as (evs & c' & res & Hl & _).
  simpl app in Hl.
  destruct (running_context_length (GPT.forward false rng0 m) draw0 2 int_to_char0
              3 context1 evs c' res ltac:(lia) Hl) as (Hc & Hr).
  exists m, evs, c', res; split; [exact Hm|split; [exact Hl|split; [|exact Hr]]].
  simpl in Hc; lia.
Defined.

(** C4, as stated, fails: from a context of one token, with
    context_length = 2, the running context holds 3 tokens after 3
    iterations, not 1 + 3. *)
Lemma running_context_is_truncated :
  exists m evs c' res,
    GPT.init theta0 4 2 8 1 2 = Ok m /\
    loop (GPT.forward false rng0 m) draw0 2 int_to_char0 3 0 context1 []
    = (evs, Ok (c', res)) /\
    cols context1 = 1 /\ cols c' = 3 /\ cols c' <> cols context1 + 3.
Proof.
  destruct (GPT_init_ok theta0 4 2 8 1 2) as (m & Hm & Hwf).
  destruct (loop_ok (GPT.forward false rng0 m) draw0 2 int_to_char0
              (fun z => (0 <= z < Z.of_nat 4)%Z) (fun _ => True) ltac:(lia)
              (GPT_model_accepts 4 2 8 1 2 false rng0 m Hwf divisible_8_2 ltac:(lia))
              3 0 context1 [] (draw0_ok _ 0 3 I) context1_single_row)
    as (evs & c' & res & Hl & _).
  simpl app in Hl.
  destruct (loop_final_length (GPT.forward false rng0 m) draw0 2 int_to_char0
              ltac:(lia) 3 0 context1 [] evs c' res Hl) as (Hc & _).
  simpl in Hc.
  exists m, evs, c', res; split; [exact Hm|split; [exact Hl|]].
  split; [reflexivity|]; simpl; lia.
Qed.

(** C5. Sliding window, for context_length >= 1.  In every run of
    [generate], also one that raises, the k-th call of the model is made
    on the last min(current context length, context_length) tokens of
    the running context, which are min(T0 + k, context_length) tokens and
    never more than context_length; the call is a call of [model] on that
    tensor, since a model that raises on it makes the run raise there.
    And the model is applied to nothing else: a model with the same
    answers on the tensors of min(T0 + k, context_length) tokens,
    k < new_chars, gives the same run and the same result, whatever it
    does on longer contexts. *)
Theorem sliding_window (model : Tensor2 Z -> result (Tensor3 R))
        (draw : Sampler) (context_length : Z) (int_to_char : gmap Z pystr)
        (new_chars : nat) (context : Tensor2 Z) :
  (0 < context_length)%Z ->
  (forall k running passed,
     nth_error
       (calls (fst (loop model draw context_length int_to_char new_chars 0
                      context []))) k = Some (running, passed) ->
     passed = slice_last running context_length /\
     Z.of_nat (cols passed) = Z.min (Z.of_nat (cols running)) context_length /\
     Z.of_nat (cols passed)
     = Z.min (Z.of_nat (cols context) + Z.of_nat k) context_length /\
     (Z.of_nat (cols passed) <= context_length)%Z /\
     (forall b t, t < cols passed ->
        at2 passed b t = at2 running b (cols running - cols passed + t)) /\
     forall e, model passed = Raise e ->
       generate model draw context_length int_to_char new_chars context = Raise e /\
       length (calls (fst (loop model draw context_length int_to_char new_chars 0
                             context []))) = S k) /\
  (forall model' : Tensor2 Z -> result (Tensor3 R),
     (forall x k, k < new_chars -> rows x = rows context ->
        Z.of_nat (cols x)
        = Z.min (Z.of_nat (cols context) + Z.of_nat k) context_length ->
        model' x = model x) ->
     loop model' draw context_length int_to_char new_chars 0 context []
     = loop model draw context_length int_to_char new_chars 0 context [] /\
     generate model' draw context_length int_to_char new_chars context
     = generate model draw context_length int_to_char new_chars context).
Proof.
  intros HL; split.
  - intros k running passed H.
    destruct (loop_calls_windows model draw context_length int_to_char HL
                new_chars 0 context [] k running passed H) as (H1 & H2).
    destruct (loop_call_raises model draw context_length int_to_char
                new_chars 0 context [] k running passed H) as (H3 & H4).
    split; [exact H3|split; [exact H1|split; [exact H2|split; [lia|split]]]].
    { rewrite H3; exact (slice_last_suffix running context_length HL). }
    intros e He; destruct (H4 e He) as (H5 & H6).
    split; [unfold generate; rewrite H5; reflexivity|exact H6].
  - intros model' H.
    pose proof (loop_ext model draw context_length int_to_char model' HL
                  new_chars 0 context [] H) as E.
    split; [exact E|unfold generate; rewrite E; reflexivity].
Qed.

Lemma sliding_window_witness :
  exists m running passed,
    GPT.init theta0 4 8 8 1 2 = Ok m /\
    nth_error
      (calls (fst (loop (GPT.forward false rng0 m) draw0 2 int_to_char0 3 0 context1 [])))
      2 = Some (running, passed) /\
    passed = slice_last running 2 /\
    cols passed = 2 /\
    generate (refuse_longer 2 (GPT.forward false rng0 m)) draw0 2 int_to_char0 3
      context1
    = generate (GPT.forward false rng0 m) draw0 2 int_to_char0 3 context1.
Proof.
  destruct (GPT_init_ok theta0 4 8 8 1 2) as (m & Hm & Hwf).
  destruct (sliding_window (GPT.forward false rng0 m) draw0 2 int_to_char0 3
              context1 ltac:(lia)) as (Hcalls & Hext).
  destruct (loop_ok (GPT.forward false rng0 m) draw0 2 int_to_char0
              (fun z => (0 <= z < Z.of_nat 4)%Z) (fun _ => True) ltac:(lia)
              (model_accepts_le _ _ (Z.of_nat 8) 2 ltac:(lia)
                 (GPT_model_accepts 4 8 8 1 2 false rng0 m Hwf divisible_8_2
                    ltac:(lia)))
              3 0 context1 [] (draw0_ok _ 0 3 I) context1_single_row)
    as (evs & c' & res & Hl & Lc & _).
  destruct (nth_error (calls evs) 2) as [[running passed]|] eqn:E.
  - assert (E' : nth_error
               (calls (fst (loop (GPT.forward false rng0 m) draw0 2 int_to_char0
                              3 0 context1 []))) 2 = Some (running, passed))
      by (rewrite Hl; exact E).
    destruct (Hcalls 2 running passed E') as (H0 & _ & H2 & _ & _ & _).
    exists m, running, passed.
    split; [exact Hm|split; [exact E'|split; [exact H0|split]]].
    + simpl in H2; lia.
    + apply (Hext (refuse_longer 2 (GPT.forward false rng0 m))).
      intros x k _ _ Hx; unfold refuse_longer.
      destruct (cols x <=? 2) eqn:Ex; [reflexivity|].
      apply Nat.leb_gt in Ex; simpl in Hx; lia.
  - apply nth_error_None in E; lia.
Defined.

(** C5, as stated, fails for context_length <= 0, which [generate] does
    not refuse.  With context_length = 0 the slice [context[:, -0:]] is
    the whole context: from the context [0, 1, 2] the model is called on
    3 tokens, not on min(3, 0) = 0, so a model with a positional table
    of 3 rows answers and one with 2 rows raises.  With
    context_length = -1 the slice is [context[:, 1:]], of 2 tokens. *)
Lemma window_of_zero_length :
  exists m2 m3,
    GPT.init theta0 4 2 8 1 2 = Ok m2 /\
    GPT.init theta0 4 3 8 1 2 = Ok m3 /\
    calls (fst (loop (GPT.forward false rng0 m3) draw0 0 int_to_char0 1 0
                  context0 []))
    = [(context0, slice_last context0 0)] /\
    cols (slice_last context0 0) = 3 /\
    generate (GPT.forward false rng0 m3) draw0 0 int_to_char0 1 context0
    = Ok [32%N] /\
    generate (GPT.forward false rng0 m2) draw0 0 int_to_char0 1 context0
    = Raise IndexError /\
    cols (slice_last context0 (-1)) = 2 /\
    generate (GPT.forward false rng0 m2) draw0 (-1) int_to_char0 1 context0
    = Ok [32%N].
Proof.
  do 2 eexists; split; [reflexivity|split; [reflexivity|]].
  split; [|split; [reflexivity|split; [vm_compute; reflexivity|
          split; [vm_compute; reflexivity|split; [reflexivity|
          vm_compute; reflexivity]]]]].
  apply loop_one_calls.
Qed.



(** * Further properties of the notebook's code *)

(** ** Dicts built by insertion *)

Lemma dict_of_snoc {K V : Type} `{Countable K} (l : list (K * V)) (p : K * V) :
  dict_of (l ++ [p]) = <[p.1 := p.2]> (dict_of l).
Proof. unfold dict_of; rewrite foldl_app; reflexivity. Qed.

Lemma dict_of_lookup_elem {K V : Type} `{Countable K} (l : list (K * V))
      (k : K) (v : V) :
  dict_of l !! k = Some v -> In (k, v) l.
Proof.
  induction l as [|p l IH] using rev_ind; [discriminate|].
  rewrite dict_of_snoc; intros E; apply in_or_app.
  destruct (decide (p.1 = k)) as [<-|Hne].
  - rewrite lookup_insert_eq in E; injection E as <-.
    right; left; destruct p; reflexivity.
  - rewrite lookup_insert_ne in E by exact Hne; left; apply IH; exact E.
Qed.

Lemma dict_of_lookup_NoDup {K V : Type} `{Countable K} (l : list (K * V))
      (k : K) (v : V) :
  List.NoDup (map fst l) -> In (k, v) l -> dict_of l !! k = Some v.
Proof.
  induction l as [|p l IH] using rev_ind; [intros _ []|].
  rewrite map_app, dict_of_snoc; simpl; intros Hnd Hin.
  apply in_app_or in Hin as [Hin|[->|[]]].
  - rewrite lookup_insert_ne.
    + apply IH; [|exact Hin].
      apply NoDup_remove_1 in Hnd; rewrite app_nil_r in Hnd; exact Hnd.
    + intros E; apply NoDup_remove_2 in Hnd; apply Hnd.
      rewrite app_nil_r, E; apply (in_map fst l (k, v)); exact Hin.
  - simpl; apply lookup_insert_eq.
Qed.

Lemma char_to_int_of_elem (items : list (Z * pystr)) (c : pystr) (i : Z) :
  char_to_int_of items !! c = Some i -> In (i, c) items.
Proof.
  intros E; apply dict_of_lookup_elem, in_map_iff in E as ([i' c'] & E & Hin).
  injection E as -> ->; exact Hin.
Qed.

(** ** Python slices *)

Lemma pyslice_in_range {A : Type} (l : list A) (s e : Z) (d : A) :
  (0 <= s)%Z -> (s <= e)%Z -> (e <= Z.of_nat (length l))%Z ->
  length (pyslice l s e) = Z.to_nat (e - s) /\
  forall t, t < Z.to_nat (e - s) ->
    nth t (pyslice l s e) d = nth (Z.to_nat s + t) l d.
Proof.
  intros Hs Hse He; unfold pyslice, clip.
  destruct (s <? 0)%Z eqn:Es; [apply Z.ltb_lt in Es; lia|].
  destruct (e <? 0)%Z eqn:Ee; [apply Z.ltb_lt in Ee; lia|].
  rewrite !Z.min_l by lia; split.
  - rewrite length_firstn, length_skipn; lia.
  - intros t Ht; rewrite nth_firstn.
    destruct (t <? Z.to_nat (e - s)) eqn:E; [|apply Nat.ltb_ge in E; lia].
    apply nth_skipn.
Qed.

Lemma pyslice_length_le {A : Type} (l : list A) (s n : Z) :
  (0 <= n)%Z -> (Z.of_nat (length (pyslice l s (s + n))) <= n)%Z.
Proof.
  intros Hn; unfold pyslice, clip.
  rewrite length_firstn, length_skipn.
  destruct (s <? 0)%Z eqn:Es; destruct (s + n <? 0)%Z eqn:Ee;
    try apply Z.ltb_lt in Es; try apply Z.ltb_lt in Ee;
    try apply Z.ltb_ge in Es; try apply Z.ltb_ge in Ee; lia.
Qed.

(** ** The vocabulary *)

Lemma char_to_int_decodes_aux (items : list (Z * pystr)) (c : pystr) (i : Z) :
  List.NoDup (map fst items) ->
  char_to_int_of items !! c = Some i ->
  dict_of items !! i = Some c.
Proof.
  intros Hnd E; apply dict_of_lookup_NoDup; [exact Hnd|].
  apply char_to_int_of_elem; exact E.
Qed.

(** X1. Decoding inverts encoding: whatever index [char_to_int] gives for
    a character, [int_to_char] maps that index back to the character. *)
Theorem char_to_int_decodes (items : list (Z * pystr)) (c : pystr) (i : Z) :
  List.NoDup (map fst items) ->
  char_to_int_of items !! c = Some i ->
  dict_of items !! i = Some c.
Proof. exact (char_to_int_decodes_aux items c i). Qed.

Lemma Notebook_keys_NoDup : List.NoDup (map fst Notebook.int_to_char).
Proof. apply NoDup_ListNoDup; compute_done. Qed.

Lemma Notebook_chars_NoDup : List.NoDup (map snd Notebook.int_to_char).
Proof. apply NoDup_ListNoDup; compute_done. Qed.

Lemma char_to_int_decodes_witness :
  dict_of Notebook.int_to_char !! 61%Z = Some [97%N].
Proof.
  apply (char_to_int_decodes Notebook.int_to_char [97%N] 61%Z).
  - exact Notebook_keys_NoDup.
  - vm_compute; reflexivity.
Defined.

Lemma char_to_int_encodes_aux (items : list (Z * pystr)) (c : pystr) (i : Z) :
  List.NoDup (map snd items) ->
  dict_of items !! i = Some c ->
  char_to_int_of items !! c = Some i.
Proof.
  intros Hnd E; apply dict_of_lookup_elem in E.
  unfold char_to_int_of; apply dict_of_lookup_NoDup.
  - rewrite map_map.
    rewrite (map_ext _ snd); [exact Hnd|]; intros [i' c']; reflexivity.
  - apply in_map_iff; exists (i, c); split; [reflexivity|exact E].
Qed.

(** X2. When no two indices share a character, encoding inverts decoding:
    the character [int_to_char] holds at an index is mapped back to that
    index by [char_to_int]. *)
Theorem char_to_int_encodes (items : list (Z * pystr)) (c : pystr) (i : Z) :
  List.NoDup (map snd items) ->
  dict_of items !! i = Some c ->
  char_to_int_of items !! c = Some i.
Proof. exact (char_to_int_encodes_aux items c i). Qed.

Lemma char_to_int_encodes_witness :
  Notebook.char_to_int !! [8230%N] = Some 122%Z.
Proof.
  apply (char_to_int_encodes Notebook.int_to_char [8230%N] 122%Z).
  - exact Notebook_chars_NoDup.
  - vm_compute; reflexivity.
Defined.

(** ** TweetDataset *)

Lemma comprehension_omap (char_to_int : gmap pystr Z) (text : pystr) :
  TweetDataset.comprehension char_to_int text
  = Ok (omap (fun c => char_to_int !! [c]) text).
Proof.
  induction text as [|c text IH]; [reflexivity|]; simpl.
  unfold contains, getitem_char, pystr in *.
  destruct (char_to_int !! [c]) as [v|]; simpl; rewrite IH; reflexivity.
Qed.

Lemma omap_length_le {A B : Type} (f : A -> option B) (l : list A) :
  length (omap f l) <= length l.
Proof.
  induction l as [|a l IH]; [simpl; lia|].
  change (omap f (a :: l))
    with (match f a with Some b => b :: omap f l | None => omap f l end).
  destruct (f a); simpl; lia.
Qed.

(** X3. Building a dataset never raises, whatever the text: a character
    without an entry in [char_to_int] is skipped, every other character
    contributes its index, in the order of the text.  So the data is no
    longer than the text, and the data of a concatenation is the
    concatenation of the data. *)
Theorem TweetDataset_init_total (char_to_int : gmap pystr Z) (text text' : pystr) :
  TweetDataset.__init__ char_to_int text
  = Ok (TweetDataset.mk (omap (fun c => char_to_int !! [c]) text)) /\
  length (omap (fun c => char_to_int !! [c]) text) <= length text /\
  omap (fun c => char_to_int !! [c]) (text ++ text')
  = omap (fun c => char_to_int !! [c]) text
    ++ omap (fun c => char_to_int !! [c]) text'.
Proof.
  split; [|split].
  - unfold TweetDataset.__init__; rewrite comprehension_omap; reflexivity.
  - apply omap_length_le.
  - apply omap_app.
Qed.

Lemma omap_decode (items : list (Z * pystr)) (text : pystr) :
  List.NoDup (map fst items) ->
  mapM (getitem (dict_of items))
    (omap (fun c => char_to_int_of items !! [c]) text)
  = Ok (map (fun c => [c])
          (List.filter (fun c => contains (char_to_int_of items) [c]) text)).
Proof.
  intros Hnd; induction text as [|c text IH]; [reflexivity|].
  destruct (char_to_int_of items !! ([c] : pystr)) as [v|] eqn:E.
  - pose proof (char_to_int_decodes_aux items [c] v Hnd E) as E'.
    transitivity (s <- getitem (dict_of items) v ;;
                  bs <- mapM (getitem (dict_of items))
                          (omap (fun c => char_to_int_of items !! [c]) text) ;;
                  Ok (s :: bs)).
    + simpl; unfold pystr in *; rewrite E; reflexivity.
    + unfold getitem at 1; rewrite E', IH; simpl.
      unfold contains, pystr in *; rewrite E; reflexivity.
  - transitivity (mapM (getitem (dict_of items))
                    (omap (fun c => char_to_int_of items !! [c]) text)).
    + simpl; unfold pystr in *; rewrite E; reflexivity.
    + rewrite IH; simpl; unfold contains, pystr in *; rewrite E; reflexivity.
Qed.

Lemma items4_keys_NoDup : List.NoDup (map fst items4).
Proof. apply NoDup_ListNoDup; compute_done. Qed.

Lemma dataset5_init :
  TweetDataset.__init__ (char_to_int_of items4) text6 = Ok dataset5.
Proof. vm_compute; reflexivity. Qed.

(** X4. Encoding a text and decoding the data gives the text back without
    the characters that have no entry: every index in the data is a key
    of [int_to_char], and the characters found there are those of the
    text that [char_to_int] knows, in order. *)
Theorem dataset_decodes (items : list (Z * pystr)) (text : pystr)
        (ds : TweetDataset.t) :
  List.NoDup (map fst items) ->
  TweetDataset.__init__ (char_to_int_of items) text = Ok ds ->
  mapM (getitem (dict_of items)) (TweetDataset.data ds)
  = Ok (map (fun c => [c])
          (List.filter (fun c => contains (char_to_int_of items) [c]) text)).
Proof.
  intros Hnd Hds.
  unfold TweetDataset.__init__ in Hds; rewrite comprehension_omap in Hds.
  injection Hds as <-; simpl; apply omap_decode; exact Hnd.
Qed.

Lemma dataset_decodes_witness :
  mapM (getitem (dict_of items4)) (TweetDataset.data dataset5)
  = Ok [[32%N]; [33%N]; [10%N]; [34%N]; [32%N]].
Proof.
  exact (dataset_decodes items4 text6 dataset5 items4_keys_NoDup dataset5_init).
Defined.

Lemma data_tokens (items : list (Z * pystr)) (text : pystr) (V : nat) :
  (forall i c, In (i, c) items -> (0 <= i < Z.of_nat V)%Z) ->
  Forall (fun v => (0 <= v < Z.of_nat V)%Z)
    (omap (fun c => char_to_int_of items !! [c]) text).
Proof.
  intros Hkeys; apply List.Forall_forall; intros v Hv.
  apply list_elem_of_In, list_elem_of_omap in Hv as (c & _ & E).
  apply char_to_int_of_elem in E; exact (Hkeys v [c] E).
Qed.

(** X5. When the keys of [int_to_char] are indices below vocab_size, so is
    every element of the data: a dataset holds tokens only. *)
Theorem dataset_tokens_in_range (items : list (Z * pystr)) (text : pystr)
        (ds : TweetDataset.t) (V : nat) :
  (forall i c, In (i, c) items -> (0 <= i < Z.of_nat V)%Z) ->
  TweetDataset.__init__ (char_to_int_of items) text = Ok ds ->
  Forall (fun v => (0 <= v < Z.of_nat V)%Z) (TweetDataset.data ds).
Proof.
  intros Hkeys Hds.
  unfold TweetDataset.__init__ in Hds; rewrite comprehension_omap in Hds.
  injection Hds as <-; simpl; apply data_tokens; exact Hkeys.
Qed.

Lemma items4_keys_range (i : Z) (c : pystr) :
  In (i, c) items4 -> (0 <= i < Z.of_nat 4)%Z.
Proof.
  unfold items4; simpl; intros [E|[E|[E|[E|[]]]]]; injection E as <- _; lia.
Qed.

Lemma Notebook_keys_range (i : Z) (c : pystr) :
  In (i, c) Notebook.int_to_char -> (0 <= i < Z.of_nat Notebook.vocab_size)%Z.
Proof.
  intros Hin; apply (in_map fst) in Hin; simpl in Hin.
  assert (H : forallb (fun k => (0 <=? k)%Z && (k <? 124)%Z)
                (map fst Notebook.int_to_char) = true)
    by (vm_compute; reflexivity).
  rewrite forallb_forall in H; apply H in Hin.
  apply andb_true_iff in Hin as [H1 H2].
  apply Z.leb_le in H1; apply Z.ltb_lt in H2.
  unfold Notebook.vocab_size; lia.
Qed.

Lemma dataset_tokens_in_range_witness :
  Forall (fun v => (0 <= v < Z.of_nat 4)%Z) (TweetDataset.data dataset5).
Proof.
  exact (dataset_tokens_in_range items4 text6 dataset5 4
           items4_keys_range dataset5_init).
Defined.

Lemma getitem_in_range (C : Z) (ds : TweetDataset.t) (idx : Z) :
  (0 <= C)%Z -> (0 <= idx < TweetDataset.__len__ C ds)%Z ->
  Z.of_nat (len1 (fst (TweetDataset.__getitem__ C ds idx))) = C /\
  Z.of_nat (len1 (snd (TweetDataset.__getitem__ C ds idx))) = C /\
  forall t, (Z.of_nat t < C)%Z ->
    at1 (fst (TweetDataset.__getitem__ C ds idx)) t
    = nth (Z.to_nat idx + t) (TweetDataset.data ds) 0%Z /\
    at1 (snd (TweetDataset.__getitem__ C ds idx)) t
    = nth (Z.to_nat idx + 1 + t) (TweetDataset.data ds) 0%Z.
Proof.
  unfold TweetDataset.__len__, TweetDataset.__getitem__; intros HC Hidx; simpl.
  destruct (pyslice_in_range (TweetDataset.data ds) idx (idx + C) 0%Z)
    as (Lx & Nx); try lia.
  destruct (pyslice_in_range (TweetDataset.data ds) (idx + 1) (idx + 1 + C) 0%Z)
    as (Ly & Ny); try lia.
  rewrite Lx, Ly; split; [lia|split; [lia|]].
  intros t Ht; rewrite Nx, Ny by lia; split; f_equal; lia.
Qed.

(** X6. For every index the dataset offers, 0 <= idx < len(dataset), the
    item is a pair of full windows: x and y both hold context_length
    elements, x the data from idx on and y the data from idx + 1 on, so
    that y is x shifted by one position. *)
Theorem getitem_windows (C : Z) (ds : TweetDataset.t) (idx : Z) :
  (0 <= C)%Z -> (0 <= idx < TweetDataset.__len__ C ds)%Z ->
  Z.of_nat (len1 (fst (TweetDataset.__getitem__ C ds idx))) = C /\
  Z.of_nat (len1 (snd (TweetDataset.__getitem__ C ds idx))) = C /\
  (forall t, (Z.of_nat t < C)%Z ->
     at1 (fst (TweetDataset.__getitem__ C ds idx)) t
     = nth (Z.to_nat idx + t) (TweetDataset.data ds) 0%Z /\
     at1 (snd (TweetDataset.__getitem__ C ds idx)) t
     = nth (Z.to_nat idx + 1 + t) (TweetDataset.data ds) 0%Z) /\
  (forall t, (Z.of_nat t + 1 < C)%Z ->
     at1 (snd (TweetDataset.__getitem__ C ds idx)) t
     = at1 (fst (TweetDataset.__getitem__ C ds idx)) (t + 1)).
Proof.
  intros HC Hidx.
  destruct (getitem_in_range C ds idx HC Hidx) as (Lx & Ly & Hat).
  split; [exact Lx|split; [exact Ly|split; [exact Hat|]]].
  intros t Ht.
  destruct (Hat t ltac:(lia)) as (_ & ->).
  destruct (Hat (t + 1) ltac:(lia)) as (-> & _).
  f_equal; lia.
Qed.

Lemma getitem_windows_witness :
  at1 (snd (TweetDataset.__getitem__ 2 dataset5 1)) 0
  = at1 (fst (TweetDataset.__getitem__ 2 dataset5 1)) (0 + 1).
Proof.
  destruct (getitem_windows 2 dataset5 1) as (_ & _ & _ & H).
  - lia.
  - unfold TweetDataset.__len__; simpl; lia.
  - apply H; lia.
Defined.

(** X7. [__getitem__] never returns more than context_length elements,
    whatever the index; and the bound of [__len__] is tight: at
    idx = len(dataset) the input window is still full but the target has
    only context_length - 1 elements. *)
Theorem getitem_edges (C : Z) (ds : TweetDataset.t) (idx : Z) :
  (0 <= C)%Z ->
  (Z.of_nat (len1 (fst (TweetDataset.__getitem__ C ds idx))) <= C)%Z /\
  (Z.of_nat (len1 (snd (TweetDataset.__getitem__ C ds idx))) <= C)%Z /\
  (idx = TweetDataset.__len__ C ds -> (0 <= idx)%Z -> (1 <= C)%Z ->
   Z.of_nat (len1 (fst (TweetDataset.__getitem__ C ds idx))) = C /\
   Z.of_nat (len1 (snd (TweetDataset.__getitem__ C ds idx))) = (C - 1)%Z).
Proof.
  intros HC; unfold TweetDataset.__getitem__; simpl.
  split; [apply pyslice_length_le; exact HC|].
  split; [apply pyslice_length_le; exact HC|].
  unfold TweetDataset.__len__; intros -> Hidx H1.
  set (n := Z.of_nat (length (TweetDataset.data ds))) in *.
  destruct (pyslice_in_range (TweetDataset.data ds) (n - C) (n - C + C) 0%Z)
    as (Lx & _); try (subst n; lia).
  rewrite Lx; split; [lia|].
  unfold pyslice, clip; fold n.
  rewrite length_firstn, length_skipn; fold n.
  destruct (n - C + 1 <? 0)%Z eqn:E1; [apply Z.ltb_lt in E1; lia|].
  destruct (n - C + 1 + C <? 0)%Z eqn:E2; [apply Z.ltb_lt in E2; lia|].
  subst n; lia.
Qed.

Lemma getitem_edges_witness :
  len1 (fst (TweetDataset.__getitem__ 2 dataset5 3)) = 2 /\
  len1 (snd (TweetDataset.__getitem__ 2 dataset5 3)) = 1.
Proof.
  destruct (getitem_edges 2 dataset5 3 ltac:(lia)) as (_ & _ & H).
  destruct H as (Hx & Hy); [reflexivity|lia|lia|].
  split; lia.
Defined.

(** ** Batches *)

Lemma stack_ok (T : nat) (xs : list (Tensor1 Z)) :
  xs <> [] -> Forall (fun x => len1 x = T) xs ->
  exists r, stack xs = Ok r /\ rows r = length xs /\ cols r = T /\
            forall b t d, b < length xs -> at2 r b t = at1 (nth b xs d) t.
Proof.
  intros Hne Hall; destruct xs as [|x xs]; [congruence|].
  unfold stack.
  replace (forallb _ _) with true.
  - eexists; split; [reflexivity|]; simpl rows; simpl cols.
    split; [reflexivity|split].
    + apply Forall_cons_iff in Hall as [Hx _]; exact Hx.
    + intros b t d Hb; cbn [at2]; f_equal.
      exact (nth_indep (x :: xs) x d Hb).
  - symmetry; apply forallb_forall; intros y Hy.
    rewrite List.Forall_forall in Hall.
    rewrite (Hall y Hy), (Hall x (or_introl eq_refl)); apply Nat.eqb_refl.
Qed.

Lemma batch_ok (C : nat) (V : nat) (ds : TweetDataset.t) (idxs : list Z) :
  Forall (fun v => (0 <= v < Z.of_nat V)%Z) (TweetDataset.data ds) ->
  idxs <> [] ->
  Forall (fun idx => (0 <= idx < TweetDataset.__len__ (Z.of_nat C) ds)%Z) idxs ->
  exists x y,
    batch (Z.of_nat C) ds idxs = Ok (x, y) /\
    rows x = length idxs /\ cols x = C /\ tokens_in_range V x /\
    rows y = length idxs /\ cols y = C /\ tokens_in_range V y.
Proof.
  intros Hdata Hne Hidx; unfold batch.
  set (items := map (TweetDataset.__getitem__ (Z.of_nat C) ds) idxs).
  assert (Hitems : Forall (fun xy =>
            (len1 (fst xy) = C /\
             forall t, t < C -> (0 <= at1 (fst xy) t < Z.of_nat V)%Z) /\
            (len1 (snd xy) = C /\
             forall t, t < C -> (0 <= at1 (snd xy) t < Z.of_nat V)%Z)) items).
  { subst items; apply List.Forall_forall; intros xy Hxy.
    apply in_map_iff in Hxy as (idx & <- & Hin).
    rewrite List.Forall_forall in Hidx; specialize (Hidx idx Hin).
    destruct (getitem_in_range (Z.of_nat C) ds idx ltac:(lia) Hidx) as (Lx & Ly & Hat).
    rewrite List.Forall_forall in Hdata.
    unfold TweetDataset.__len__ in Hidx.
    split; (split; [lia|]); intros t Ht;
      destruct (Hat t ltac:(lia)) as (Ex & Ey); [rewrite Ex|rewrite Ey];
      apply Hdata, nth_In; lia. }
  assert (Hlen : length items = length idxs) by (subst items; apply length_map).
  destruct (stack_ok C (map fst items)) as (x & Hx & Rx & Cx & Ax).
  { intros E; apply (f_equal (@length _)) in E; rewrite length_map, Hlen in E.
    destruct idxs; [congruence|discriminate]. }
  { apply List.Forall_forall; intros a Ha; apply in_map_iff in Ha as (xy & <- & Hin).
    rewrite List.Forall_forall in Hitems; apply (Hitems xy Hin). }
  destruct (stack_ok C (map snd items)) as (y & Hy & Ry & Cy & Ay).
  { intros E; apply (f_equal (@length _)) in E; rewrite length_map, Hlen in E.
    destruct idxs; [congruence|discriminate]. }
  { apply List.Forall_forall; intros a Ha; apply in_map_iff in Ha as (xy & <- & Hin).
    rewrite List.Forall_forall in Hitems; apply (Hitems xy Hin). }
  rewrite Hx; simpl; rewrite Hy; simpl.
  rewrite length_map, Hlen in Rx, Ry.
  exists x, y; split; [reflexivity|].
  rewrite List.Forall_forall in Hitems.
  split; [exact Rx|split; [exact Cx|split; [|split; [exact Ry|split; [exact Cy|]]]]].
  - intros b t Hb Ht; rewrite Rx in Hb; rewrite Cx in Ht.
    destruct idxs as [|i0 idxs]; [congruence|].
    set (d0 := TweetDataset.__getitem__ (Z.of_nat C) ds i0).
    rewrite (Ax b t (fst d0)) by (rewrite length_map, Hlen; exact Hb).
    rewrite (map_nth fst items d0 b).
    apply (Hitems (nth b items d0)); [apply nth_In; lia|exact Ht].
  - intros b t Hb Ht; rewrite Ry in Hb; rewrite Cy in Ht.
    destruct idxs as [|i0 idxs]; [congruence|].
    set (d0 := TweetDataset.__getitem__ (Z.of_nat C) ds i0).
    rewrite (Ay b t (snd d0)) by (rewrite length_map, Hlen; exact Hb).
    rewrite (map_nth snd items d0 b).
    apply (Hitems (nth b items d0)); [apply nth_In; lia|exact Ht].
Qed.

(** X8. A training step never raises in its forward pass.  For a dataset
    built from a vocabulary whose keys are below vocab_size, a model built
    with the context_length the dataset uses, and any non-empty choice of
    indices the dataset offers, the batch is formed, its inputs are a
    context of shape (B, context_length) that [GPT.forward] accepts in
    training mode, giving logits (B, context_length, vocab_size), and its
    targets are B rows of context_length tokens. *)
Theorem training_batch_forward (theta : Params) (V C d nb nh : nat)
        (rng : nat -> nat -> Mask) (items : list (Z * pystr)) (text : pystr)
        (ds : TweetDataset.t) (idxs : list Z) :
  divisible d nh ->
  (forall i c, In (i, c) items -> (0 <= i < Z.of_nat V)%Z) ->
  TweetDataset.__init__ (char_to_int_of items) text = Ok ds ->
  idxs <> [] ->
  Forall (fun idx => (0 <= idx < TweetDataset.__len__ (Z.of_nat C) ds)%Z) idxs ->
  exists m x y logits,
    GPT.init theta V C d nb nh = Ok m /\
    batch (Z.of_nat C) ds idxs = Ok (x, y) /\
    GPT.forward true rng m x = Ok logits /\
    shape3 logits = (length idxs, C, V) /\
    rows y = length idxs /\ cols y = C /\ tokens_in_range V y.
Proof.
  intros Hdiv Hkeys Hds Hne Hidx.
  assert (Hdata : Forall (fun v => (0 <= v < Z.of_nat V)%Z) (TweetDataset.data ds)).
  { unfold TweetDataset.__init__ in Hds; rewrite comprehension_omap in Hds.
    injection Hds as <-; simpl; apply data_tokens; exact Hkeys. }
  destruct (batch_ok C V ds idxs Hdata Hne Hidx)
    as (x & y & Hb & Rx & Cx & Tx & Ry & Cy & Ty).
  destruct (GPT_init_ok theta V C d nb nh) as (m & Hm & Hwf).
  destruct (GPT_forward_shape V C d nb nh true rng m x Hwf Hdiv)
    as (logits & Hl & Sl); [split; [lia|exact Tx]|].
  exists m, x, y, logits.
  rewrite Rx, Cx in Sl.
  split; [exact Hm|split; [exact Hb|split; [exact Hl|split; [exact Sl|]]]].
  split; [exact Ry|split; [exact Cy|exact Ty]].
Qed.

Lemma training_batch_forward_witness :
  exists m x y logits,
    GPT.init theta0 4 2 8 1 2 = Ok m /\
    batch 2 dataset5 [2%Z; 0%Z] = Ok (x, y) /\
    GPT.forward true rng0 m x = Ok logits /\
    shape3 logits = (2, 2, 4).
Proof.
  destruct (training_batch_forward theta0 4 2 8 1 2 rng0 items4 text6 dataset5
              [2%Z; 0%Z] divisible_8_2 items4_keys_range dataset5_init)
    as (m & x & y & logits & Hm & Hb & Hl & Sl & _).
  - discriminate.
  - unfold TweetDataset.__len__; simpl; repeat constructor; lia.
  - exists m, x, y, logits; split; [exact Hm|split; [exact Hb|split; [exact Hl|exact Sl]]].
Defined.

(** ** More on generate *)

(** X9. The window handed to the model is the end of the running context:
    for context_length >= 1 it has the rows of the context and its last
    min(T, context_length) tokens, in order. *)
Theorem window_is_suffix (c : Tensor2 Z) (L : Z) :
  (0 < L)%Z ->
  rows (slice_last c L) = rows c /\
  Z.of_nat (cols (slice_last c L)) = Z.min (Z.of_nat (cols c)) L /\
  forall b t, t < cols (slice_last c L) ->
    at2 (slice_last c L) b t = at2 c b (cols c - cols (slice_last c L) + t).
Proof.
  intros HL; split; [reflexivity|]; split; [exact (slice_last_cols c L HL)|].
  exact (slice_last_suffix c L HL).
Qed.

Lemma window_is_suffix_witness :
  cols (slice_last context0 2) = 2 /\
  at2 (slice_last context0 2) 0 0 = 1%Z /\ at2 (slice_last context0 2) 0 1 = 2%Z.
Proof.
  destruct (window_is_suffix context0 2 ltac:(lia)) as (_ & Hc & Hat).
  split; [apply Nat2Z.inj; rewrite Hc; reflexivity|].
  split; [exact (Hat 0 0 ltac:(simpl; lia))|exact (Hat 0 1 ltac:(simpl; lia))].
Defined.

Lemma slice_last_zero (c : Tensor2 Z) :
  cols (slice_last c 0) = cols c /\
  forall b t, at2 (slice_last c 0) b t = at2 c b t.
Proof.
  unfold slice_last; simpl; split; [lia|].
  intros b t; f_equal; lia.
Qed.

Section GenerateEdges.

Variable model : Tensor2 Z -> result (Tensor3 R).
Variable draw : Sampler.
Variable int_to_char : gmap Z pystr.

Lemma loop_calls_count (L : Z) :
  forall n i c res,
    length (sampled (fst (loop model draw L int_to_char n i c res)))
    <= length (calls (fst (loop model draw L int_to_char n i c res))) /\
    length (calls (fst (loop model draw L int_to_char n i c res))) <= n /\
    (forall out, snd (loop model draw L int_to_char n i c res) = Ok out ->
       length (calls (fst (loop model draw L int_to_char n i c res))) = n /\
       length (sampled (fst (loop model draw L int_to_char n i c res))) = n) /\
    (forall e, snd (loop model draw L int_to_char n i c res) = Raise e ->
       1 <= length (calls (fst (loop model draw L int_to_char n i c res)))).
Proof.
  induction n as [|n IH]; intros i c res.
  - simpl; repeat split; try lia; discriminate.
  - simpl loop.
    assert (Hit : exists evs r,
               iteration model draw L int_to_char i c = (evs, r) /\
               length (calls evs) = 1 /\ length (sampled evs) <= 1 /\
               (forall o, r = Ok o -> length (sampled evs) = 1)).
    { unfold iteration; destruct (predict model draw i _) as [nc|e].
      - do 2 eexists; split; [reflexivity|]; simpl; repeat split; lia.
      - do 2 eexists; split; [reflexivity|]; simpl.
        split; [reflexivity|split; [lia|discriminate]]. }
    destruct Hit as (evs & r & -> & Hc & Hs & Hso).
    destruct r as [[c1 s]|e].
    + specialize (IH (S i) c1 (res ++ [s])).
      destruct (loop model draw L int_to_char n (S i) c1 (res ++ [s])) as [evs' out].
      simpl in IH |- *; destruct IH as (I1 & I2 & I3 & I4).
      rewrite calls_app, sampled_app, !length_app, Hc, (Hso _ eq_refl).
      split; [lia|split; [lia|split]].
      * intros o Ho; destruct (I3 o Ho); lia.
      * intros e He; lia.
    + simpl; rewrite Hc; split; [lia|split; [lia|split]].
      * discriminate.
      * intros; lia.
Qed.

End GenerateEdges.

Section GenerateMore.

Variable model : Tensor2 Z -> result (Tensor3 R).
Variable draw : Sampler.
Variable context_length : Z.
Variable int_to_char : gmap Z pystr.

Lemma loop_add :
  forall k n i c res,
    loop model draw context_length int_to_char (k + n) i c res
    = match loop model draw context_length int_to_char k i c res with
      | (evs, Ok (c', res')) =>
          let (evs', out) :=
            loop model draw context_length int_to_char n (i + k) c' res' in
          (evs ++ evs', out)
      | (evs, Raise e) => (evs, Raise e)
      end.
Proof.
  induction k as [|k IH]; intros n i c res.
  - simpl; rewrite Nat.add_0_r.
    destruct (loop model draw context_length int_to_char n i c res); reflexivity.
  - simpl loop.
    destruct (iteration model draw context_length int_to_char i c)
      as [evs [[c1 s]|e]]; [|reflexivity].
    rewrite IH.
    destruct (loop model draw context_length int_to_char k (S i) c1 (res ++ [s]))
      as [evs1 [[c2 res2]|e]]; [|reflexivity].
    replace (i + S k) with (S i + k) by lia.
    destruct (loop model draw context_length int_to_char n (S i + k) c2 res2).
    rewrite app_assoc; reflexivity.
Qed.

Lemma iteration_inv (i : nat) (c c' : Tensor2 Z) (s : pystr) :
  snd (iteration model draw context_length int_to_char i c) = Ok (c', s) ->
  exists next_char,
    fst (iteration model draw context_length int_to_char i c)
    = [ModelCall c (slice_last c context_length); Sampled next_char] /\
    rows next_char = 1 /\ cols next_char = 1 /\
    rows c' = 1 /\
    cols c' = cols (slice_last c context_length) + 1 /\
    (forall b t, t < cols (slice_last c context_length) ->
       at2 c' b t = at2 (slice_last c context_length) b t) /\
    at2 c' 0 (cols (slice_last c context_length)) = at2 next_char 0 0 /\
    int_to_char !! (at2 next_char 0 0) = Some s.
Proof.
  unfold iteration.
  remember (slice_last c context_length) as view eqn:Hview.
  destruct (predict model draw i view) as [nc|e] eqn:Hp; cbn [snd fst];
    [|discriminate].
  apply predict_inv in Hp as (p & _ & N0 & N1 & _).
  unfold update; intros H.
  apply bind_Ok in H as (c1 & Hc1 & H).
  apply bind_Ok in H as (k & Hk & H).
  apply bind_Ok in H as (s' & Hs & H).
  injection H as <- <-.
  unfold cat_tokens in Hc1.
  destruct (rows view =? rows nc) eqn:E; [|discriminate].
  injection Hc1 as <-.
  unfold item in Hk; destruct (rows nc * cols nc =? 1) eqn:E1; [|discriminate].
  injection Hk as <-.
  unfold getitem in Hs.
  destruct (int_to_char !! at2 nc 0 0) as [s0|] eqn:Es; [|discriminate].
  injection Hs as <-.
  apply Nat.eqb_eq in E, E1.
  exists nc; split; [reflexivity|].
  cbn [rows cols at2].
  split; [lia|split; [exact N1|split; [lia|split; [lia|split; [|split]]]]].
  - intros b t Ht. apply Nat.ltb_lt in Ht; rewrite Ht; reflexivity.
  - rewrite Nat.ltb_irrefl, Nat.sub_diag; reflexivity.
  - exact Es.
Qed.

Lemma iteration_key_error (tok : Z -> Prop) (i : nat) (c : Tensor2 Z) :
  (0 < context_length)%Z ->
  model_accepts model tok context_length ->
  single_row tok c ->
  (forall p, int_to_char !! (draw i p 0) = None) ->
  snd (iteration model draw context_length int_to_char i c) = Raise KeyError.
Proof.
  intros HL Hm Hc Hnone.
  pose proof (slice_last_single_row tok c context_length HL Hc) as Hv.
  pose proof (slice_last_cols c context_length HL) as Hcols.
  unfold iteration.
  remember (slice_last c context_length) as view eqn:Hview.
  destruct (predict_ok model draw context_length tok i view Hm Hv)
    as (nc & probs & Hnc & N0 & N1 & Nat0); [lia|].
  rewrite Hnc; simpl.
  unfold update, cat_tokens, item, getitem.
  destruct Hv as (V0 & _).
  rewrite V0, N0, N1; simpl.
  rewrite Nat0, Hnone; reflexivity.
Qed.

Lemma predict_ok_contract (V : nat) (i : nat) (c : Tensor2 Z) :
  0 < V ->
  model_logits model V context_length ->
  sampler_in_range draw ->
  single_row (fun z => (0 <= z < Z.of_nat V)%Z) c ->
  (Z.of_nat (cols c) <= context_length)%Z ->
  exists next_char,
    predict model draw i c = Ok next_char /\
    rows next_char = 1 /\ cols next_char = 1 /\
    (0 <= at2 next_char 0 0 < Z.of_nat V)%Z.
Proof.
  intros HV Hm Hd Hc Hlen.
  destruct (Hm c Hc Hlen) as (p & Hp & P0 & P1 & P2).
  unfold predict; rewrite Hp; simpl.
  unfold select_last.
  destruct (dim1 p =? 0) eqn:E1; [apply Nat.eqb_eq in E1; lia|]; simpl.
  unfold multinomial; simpl.
  destruct (dim2 p =? 0) eqn:E2; [apply Nat.eqb_eq in E2; lia|].
  eexists; split; [reflexivity|]; simpl.
  split; [exact P0|split; [reflexivity|]].
  rewrite <- P2.
  match goal with
  | |- (0 <= draw i ?q 0%nat < _)%Z => exact (Hd i q 0 ltac:(simpl; lia))
  end.
Qed.

Lemma loop_ok_contract (V : nat) (P : pystr -> Prop) :
  (0 < context_length)%Z -> 0 < V ->
  model_logits model V context_length ->
  sampler_in_range draw ->
  (forall k, (0 <= k < Z.of_nat V)%Z ->
     exists s, int_to_char !! k = Some s /\ P s) ->
  forall n i c res,
    single_row (fun z => (0 <= z < Z.of_nat V)%Z) c ->
    exists evs c' res',
      loop model draw context_length int_to_char n i c res
      = (evs, Ok (c', res ++ res')) /\
      length res' = n /\ Forall P res' /\
      Forall (fun nc => rows nc = 1 /\ cols nc = 1 /\
                        (0 <= at2 nc 0 0 < Z.of_nat V)%Z) (sampled evs) /\
      map (fun nc => int_to_char !! (at2 nc 0 0)) (sampled evs) = map Some res'.
Proof.
  intros HL HV Hm Hd Htable; induction n as [|n IH]; intros i c res Hc.
  - exists [], c, []; simpl; rewrite app_nil_r.
    split; [reflexivity|split; [reflexivity|repeat constructor]].
  - pose proof (slice_last_single_row _ c context_length HL Hc) as Hv.
    pose proof (slice_last_cols c context_length HL) as Hcols.
    simpl loop; unfold iteration.
    remember (slice_last c context_length) as view eqn:Hview.
    destruct (predict_ok_contract V i view HV Hm Hd Hv)
      as (nc & Hnc & N0 & N1 & Nr); [lia|].
    destruct (Htable _ Nr) as (s & Hs & HP).
    rewrite Hnc.
    unfold update, cat_tokens, item, getitem.
    pose proof Hv as (V0 & V1 & Vtok).
    rewrite V0, N0, N1; simpl.
    rewrite Hs; simpl.
    match goal with
    | |- context [loop _ _ _ _ n (S i) ?c1 _] => set (c1' := c1)
    end.
    destruct (IH (S i) c1' (res ++ [s])) as (evs & c' & res' & Hl & Lr & FP & FS & Hmap).
    { subst c1'; split; [reflexivity|split; [simpl; lia|]].
      intros t Ht; simpl in Ht |- *.
      destruct (t <? cols view) eqn:E.
      - apply Nat.ltb_lt in E; apply Vtok; exact E.
      - apply Nat.ltb_ge in E; replace (t - cols view) with 0 by lia; exact Nr. }
    rewrite Hl.
    exists ([ModelCall c view; Sampled nc] ++ evs), c', (s :: res').
    split; [rewrite <- app_assoc; reflexivity|].
    simpl; split; [lia|split; [constructor; assumption|split]].
    + constructor; [split; [exact N0|split; [exact N1|exact Nr]]|exact FS].
    + rewrite Hs, Hmap; reflexivity.
Qed.

End GenerateMore.

Lemma loop_st_recording (model : Tensor2 Z -> result (Tensor3 R))
      (draw : Sampler) (context_length : Z) (int_to_char : gmap Z pystr) :
  forall n i log c res,
    loop_st (recording model) draw context_length int_to_char n i log c res
    = (log ++ map snd (calls (fst (loop model draw context_length int_to_char
                                     n i c res))),
       snd (loop model draw context_length int_to_char n i c res)).
Proof.
  induction n as [|n IH]; intros i log c res.
  - simpl; rewrite app_nil_r; reflexivity.
  - simpl loop_st; simpl loop.
    unfold iteration_st, predict_st, recording, iteration.
    change (prediction <- model (slice_last c context_length) ;;
            last_time_step <- select_last prediction ;;
            multinomial draw i (softmax2 last_time_step))
      with (predict model draw i (slice_last c context_length)).
    destruct (predict model draw i (slice_last c context_length)) as [nc|e];
      cbn [bind]; [|reflexivity].
    destruct (update int_to_char (slice_last c context_length) nc)
      as [[c1 s]|e]; [|reflexivity].
    rewrite IH.
    destruct (loop model draw context_length int_to_char n (S i) c1 (res ++ [s]))
      as [evs out].
    cbn [fst snd calls app map]; rewrite <- app_assoc; reflexivity.
Qed.

(** X11. [generate] calls the model once in every iteration it begins, on
    the truncated context and on nothing else.  Run with a model that
    records the contexts it is called on, [generate] gives the result it
    gives with the model itself, and what the model has recorded at the
    end is the list of the truncated contexts of the iterations: at most
    new_chars of them, exactly new_chars when [generate] returns, at
    least one when it raises. *)
Theorem model_calls_count (model : Tensor2 Z -> result (Tensor3 R))
        (draw : Sampler) (context_length : Z) (int_to_char : gmap Z pystr)
        (new_chars : nat) (context : Tensor2 Z) (log : list (Tensor2 Z))
        (out : result pystr) :
  generate_st (recording model) draw context_length int_to_char new_chars []
    context = (log, out) ->
  out = generate model draw context_length int_to_char new_chars context /\
  log = map snd (calls (fst (loop model draw context_length int_to_char
                               new_chars 0 context []))) /\
  Forall (fun rp => snd rp = slice_last (fst rp) context_length)
    (calls (fst (loop model draw context_length int_to_char new_chars 0
                   context []))) /\
  length log <= new_chars /\
  (forall s, out = Ok s -> length log = new_chars) /\
  (forall e, out = Raise e -> 1 <= length log).
Proof.
  unfold generate_st, generate; rewrite loop_st_recording; cbn [app].
  intros H; injection H as <- <-.
  destruct (loop_calls_count model draw int_to_char context_length new_chars 0
              context []) as (_ & H2 & H3 & H4).
  rewrite length_map.
  split; [reflexivity|split; [reflexivity|split; [|split; [exact H2|split]]]].
  - apply List.Forall_forall; intros [running passed] Hin.
    apply In_nth_error in Hin as (k & Hk).
    exact (proj1 (loop_call_raises model draw context_length int_to_char
                    new_chars 0 context [] k running passed Hk)).
  - intros s Hs.
    destruct (snd (loop model draw context_length int_to_char new_chars 0 context []))
      as [o|e] eqn:E; [|discriminate].
    exact (proj1 (H3 o eq_refl)).
  - intros e He.
    destruct (snd (loop model draw context_length int_to_char new_chars 0 context []))
      as [o|e'] eqn:E; [discriminate|].
    exact (H4 e' eq_refl).
Qed.

Lemma model_calls_count_witness :
  exists m log s,
    GPT.init theta0 4 8 8 1 2 = Ok m /\
    generate_st (recording (GPT.forward false rng0 m)) draw0 8 int_to_char0 2 []
      context0 = (log, Ok s) /\
    length log = 2.
Proof.
  destruct (GPT_init_ok theta0 4 8 8 1 2) as (m & Hm & Hwf).
  destruct (loop_ok (GPT.forward false rng0 m) draw0 8 int_to_char0
              (fun z => (0 <= z < Z.of_nat 4)%Z) (fun s => length s = 1) ltac:(lia)
              (GPT_model_accepts 4 8 8 1 2 false rng0 m Hwf divisible_8_2 ltac:(lia))
              2 0 context0 [] (draw0_ok _ 0 2 eq_refl) context0_single_row)
    as (evs & c' & res & Hl & _).
  destruct (generate_st (recording (GPT.forward false rng0 m)) draw0 8 int_to_char0
              2 [] context0) as [log out] eqn:E.
  destruct (model_calls_count (GPT.forward false rng0 m) draw0 8 int_to_char0 2
              context0 log out E) as (Hout & _ & _ & _ & H & _).
  assert (Hs : out = Ok (concat res))
    by (rewrite Hout; unfold generate; rewrite Hl; reflexivity).
  exists m, log, (concat res); split; [exact Hm|split].
  - rewrite E, Hs; reflexivity.
  - exact (H _ Hs).
Defined.

(** X12. Each iteration feeds its draw back.  When an iteration completes,
    the new running context is the window the model saw followed by the
    index just drawn, the character appended to the result is the entry
    of [int_to_char] for that index, and the next window ends with that
    index. *)
Theorem drawn_index_is_fed_back (model : Tensor2 Z -> result (Tensor3 R))
        (draw : Sampler) (context_length : Z) (int_to_char : gmap Z pystr)
        (i : nat) (c c' : Tensor2 Z) (s : pystr) :
  (0 < context_length)%Z ->
  snd (iteration model draw context_length int_to_char i c) = Ok (c', s) ->
  exists next_char,
    fst (iteration model draw context_length int_to_char i c)
    = [ModelCall c (slice_last c context_length); Sampled next_char] /\
    int_to_char !! (at2 next_char 0 0) = Some s /\
    cols c' = cols (slice_last c context_length) + 1 /\
    (forall t, t < cols (slice_last c context_length) ->
       at2 c' 0 t = at2 (slice_last c context_length) 0 t) /\
    at2 c' 0 (cols c' - 1) = at2 next_char 0 0 /\
    at2 (slice_last c' context_length) 0 (cols (slice_last c' context_length) - 1)
    = at2 next_char 0 0.
Proof.
  intros HL H.
  destruct (iteration_inv model draw context_length int_to_char i c c' s H)
    as (nc & Hev & _ & _ & _ & Hc' & Hkeep & Hlast & Hs).
  exists nc; split; [exact Hev|split; [exact Hs|split; [exact Hc'|]]].
  split; [intros t Ht; apply Hkeep; exact Ht|].
  assert (E : at2 c' 0 (cols c' - 1) = at2 nc 0 0).
  { rewrite Hc'; replace (cols (slice_last c context_length) + 1 - 1)
      with (cols (slice_last c context_length)) by lia; exact Hlast. }
  split; [exact E|].
  pose proof (slice_last_cols c' context_length HL) as Hw.
  rewrite slice_last_suffix by lia.
  rewrite <- E; f_equal; lia.
Qed.

Lemma drawn_index_is_fed_back_witness :
  exists m c' next_char,
    GPT.init theta0 4 8 8 1 2 = Ok m /\
    snd (iteration (GPT.forward false rng0 m) draw0 8 int_to_char0 0 context0)
    = Ok (c', [32%N]) /\
    at2 c' 0 (cols c' - 1) = at2 next_char 0 0.
Proof.
  destruct (GPT_init_ok theta0 4 8 8 1 2) as (m & Hm & Hwf).
  destruct (iteration_ok (GPT.forward false rng0 m) draw0 8 int_to_char0
              (fun z => (0 <= z < Z.of_nat 4)%Z) (fun s => s = [32%N]) 0 context0
              ltac:(lia)
              (GPT_model_accepts 4 8 8 1 2 false rng0 m Hwf divisible_8_2 ltac:(lia))
              (draw0_ok _ 0 1 eq_refl) context0_single_row)
    as (nc & c' & s & Hit & _ & _ & _ & -> & _).
  assert (H : snd (iteration (GPT.forward false rng0 m) draw0 8 int_to_char0 0
                     context0) = Ok (c', [32%N])) by (rewrite Hit; reflexivity).
  destruct (drawn_index_is_fed_back (GPT.forward false rng0 m) draw0 8 int_to_char0
              0 context0 c' [32%N] ltac:(lia) H) as (nc' & _ & _ & _ & _ & E & _).
  exists m, c', nc'; split; [exact Hm|split; [exact H|exact E]].
Defined.

(** X13. An empty starting context cannot be continued: with a GPT model
    and new_chars >= 1, the first iteration raises IndexError at
    [prediction[:, -1, :]], whatever context_length is passed. *)
Theorem generate_empty_context (theta : Params) (V C d nb nh : nat)
        (training : bool) (rng : nat -> nat -> Mask) (draw : Sampler)
        (context_length : Z) (int_to_char : gmap Z pystr) (new_chars : nat)
        (context : Tensor2 Z) :
  divisible d nh -> cols context = 0 -> 0 < new_chars ->
  exists m, GPT.init theta V C d nb nh = Ok m /\
    generate (GPT.forward training rng m) draw context_length int_to_char
      new_chars context = Raise IndexError.
Proof.
  intros Hdiv Hc Hn.
  destruct (GPT_init_ok theta V C d nb nh) as (m & Hm & Hwf).
  exists m; split; [exact Hm|].
  destruct new_chars as [|n]; [lia|].
  assert (Hv : cols (slice_last context context_length) = 0).
  { unfold slice_last; simpl; rewrite Hc; simpl.
    destruct (- context_length <? 0)%Z eqn:E;
      [apply Z.ltb_lt in E|apply Z.ltb_ge in E]; lia. }
  destruct (GPT_forward_shape V C d nb nh training rng m
              (slice_last context context_length) Hwf Hdiv)
    as (logits & Hl & Sl).
  { split; [lia|]; intros b t _ Ht; lia. }
  unfold shape3 in Sl; injection Sl as _ S1 _.
  assert (Hp : predict (GPT.forward training rng m) draw 0
                 (slice_last context context_length) = Raise IndexError).
  { unfold predict; rewrite Hl; cbn [bind].
    assert (E : dim1 logits = 0) by (rewrite S1; exact Hv).
    unfold select_last; rewrite E; reflexivity. }
  unfold generate; simpl loop; unfold iteration.
  rewrite Hp; reflexivity.
Qed.

Lemma generate_empty_context_witness :
  exists m, GPT.init theta0 4 8 8 1 2 = Ok m /\
    generate (GPT.forward false rng0 m) draw0 8 int_to_char0 2 context_empty
    = Raise IndexError.
Proof.
  exact (generate_empty_context theta0 4 8 8 1 2 false rng0 draw0 8 int_to_char0 2
           context_empty divisible_8_2 eq_refl ltac:(lia)).
Defined.

Lemma loop_keeps_single_row (model : Tensor2 Z -> result (Tensor3 R))
      (draw : Sampler) (context_length : Z) (int_to_char : gmap Z pystr)
      (tok : Z -> Prop) :
  (0 < context_length)%Z ->
  model_accepts model tok context_length ->
  forall n i c res evs c' res',
    draws_ok draw tok int_to_char (fun _ => True) i n ->
    single_row tok c ->
    loop model draw context_length int_to_char n i c res = (evs, Ok (c', res')) ->
    single_row tok c'.
Proof.
  intros HL Hm; induction n as [|n IH]; intros i c res evs c' res' Hd Hc Hl.
  - simpl in Hl; injection Hl as _ <- _; exact Hc.
  - simpl loop in Hl.
    destruct (iteration_ok model draw context_length int_to_char tok
                (fun _ => True) i c HL Hm)
      as (nc & c1 & s & Hit & _ & _ & _ & _ & Hc1);
      [intros j p ? ?; apply Hd; lia|exact Hc|].
    rewrite Hit in Hl.
    destruct (loop model draw context_length int_to_char n (S i) c1 (res ++ [s]))
      as [evs1 out] eqn:El.
    injection Hl as _ ->.
    apply (IH (S i) c1 (res ++ [s]) evs1 c' res'); [|exact Hc1|exact El].
    intros j p ? ?; apply Hd; lia.
Qed.

(** X14. A drawn index without an entry in [int_to_char] ends the run with
    KeyError, and the characters generated before it are not returned:
    when the first k draws are keys and the draw of iteration k < new_chars
    is not, [generate] raises KeyError. *)
Theorem generate_missing_key (model : Tensor2 Z -> result (Tensor3 R))
        (draw : Sampler) (context_length : Z) (int_to_char : gmap Z pystr)
        (tok : Z -> Prop) (new_chars k : nat) (context : Tensor2 Z) :
  (0 < context_length)%Z ->
  model_accepts model tok context_length ->
  single_row tok context ->
  k < new_chars ->
  draws_ok draw tok int_to_char (fun _ => True) 0 k ->
  (forall p, int_to_char !! (draw k p 0) = None) ->
  generate model draw context_length int_to_char new_chars context
  = Raise KeyError.
Proof.
  intros HL Hm Hc Hk Hd Hnone.
  replace new_chars with (k + S (new_chars - S k)) by lia.
  unfold generate; rewrite loop_add.
  destruct (loop_ok model draw context_length int_to_char tok (fun _ => True)
              HL Hm k 0 context [] Hd Hc)
    as (evs & c' & res & Hl & _ & _ & _ & _ & _).
  assert (Hc' : single_row tok c')
    by exact (loop_keeps_single_row model draw context_length int_to_char tok
                HL Hm k 0 context [] evs c' _ Hd Hc Hl).
  rewrite Hl; simpl.
  pose proof (iteration_key_error model draw context_length int_to_char tok k c'
                HL Hm Hc' Hnone) as Hit.
  destruct (iteration model draw context_length int_to_char k c') as [ev r].
  simpl in Hit; subst r; reflexivity.
Qed.

Lemma draw0_short_ok :
  draws_ok draw0 (fun z => (0 <= z < Z.of_nat 4)%Z) int_to_char_short
    (fun _ => True) 0 0.
Proof. intros j p ? ?; lia. Qed.

Lemma generate_missing_key_witness :
  exists m, GPT.init theta0 4 8 8 1 2 = Ok m /\
    generate (GPT.forward false rng0 m) draw0 8 int_to_char_short 2 context0
    = Raise KeyError.
Proof.
  destruct (GPT_init_ok theta0 4 8 8 1 2) as (m & Hm & Hwf).
  exists m; split; [exact Hm|].
  apply (generate_missing_key (GPT.forward false rng0 m) draw0 8 int_to_char_short
           (fun z => (0 <= z < Z.of_nat 4)%Z) 2 0 context0).
  - lia.
  - exact (GPT_model_accepts 4 8 8 1 2 false rng0 m Hwf divisible_8_2 ltac:(lia)).
  - exact context0_single_row.
  - lia.
  - exact draw0_short_ok.
  - intros p; reflexivity.
Defined.

Lemma GPT_model_logits (V C d nb nh : nat) (training : bool)
      (rng : nat -> nat -> Mask) (m : GPT.t) :
  gpt_wf V C d nb nh m -> divisible d nh ->
  model_logits (GPT.forward training rng m) V (Z.of_nat C).
Proof.
  intros Hwf Hdiv c (Hr & Hc & Htok) Hlen.
  destruct (GPT_forward_shape V C d nb nh training rng m c Hwf Hdiv)
    as (logits & Hl & Sl).
  - split; [lia|]; intros b t Hb Ht; rewrite Hr in Hb.
    replace b with 0 by lia; apply Htok; exact Ht.
  - unfold shape3 in Sl; injection Sl as S0 S1 S2.
    exists logits; split; [exact Hl|split; [lia|split; [lia|exact S2]]].
Qed.

Lemma Notebook_table_total (k : Z) :
  (0 <= k < Z.of_nat Notebook.vocab_size)%Z ->
  exists s, dict_of Notebook.int_to_char !! k = Some s /\ length s = 1.
Proof.
  intros Hk.
  assert (H : forallb (fun n =>
                match dict_of Notebook.int_to_char !! Z.of_nat n with
                | Some [_] => true
                | _ => false
                end) (seq 0 Notebook.vocab_size) = true)
    by (vm_compute; reflexivity).
  rewrite forallb_forall in H.
  specialize (H (Z.to_nat k)); rewrite Z2Nat.id in H by lia.
  destruct (dict_of Notebook.int_to_char !! k) as [[|ch [|]]|];
    try (exfalso; apply diff_false_true, H, in_seq; lia).
  exists [ch]; split; reflexivity.
Qed.

Lemma draw_first_in_range : sampler_in_range draw_first.
Proof. intros i p b Hp; unfold draw_first; lia. Qed.

(** X15. [generate] with a GPT model runs to the end.  For a model built
    with model_dim % num_heads == 0, the context_length the model was
    built with (at least 1), a vocabulary table with a one-character entry
    for every index below vocab_size, a sampler that returns indices of
    the distribution it is given, and a starting context of one row of at
    least one token, [generate] returns a string of exactly new_chars
    characters: no IndexError, RuntimeError or KeyError. *)
Theorem generate_with_GPT (theta : Params) (V C d nb nh : nat) (training : bool)
        (rng : nat -> nat -> Mask) (draw : Sampler) (items : list (Z * pystr))
        (new_chars : nat) (context : Tensor2 Z) :
  0 < V -> 0 < C -> divisible d nh ->
  sampler_in_range draw ->
  (forall k, (0 <= k < Z.of_nat V)%Z ->
     exists s, dict_of items !! k = Some s /\ length s = 1) ->
  single_row (fun z => (0 <= z < Z.of_nat V)%Z) context ->
  exists m s,
    GPT.init theta V C d nb nh = Ok m /\
    generate (GPT.forward training rng m) draw (Z.of_nat C) (dict_of items)
      new_chars context = Ok s /\
    length s = new_chars.
Proof.
  intros HV HC Hdiv Hd Htable Hc.
  destruct (GPT_init_ok theta V C d nb nh) as (m & Hm & Hwf).
  destruct (loop_ok_contract (GPT.forward training rng m) draw (Z.of_nat C)
              (dict_of items) V (fun s => length s = 1) ltac:(lia) HV
              (GPT_model_logits V C d nb nh training rng m Hwf Hdiv) Hd Htable
              new_chars 0 context [] Hc)
    as (evs & c' & res & Hl & Lr & FP & _).
  simpl in Hl.
  exists m, (concat res); split; [exact Hm|split].
  - unfold generate; rewrite Hl; reflexivity.
  - rewrite concat_singletons; assumption.
Qed.

Lemma Notebook_divisible : divisible Notebook.model_dim Notebook.num_heads.
Proof. split; [unfold Notebook.num_heads; lia|reflexivity]. Qed.

Lemma context1_tokens :
  single_row (fun z => (0 <= z < Z.of_nat Notebook.vocab_size)%Z) context1.
Proof. unfold Notebook.vocab_size; repeat split; simpl; lia. Qed.

Lemma generate_with_GPT_witness :
  exists m s,
    GPT.init theta0 Notebook.vocab_size Notebook.context_length Notebook.model_dim
      Notebook.num_blocks Notebook.num_heads = Ok m /\
    generate (GPT.forward false rng0 m) draw_first
      (Z.of_nat Notebook.context_length) (dict_of Notebook.int_to_char)
      280 context1 = Ok s /\
    length s = 280.
Proof.
  apply (generate_with_GPT theta0 Notebook.vocab_size Notebook.context_length
           Notebook.model_dim Notebook.num_blocks Notebook.num_heads false rng0
           draw_first Notebook.int_to_char 280 context1).
  - unfold Notebook.vocab_size; lia.
  - unfold Notebook.context_length; lia.
  - exact Notebook_divisible.
  - exact draw_first_in_range.
  - exact Notebook_table_total.
  - exact context1_tokens.
Defined.

(** ** context_length = 0 *)

Lemma slice_last_zero_single_row (tok : Z -> Prop) (c : Tensor2 Z) :
  single_row tok c -> single_row tok (slice_last c 0).
Proof.
  intros (Hr & Hc & Htok).
  destruct (slice_last_zero c) as (Hcols & Hat).
  split; [exact Hr|split; [lia|]].
  intros t Ht; rewrite Hat; apply Htok; lia.
Qed.

(** Without truncation the loop runs as long as the model accepts the
    growing context. *)
Lemma loop_ok_unbounded (model : Tensor2 Z -> result (Tensor3 R))
      (draw : Sampler) (int_to_char : gmap Z pystr) (V : nat) (L : Z)
      (P : pystr -> Prop) :
  0 < V ->
  model_logits model V L ->
  sampler_in_range draw ->
  (forall k, (0 <= k < Z.of_nat V)%Z ->
     exists s, int_to_char !! k = Some s /\ P s) ->
  forall n i c res,
    single_row (fun z => (0 <= z < Z.of_nat V)%Z) c ->
    n = 0 \/ (Z.of_nat (cols c + n) <= L + 1)%Z ->
    exists evs c' res',
      loop model draw 0 int_to_char n i c res = (evs, Ok (c', res ++ res')) /\
      length res' = n /\ Forall P res' /\
      single_row (fun z => (0 <= z < Z.of_nat V)%Z) c' /\
      cols c' = cols c + n.
Proof.
  intros HV Hm Hd Htable; induction n as [|n IH]; intros i c res Hc Hn.
  - exists [], c, []; simpl; rewrite app_nil_r.
    split; [reflexivity|split; [reflexivity|split; [constructor|split; [exact Hc|lia]]]].
  - destruct Hn as [Hn|Hn]; [discriminate|].
    pose proof (slice_last_zero_single_row _ c Hc) as Hv.
    destruct (slice_last_zero c) as (Hcols & _).
    simpl loop; unfold iteration.
    remember (slice_last c 0) as view eqn:Hview.
    destruct (predict_ok_contract model draw L V i view HV Hm Hd Hv)
      as (nc & Hnc & N0 & N1 & Nr); [lia|].
    destruct (Htable _ Nr) as (s & Hs & HP).
    rewrite Hnc.
    unfold update, cat_tokens, item, getitem.
    pose proof Hv as (V0 & V1 & Vtok).
    rewrite V0, N0, N1; simpl.
    rewrite Hs; simpl.
    match goal with
    | |- context [loop _ _ _ _ n (S i) ?c1 _] => set (c1' := c1)
    end.
    destruct (IH (S i) c1' (res ++ [s])) as (evs & c' & res' & Hl & Lr & FP & Hc' & Hcc).
    { subst c1'; split; [reflexivity|split; [simpl; lia|]].
      intros t Ht; simpl in Ht |- *.
      destruct (t <? cols view) eqn:E.
      - apply Nat.ltb_lt in E; apply Vtok; exact E.
      - apply Nat.ltb_ge in E; replace (t - cols view) with 0 by lia; exact Nr. }
    { right; subst c1'; simpl; lia. }
    rewrite Hl.
    exists ([ModelCall c view; Sampled nc] ++ evs), c', (s :: res').
    split; [rewrite <- app_assoc; reflexivity|].
    simpl; split; [lia|split; [constructor; assumption|split; [exact Hc'|]]].
    rewrite Hcc; subst c1'; simpl; lia.
Qed.

Lemma GPT_forward_too_long (V C d nb nh : nat) (training : bool)
      (rng : nat -> nat -> Mask) (m : GPT.t) (context : Tensor2 Z) :
  gpt_wf V C d nb nh m -> 0 < V -> 0 < C -> 0 < d -> C < cols context ->
  GPT.forward training rng m context = Raise IndexError.
Proof.
  intros Hwf HV HC Hd HT.
  destruct (GPT_forward_length_error V C d nb nh training rng m context Hwf HT)
    as (e & He & _ & Hcls).
  rewrite He, Hcls; [reflexivity| | |]; assumption.
Qed.

Lemma generate_unbounded (theta : Params) (V C d nb nh : nat) (training : bool)
      (rng : nat -> nat -> Mask) (draw : Sampler) (int_to_char : gmap Z pystr)
      (new_chars : nat) (context : Tensor2 Z) (m : GPT.t) :
  0 < V -> 0 < C -> 0 < d -> divisible d nh ->
  sampler_in_range draw ->
  (forall k, (0 <= k < Z.of_nat V)%Z ->
     exists s, int_to_char !! k = Some s /\ length s = 1) ->
  single_row (fun z => (0 <= z < Z.of_nat V)%Z) context ->
  gpt_wf V C d nb nh m ->
  (new_chars = 0 \/ cols context + new_chars <= C + 1 ->
   exists s,
     generate (GPT.forward training rng m) draw 0 int_to_char new_chars context
     = Ok s /\ length s = new_chars) /\
  (0 < new_chars -> C + 1 < cols context + new_chars ->
   generate (GPT.forward training rng m) draw 0 int_to_char new_chars context
   = Raise IndexError).
Proof.
  intros HV HC Hd Hdiv Hdraw Htable Hc Hwf.
  pose proof (GPT_model_logits V C d nb nh training rng m Hwf Hdiv) as Hm.
  split.
  - intros Hn.
    destruct (loop_ok_unbounded (GPT.forward training rng m) draw int_to_char V
                (Z.of_nat C) (fun s => length s = 1) HV Hm Hdraw Htable
                new_chars 0 context [] Hc)
      as (evs & c' & res & Hl & Lr & FP & _); [destruct Hn; [left; assumption|right; lia]|].
    simpl in Hl.
    exists (concat res); split; [unfold generate; rewrite Hl; reflexivity|].
    rewrite concat_singletons; assumption.
  - intros Hpos Hlong.
    set (k0 := C + 1 - cols context).
    assert (Hk : new_chars = k0 + S (new_chars - k0 - 1)) by (subst k0; lia).
    destruct (loop_ok_unbounded (GPT.forward training rng m) draw int_to_char V
                (Z.of_nat C) (fun s => length s = 1) HV Hm Hdraw Htable
                k0 0 context [] Hc)
      as (evs & c' & res & Hl & _ & _ & Hc' & Hcc);
      [destruct k0 eqn:E; [left; reflexivity|right; lia]|].
    simpl in Hl.
    unfold generate; rewrite Hk, loop_add, Hl.
    cbn [loop Nat.add].
    rewrite (iteration_raise (GPT.forward training rng m) draw 0 int_to_char
               k0 c' IndexError).
    + reflexivity.
    + apply (GPT_forward_too_long V C d nb nh); try assumption.
      destruct (slice_last_zero c') as (-> & _); subst k0; lia.
Qed.

(** X10. context_length = 0 does not bound the window: the slice
    [context[:, -0:]] is the whole context, so the model is called on
    T0 + k tokens in iteration k.  With a GPT model of context_length
    C >= 1, a sampler that returns indices of the distribution it is
    given, a table with a one-character entry for every index below
    vocab_size and a starting context of one row of T0 >= 1 tokens,
    [generate] called with context_length = 0 returns its new_chars
    characters as long as T0 + new_chars - 1 <= C, and raises IndexError,
    from the positional embedding, for every larger new_chars. *)
Theorem zero_context_length_keeps_all (theta : Params) (V C d nb nh : nat)
        (training : bool) (rng : nat -> nat -> Mask) (draw : Sampler)
        (int_to_char : gmap Z pystr) (new_chars : nat) (context : Tensor2 Z) :
  0 < V -> 0 < C -> 0 < d -> divisible d nh ->
  sampler_in_range draw ->
  (forall k, (0 <= k < Z.of_nat V)%Z ->
     exists s, int_to_char !! k = Some s /\ length s = 1) ->
  single_row (fun z => (0 <= z < Z.of_nat V)%Z) context ->
  (cols (slice_last context 0) = cols context /\
   forall b t, at2 (slice_last context 0) b t = at2 context b t) /\
  exists m,
    GPT.init theta V C d nb nh = Ok m /\
    (new_chars = 0 \/ cols context + new_chars <= C + 1 ->
     exists s,
       generate (GPT.forward training rng m) draw 0 int_to_char new_chars context
       = Ok s /\ length s = new_chars) /\
    (0 < new_chars -> C + 1 < cols context + new_chars ->
     generate (GPT.forward training rng m) draw 0 int_to_char new_chars context
     = Raise IndexError).
Proof.
  intros HV HC Hd Hdiv Hdraw Htable Hc.
  split; [exact (slice_last_zero context)|].
  destruct (GPT_init_ok theta V C d nb nh) as (m & Hm & Hwf).
  exists m; split; [exact Hm|].
  exact (generate_unbounded theta V C d nb nh training rng draw int_to_char
           new_chars context m HV HC Hd Hdiv Hdraw Htable Hc Hwf).
Qed.

Lemma int_to_char0_total (k : Z) :
  (0 <= k < Z.of_nat 4)%Z ->
  exists s, int_to_char0 !! k = Some s /\ length s = 1.
Proof.
  intros Hk.
  assert (H : (k = 0 \/ k = 1 \/ k = 2 \/ k = 3)%Z) by lia.
  destruct H as [-> | [-> | [-> | ->]]]; eexists; split; reflexivity.
Qed.

Lemma context1_tokens4 :
  single_row (fun z => (0 <= z < Z.of_nat 4)%Z) context1.
Proof. repeat split; simpl; lia. Qed.

Lemma zero_context_length_keeps_all_witness :
  exists m s,
    GPT.init theta0 4 2 8 1 2 = Ok m /\
    generate (GPT.forward false rng0 m) draw_first 0 int_to_char0 2 context1 = Ok s /\
    length s = 2 /\
    generate (GPT.forward false rng0 m) draw_first 0 int_to_char0 3 context1
    = Raise IndexError.
Proof.
  destruct (zero_context_length_keeps_all theta0 4 2 8 1 2 false rng0 draw_first
              int_to_char0 2 context1 ltac:(lia) ltac:(lia) ltac:(lia)
              divisible_8_2 draw_first_in_range int_to_char0_total
              context1_tokens4) as (_ & m & Hm & Hok & _).
  destruct (zero_context_length_keeps_all theta0 4 2 8 1 2 false rng0 draw_first
              int_to_char0 3 context1 ltac:(lia) ltac:(lia) ltac:(lia)
              divisible_8_2 draw_first_in_range int_to_char0_total
              context1_tokens4) as (_ & m' & Hm' & _ & Hraise).
  rewrite Hm in Hm'; injection Hm' as <-.
  destruct Hok as (s & Hs & Ls); [right; simpl; lia|].
  exists m, s; split; [exact Hm|split; [exact Hs|split; [exact Ls|]]].
  apply Hraise; simpl; lia.
Defined.

Lemma encode_drawn (items : list (Z * pystr)) :
  List.NoDup (map snd items) ->
  forall (ks : list (Tensor2 Z)) (res : list pystr),
    map (fun nc => dict_of items !! (at2 nc 0 0)) ks = map Some res ->
    Forall (fun s => length s = 1) res ->
    omap (fun c => char_to_int_of items !! [c]) (concat res)
    = map (fun nc => at2 nc 0 0) ks.
Proof.
  intros Hnd; induction ks as [|nc ks IH]; intros res Hmap Hres.
  - destruct res; [reflexivity|discriminate].
  - destruct res as [|s res]; [discriminate|].
    simpl in Hmap; injection Hmap as Hs Hmap.
    apply Forall_cons_iff in Hres as [Ls Hres].
    destruct s as [|ch [|]]; try discriminate.
    pose proof (char_to_int_encodes_aux items [ch] _ Hnd Hs) as E.
    change (concat ([ch] :: res)) with (ch :: concat res).
    transitivity (at2 nc 0 0 :: omap (fun c => char_to_int_of items !! [c]) (concat res)).
    + simpl; unfold pystr in *; rewrite E; reflexivity.
    + simpl; f_equal; apply IH; assumption.
Qed.

(** X16. What [generate] returns encodes back to what was drawn: under the
    conditions of X15 and with no character shared by two indices, the
    dataset built from the generated string holds exactly the drawn
    indices, in order. *)
Theorem generated_text_encodes_back (theta : Params) (V C d nb nh : nat)
        (training : bool) (rng : nat -> nat -> Mask) (draw : Sampler)
        (items : list (Z * pystr)) (new_chars : nat) (context : Tensor2 Z) :
  0 < V -> 0 < C -> divisible d nh ->
  sampler_in_range draw ->
  (forall k, (0 <= k < Z.of_nat V)%Z ->
     exists s, dict_of items !! k = Some s /\ length s = 1) ->
  List.NoDup (map snd items) ->
  single_row (fun z => (0 <= z < Z.of_nat V)%Z) context ->
  exists m evs c' res,
    GPT.init theta V C d nb nh = Ok m /\
    loop (GPT.forward training rng m) draw (Z.of_nat C) (dict_of items)
      new_chars 0 context [] = (evs, Ok (c', res)) /\
    generate (GPT.forward training rng m) draw (Z.of_nat C) (dict_of items)
      new_chars context = Ok (concat res) /\
    TweetDataset.__init__ (char_to_int_of items) (concat res)
    = Ok (TweetDataset.mk (map (fun nc => at2 nc 0 0) (sampled evs))).
Proof.
  intros HV HC Hdiv Hd Htable Hnd Hc.
  destruct (GPT_init_ok theta V C d nb nh) as (m & Hm & Hwf).
  destruct (loop_ok_contract (GPT.forward training rng m) draw (Z.of_nat C)
              (dict_of items) V (fun s => length s = 1) ltac:(lia) HV
              (GPT_model_logits V C d nb nh training rng m Hwf Hdiv) Hd Htable
              new_chars 0 context [] Hc)
    as (evs & c' & res & Hl & Lr & FP & _ & Hmap).
  simpl in Hl.
  exists m, evs, c', res; split; [exact Hm|split; [exact Hl|split]].
  - unfold generate; rewrite Hl; reflexivity.
  - unfold TweetDataset.__init__; rewrite comprehension_omap; simpl.
    rewrite (encode_drawn items Hnd (sampled evs) res Hmap FP); reflexivity.
Qed.

Lemma generated_text_encodes_back_witness :
  exists m evs c' res,
    GPT.init theta0 Notebook.vocab_size Notebook.context_length Notebook.model_dim
      Notebook.num_blocks Notebook.num_heads = Ok m /\
    loop (GPT.forward false rng0 m) draw_first (Z.of_nat Notebook.context_length)
      (dict_of Notebook.int_to_char) 3 0 context1 [] = (evs, Ok (c', res)) /\
    TweetDataset.__init__ Notebook.char_to_int (concat res)
    = Ok (TweetDataset.mk (map (fun nc => at2 nc 0 0) (sampled evs))).
Proof.
  destruct (generated_text_encodes_back theta0 Notebook.vocab_size
              Notebook.context_length Notebook.model_dim Notebook.num_blocks
              Notebook.num_heads false rng0 draw_first Notebook.int_to_char 3
              context1)
    as (m & evs & c' & res & Hm & Hl & _ & He).
  - unfold Notebook.vocab_size; lia.
  - unfold Notebook.context_length; lia.
  - exact Notebook_divisible.
  - exact draw_first_in_range.
  - exact Notebook_table_total.
  - exact Notebook_chars_NoDup.
  - exact context1_tokens.
  - exists m, evs, c', res; split; [exact Hm|split; [exact Hl|exact He]].
Defined.

(** ** Rows of a batch are processed independently *)

Lemma Linear_forward_row (l : Linear.t) (b1 b2 : nat) (x1 x2 y1 y2 : Tensor3 R) :
  same_row b1 b2 x1 x2 ->
  Linear.forward l x1 = Ok y1 -> Linear.forward l x2 = Ok y2 ->
  same_row b1 b2 y1 y2.
Proof.
  intros (X1 & X2 & Hat) H1 H2.
  apply Linear_forward_inv in H1 as (Hin & _ & E1 & E2 & Ey1).
  apply Linear_forward_inv in H2 as (_ & _ & F1 & F2 & Ey2).
  split; [congruence|split; [congruence|]].
  intros t o Ht Ho; rewrite Ey1, Ey2; f_equal.
  apply sum_upto_ext; intros k Hk; rewrite Hat; [reflexivity| |]; lia.
Qed.

Lemma LayerNorm_forward_row (ln : LayerNorm.t) (b1 b2 : nat)
      (x1 x2 y1 y2 : Tensor3 R) :
  same_row b1 b2 x1 x2 ->
  LayerNorm.forward ln x1 = Ok y1 -> LayerNorm.forward ln x2 = Ok y2 ->
  same_row b1 b2 y1 y2.
Proof.
  intros (X1 & X2 & Hat) H1 H2.
  unfold LayerNorm.forward in H1, H2.
  destruct (dim2 x1 =? _) eqn:E1 in H1; [|discriminate].
  destruct (dim2 x2 =? _) in H2; [|discriminate].
  apply Nat.eqb_eq in E1.
  injection H1 as <-; injection H2 as <-.
  split; [exact X1|split; [exact X2|]]; simpl.
  intros t k Ht Hk.
  assert (Hrow : forall j, j < LayerNorm.normalized_shape ln ->
                           at3 x1 b1 t j = at3 x2 b2 t j).
  { intros j Hj; apply Hat; lia. }
  assert (Hmu : LayerNorm.mean (LayerNorm.normalized_shape ln) (at3 x1 b1 t)
                = LayerNorm.mean (LayerNorm.normalized_shape ln) (at3 x2 b2 t)).
  { unfold LayerNorm.mean; f_equal; apply sum_upto_ext; exact Hrow. }
  rewrite Hmu, (Hrow k) by lia.
  do 4 f_equal.
  unfold LayerNorm.mean; do 2 f_equal.
  apply sum_upto_ext; intros j Hj; rewrite (Hrow j Hj); reflexivity.
Qed.

Lemma relu_row (b1 b2 : nat) (x1 x2 : Tensor3 R) :
  same_row b1 b2 x1 x2 -> same_row b1 b2 (relu x1) (relu x2).
Proof.
  intros (X1 & X2 & Hat); split; [exact X1|split; [exact X2|]]; simpl.
  intros t k Ht Hk; rewrite Hat by assumption; reflexivity.
Qed.

Lemma add_row (b1 b2 : nat) (x1 x2 y1 y2 z1 z2 : Tensor3 R) :
  same_row b1 b2 x1 x2 -> same_row b1 b2 y1 y2 ->
  add x1 y1 = Ok z1 -> add x2 y2 = Ok z2 -> same_row b1 b2 z1 z2.
Proof.
  intros (X1 & X2 & HX) (Y1 & Y2 & HY) H1 H2.
  apply add_inv in H1 as (S1 & T1 & E1), H2 as (S2 & T2 & E2).
  apply shape3_inv in S1 as (? & ? & ?), T1 as (? & ? & ?).
  apply shape3_inv in S2 as (? & ? & ?), T2 as (? & ? & ?).
  split; [congruence|split; [congruence|]].
  intros t k Ht Hk; rewrite E1, E2, HX, HY; [reflexivity| | | |]; lia.
Qed.

Lemma SHA_forward_row (h : SingleHeadAttention.t) (b1 b2 : nat)
      (x1 x2 o1 o2 : Tensor3 R) :
  same_row b1 b2 x1 x2 ->
  SingleHeadAttention.forward h x1 = Ok o1 ->
  SingleHeadAttention.forward h x2 = Ok o2 ->
  same_row b1 b2 o1 o2.
Proof.
  intros Hrow H1 H2.
  apply SHA_forward_inv in H1 as (w1 & V1 & Hw1 & Hs1 & Ho1).
  apply SHA_forward_inv in H2 as (w2 & V2 & Hw2 & Hs2 & Ho2).
  apply weights_inv in Hw1 as (K1 & Q1 & HK1 & HQ1 & HV1 & E1 & _ & Hat1).
  apply weights_inv in Hw2 as (K2 & Q2 & HK2 & HQ2 & HV2 & E2 & _ & Hat2).
  pose proof (Linear_forward_row _ b1 b2 _ _ _ _ Hrow HK1 HK2) as (KT & KD & HK).
  pose proof (Linear_forward_row _ b1 b2 _ _ _ _ Hrow HQ1 HQ2) as (QT & QD & HQ).
  pose proof (Linear_forward_row _ b1 b2 _ _ _ _ Hrow HV1 HV2) as (VT & VD & HV).
  apply Linear_forward_inv in HK1 as (_ & _ & K1T & _).
  apply Linear_forward_inv in HQ1 as (_ & _ & Q1T & _).
  apply Linear_forward_inv in HV1 as (_ & _ & V1T & _).
  destruct Hrow as (XT & XD & _).
  unfold shape3 in Hs1, Hs2; injection Hs1 as S0 S1 S2; injection Hs2 as T0 T1 T2.
  assert (Hme : forall i j, i < dim1 x1 -> j < dim1 x1 ->
                  masked_exp Q1 K1 b1 i j = masked_exp Q2 K2 b2 i j).
  { intros i j Hi Hj; unfold masked_exp, score.
    destruct (j <=? i); [|reflexivity].
    rewrite <- QD, <- KD; do 2 f_equal.
    apply sum_upto_ext; intros a Ha.
    rewrite HQ, HK; [reflexivity| | | |]; lia. }
  split; [congruence|split; [congruence|]].
  intros t a Ht Ha; rewrite Ho1, Ho2, <- XT.
  apply sum_upto_ext; intros j Hj.
  rewrite Hat1, Hat2, <- XT, HV by lia.
  f_equal; f_equal.
  - apply Hme; lia.
  - apply sum_upto_ext; intros k Hk; apply Hme; lia.
Qed.

Lemma heads_forward_row (b1 b2 : nat) (heads : list SingleHeadAttention.t)
      (x1 x2 : Tensor3 R) (l1 l2 : list (Tensor3 R)) :
  same_row b1 b2 x1 x2 ->
  mapM (fun head => SingleHeadAttention.forward head x1) heads = Ok l1 ->
  mapM (fun head => SingleHeadAttention.forward head x2) heads = Ok l2 ->
  Forall2 (same_row b1 b2) l1 l2.
Proof.
  intros Hrow; revert l1 l2; induction heads as [|h heads IH]; simpl; intros l1 l2 H1 H2.
  - injection H1 as <-; injection H2 as <-; constructor.
  - apply bind_Ok in H1 as (o1 & Ho1 & H1), H2 as (o2 & Ho2 & H2).
    apply bind_Ok in H1 as (r1 & Hr1 & H1), H2 as (r2 & Hr2 & H2).
    injection H1 as <-; injection H2 as <-; constructor.
    + exact (SHA_forward_row h b1 b2 x1 x2 o1 o2 Hrow Ho1 Ho2).
    + apply IH; assumption.
Qed.

Lemma cat_row (b1 b2 : nat) (l1 l2 : list (Tensor3 R)) (c1 c2 : Tensor3 R) :
  Forall2 (same_row b1 b2) l1 l2 -> cat l1 = Ok c1 -> cat l2 = Ok c2 ->
  same_row b1 b2 c1 c2.
Proof.
  intros H; revert c1 c2; induction H as [|x1 x2 l1 l2 Hx Hl IH]; intros c1 c2 H1 H2.
  - discriminate.
  - destruct Hl as [|y1 y2 l1 l2 Hy Hl].
    + simpl in H1, H2; injection H1 as <-; injection H2 as <-; exact Hx.
    + change (cat (x1 :: y1 :: l1)) with (r <- cat (y1 :: l1) ;; cat2 x1 r) in H1.
      change (cat (x2 :: y2 :: l2)) with (r <- cat (y2 :: l2) ;; cat2 x2 r) in H2.
      apply bind_Ok in H1 as (r1 & Hr1 & H1), H2 as (r2 & Hr2 & H2).
      specialize (IH r1 r2 Hr1 Hr2).
      apply cat2_inv in H1 as (A0 & A1 & SA & EA), H2 as (B0 & B1 & SB & EB).
      unfold shape3 in SA, SB; injection SA as ? ? ?; injection SB as ? ? ?.
      destruct Hx as (X1 & X2 & HX), IH as (R1 & R2 & HR).
      split; [congruence|split; [congruence|]].
      intros t k Ht Hk; rewrite EA, EB, <- X2.
      destruct (k <? dim2 x1) eqn:E.
      * apply Nat.ltb_lt in E; apply HX; lia.
      * apply Nat.ltb_ge in E; apply HR; lia.
Qed.

Lemma MHSA_forward_row (keep1 keep2 : Mask) (m : MultiHeadedSelfAttention.t)
      (b1 b2 : nat) (x1 x2 y1 y2 : Tensor3 R) :
  same_row b1 b2 x1 x2 ->
  MultiHeadedSelfAttention.forward false keep1 m x1 = Ok y1 ->
  MultiHeadedSelfAttention.forward false keep2 m x2 = Ok y2 ->
  same_row b1 b2 y1 y2.
Proof.
  intros Hrow H1 H2; unfold MultiHeadedSelfAttention.forward in H1, H2.
  apply bind_Ok in H1 as (l1 & Hl1 & H1), H2 as (l2 & Hl2 & H2).
  apply bind_Ok in H1 as (c1 & Hc1 & H1), H2 as (c2 & Hc2 & H2).
  apply bind_Ok in H1 as (z1 & Hz1 & H1), H2 as (z2 & Hz2 & H2).
  simpl in H1, H2; injection H1 as <-; injection H2 as <-.
  pose proof (heads_forward_row b1 b2 _ x1 x2 l1 l2 Hrow Hl1 Hl2) as Hl.
  pose proof (cat_row b1 b2 l1 l2 c1 c2 Hl Hc1 Hc2) as Hc.
  exact (Linear_forward_row _ b1 b2 c1 c2 z1 z2 Hc Hz1 Hz2).
Qed.

Lemma VNN_forward_row (keep1 keep2 : Mask) (n : VanillaNeuralNetwork.t)
      (b1 b2 : nat) (x1 x2 y1 y2 : Tensor3 R) :
  same_row b1 b2 x1 x2 ->
  VanillaNeuralNetwork.forward false keep1 n x1 = Ok y1 ->
  VanillaNeuralNetwork.forward false keep2 n x2 = Ok y2 ->
  same_row b1 b2 y1 y2.
Proof.
  intros Hrow H1 H2; unfold VanillaNeuralNetwork.forward in H1, H2.
  apply bind_Ok in H1 as (h1 & Hh1 & H1), H2 as (h2 & Hh2 & H2).
  apply bind_Ok in H1 as (z1 & Hz1 & H1), H2 as (z2 & Hz2 & H2).
  simpl in H1, H2; injection H1 as <-; injection H2 as <-.
  pose proof (Linear_forward_row _ b1 b2 _ _ _ _ Hrow Hh1 Hh2) as Hh.
  exact (Linear_forward_row _ b1 b2 _ _ _ _ (relu_row b1 b2 h1 h2 Hh) Hz1 Hz2).
Qed.

Lemma TransformerBlock_forward_row (keeps1 keeps2 : nat -> Mask)
      (blk : TransformerBlock.t) (b1 b2 : nat) (x1 x2 y1 y2 : Tensor3 R) :
  same_row b1 b2 x1 x2 ->
  TransformerBlock.forward false keeps1 blk x1 = Ok y1 ->
  TransformerBlock.forward false keeps2 blk x2 = Ok y2 ->
  same_row b1 b2 y1 y2.
Proof.
  intros Hrow H1 H2; unfold TransformerBlock.forward in H1, H2.
  apply bind_Ok in H1 as (n1 & Hn1 & H1), H2 as (n2 & Hn2 & H2).
  apply bind_Ok in H1 as (a1 & Ha1 & H1), H2 as (a2 & Ha2 & H2).
  apply bind_Ok in H1 as (e1 & He1 & H1), H2 as (e2 & He2 & H2).
  apply bind_Ok in H1 as (m1 & Hm1 & H1), H2 as (m2 & Hm2 & H2).
  apply bind_Ok in H1 as (f1 & Hf1 & H1), H2 as (f2 & Hf2 & H2).
  apply bind_Ok in H1 as (z1 & Hz1 & H1), H2 as (z2 & Hz2 & H2).
  injection H1 as <-; injection H2 as <-.
  pose proof (LayerNorm_forward_row _ b1 b2 _ _ _ _ Hrow Hn1 Hn2) as An.
  pose proof (MHSA_forward_row _ _ _ b1 b2 _ _ _ _ An Ha1 Ha2) as Aa.
  pose proof (add_row b1 b2 _ _ _ _ _ _ Hrow Aa He1 He2) as Ae.
  pose proof (LayerNorm_forward_row _ b1 b2 _ _ _ _ Ae Hm1 Hm2) as Am.
  pose proof (VNN_forward_row _ _ _ b1 b2 _ _ _ _ Am Hf1 Hf2) as Af.
  exact (add_row b1 b2 _ _ _ _ _ _ Ae Af Hz1 Hz2).
Qed.

Lemma sequential_row (rng1 rng2 : nat -> nat -> Mask) (b1 b2 : nat)
      (blocks : list TransformerBlock.t) :
  forall k1 k2 x1 x2 y1 y2,
    same_row b1 b2 x1 x2 ->
    sequential false rng1 k1 blocks x1 = Ok y1 ->
    sequential false rng2 k2 blocks x2 = Ok y2 ->
    same_row b1 b2 y1 y2.
Proof.
  induction blocks as [|blk blocks IH]; simpl; intros k1 k2 x1 x2 y1 y2 Hrow H1 H2.
  - injection H1 as <-; injection H2 as <-; exact Hrow.
  - apply bind_Ok in H1 as (z1 & Hz1 & H1), H2 as (z2 & Hz2 & H2).
    apply (IH (S k1) (S k2) z1 z2); try assumption.
    exact (TransformerBlock_forward_row _ _ _ b1 b2 _ _ _ _ Hrow Hz1 Hz2).
Qed.

Lemma GPT_forward_row (rng1 rng2 : nat -> nat -> Mask) (m : GPT.t)
      (b1 b2 : nat) (c1 c2 : Tensor2 Z) (l1 l2 : Tensor3 R) :
  cols c1 = cols c2 ->
  (forall t, t < cols c1 -> at2 c1 b1 t = at2 c2 b2 t) ->
  GPT.forward false rng1 m c1 = Ok l1 ->
  GPT.forward false rng2 m c2 = Ok l2 ->
  same_row b1 b2 l1 l2.
Proof.
  intros HT Htok H1 H2; unfold GPT.forward in H1, H2.
  apply bind_Ok in H1 as (te1 & Hte1 & H1), H2 as (te2 & Hte2 & H2).
  apply bind_Ok in H1 as (pe1 & Hpe1 & H1), H2 as (pe2 & Hpe2 & H2).
  apply bind_Ok in H1 as (e1 & He1 & H1), H2 as (e2 & He2 & H2).
  apply bind_Ok in H1 as (o1 & Ho1 & H1), H2 as (o2 & Ho2 & H2).
  apply bind_Ok in H1 as (n1 & Hn1 & H1), H2 as (n2 & Hn2 & H2).
  apply Embedding_forward_inv in Hte1 as (_ & S1 & T1), Hte2 as (_ & S2 & T2).
  apply positions_inv in Hpe1 as (_ & _ & _ & P1), Hpe2 as (_ & _ & _ & P2).
  unfold shape3 in S1, S2; injection S1 as A0 A1 A2; injection S2 as B0 B1 B2.
  assert (Ae : same_row b1 b2 e1 e2).
  { unfold add_broadcast in He1, He2.
    destruct (_ && _) in He1; [|discriminate].
    destruct (_ && _) in He2; [|discriminate].
    injection He1 as <-; injection He2 as <-.
    split; [simpl; congruence|split; [simpl; congruence|]]; simpl.
    intros t k Ht Hk.
    rewrite T1, T2, P1, P2, Htok; [reflexivity|lia]. }
  pose proof (sequential_row rng1 rng2 b1 b2 _ 0 0 e1 e2 o1 o2 Ae Ho1 Ho2) as Ao.
  pose proof (LayerNorm_forward_row _ b1 b2 _ _ _ _ Ao Hn1 Hn2) as An.
  exact (Linear_forward_row _ b1 b2 n1 n2 l1 l2 An H1 H2).
Qed.

Lemma context_pair_valid : valid_context 4 8 context_pair.
Proof.
  split; [simpl; lia|]; intros b t _ Ht; simpl in *.
  destruct (b =? 0); lia.
Qed.

(** X17. Batching does not change a row.  In inference mode the logits of
    a row depend on the tokens of that row only: if row b1 of one valid
    context and row b2 of another hold the same tokens, the two forward
    passes return and row b1 of the first logits equals row b2 of the
    second, whatever the other rows and the batch sizes are. *)
Theorem batch_rows_independent (theta : Params) (V C d nb nh : nat)
        (rng1 rng2 : nat -> nat -> Mask) (c1 c2 : Tensor2 Z) (b1 b2 : nat) :
  divisible d nh ->
  valid_context V C c1 -> valid_context V C c2 ->
  b1 < rows c1 -> b2 < rows c2 ->
  cols c1 = cols c2 ->
  (forall t, t < cols c1 -> at2 c1 b1 t = at2 c2 b2 t) ->
  exists m l1 l2,
    GPT.init theta V C d nb nh = Ok m /\
    GPT.forward false rng1 m c1 = Ok l1 /\
    GPT.forward false rng2 m c2 = Ok l2 /\
    forall t k, t < cols c1 -> k < V -> at3 l1 b1 t k = at3 l2 b2 t k.
Proof.
  intros Hdiv V1 V2 _ _ HT Htok.
  destruct (GPT_init_ok theta V C d nb nh) as (m & Hm & Hwf).
  destruct (GPT_forward_shape V C d nb nh false rng1 m c1 Hwf Hdiv V1) as (l1 & Hl1 & S1).
  destruct (GPT_forward_shape V C d nb nh false rng2 m c2 Hwf Hdiv V2) as (l2 & Hl2 & _).
  exists m, l1, l2; split; [exact Hm|split; [exact Hl1|split; [exact Hl2|]]].
  destruct (GPT_forward_row rng1 rng2 m b1 b2 c1 c2 l1 l2 HT Htok Hl1 Hl2)
    as (_ & _ & Hat).
  unfold shape3 in S1; injection S1 as _ S11 S12.
  intros t k Ht Hk; apply Hat; lia.
Qed.

Lemma batch_rows_independent_witness :
  exists m l1 l2,
    GPT.init theta0 4 8 8 1 2 = Ok m /\
    GPT.forward false rng0 m context_pair = Ok l1 /\
    GPT.forward false rng0 m context0 = Ok l2 /\
    at3 l1 1 2 3 = at3 l2 0 2 3.
Proof.
  destruct (batch_rows_independent theta0 4 8 8 1 2 rng0 rng0 context_pair context0
              1 0 divisible_8_2 context_pair_valid context0_valid)
    as (m & l1 & l2 & Hm & H1 & H2 & H).
  - simpl; lia.
  - simpl; lia.
  - reflexivity.
  - intros t Ht; reflexivity.
  - exists m, l1, l2; split; [exact Hm|split; [exact H1|split; [exact H2|]]].
    apply H; simpl; lia.
Defined.

(** X18. The feed-forward network is position-wise.  In inference mode its
    output at a position is a function of the input vector at that
    position alone: equal input vectors, at any two positions of any two
    inputs, give equal output vectors. *)
Theorem feed_forward_is_position_wise (n : VanillaNeuralNetwork.t)
        (keep1 keep2 : Mask) (x1 x2 y1 y2 : Tensor3 R) (b1 t1 b2 t2 : nat) :
  VanillaNeuralNetwork.forward false keep1 n x1 = Ok y1 ->
  VanillaNeuralNetwork.forward false keep2 n x2 = Ok y2 ->
  (forall k, k < dim2 x1 -> at3 x1 b1 t1 k = at3 x2 b2 t2 k) ->
  forall k, at3 y1 b1 t1 k = at3 y2 b2 t2 k.
Proof.
  intros H1 H2 Hx k; unfold VanillaNeuralNetwork.forward in H1, H2.
  apply bind_Ok in H1 as (h1 & Hh1 & H1), H2 as (h2 & Hh2 & H2).
  apply bind_Ok in H1 as (z1 & Hz1 & H1), H2 as (z2 & Hz2 & H2).
  simpl in H1, H2; injection H1 as <-; injection H2 as <-.
  apply Linear_forward_inv in Hh1 as (I1 & _ & _ & O1 & E1).
  apply Linear_forward_inv in Hh2 as (I2 & _ & _ & O2 & E2).
  apply Linear_forward_inv in Hz1 as (_ & _ & _ & _ & F1).
  apply Linear_forward_inv in Hz2 as (_ & _ & _ & _ & F2).
  rewrite F1, F2; f_equal.
  apply sum_upto_ext; intros i Hi; simpl; f_equal; f_equal.
  rewrite E1, E2; f_equal.
  apply sum_upto_ext; intros j Hj; rewrite Hx; [reflexivity|lia].
Qed.

Lemma feed_forward_is_position_wise_witness :
  exists y1 y2,
    VanillaNeuralNetwork.forward false (rng0 0 1)
      (VanillaNeuralNetwork.init theta0 8) embedded0 = Ok y1 /\
    VanillaNeuralNetwork.forward false (rng0 0 1)
      (VanillaNeuralNetwork.init theta0 8) embedded0' = Ok y2 /\
    at3 y1 0 1 5 = at3 y2 0 1 5.
Proof.
  destruct (VNN_forward_shape 8 false (rng0 0 1) (VanillaNeuralNetwork.init theta0 8)
              embedded0) as (y1 & H1 & _); [repeat split|reflexivity|].
  destruct (VNN_forward_shape 8 false (rng0 0 1) (VanillaNeuralNetwork.init theta0 8)
              embedded0') as (y2 & H2 & _); [repeat split|reflexivity|].
  exists y1, y2; split; [exact H1|split; [exact H2|]].
  apply (feed_forward_is_position_wise _ _ _ _ _ _ _ 0 1 0 1 H1 H2).
  intros k Hk; reflexivity.
Defined.

(** ** Attention as a weighted average *)

Lemma sum_upto_nonneg (n : nat) (f : nat -> R) :
  (forall k, k < n -> (0 <= f k)%R) -> (0 <= sum_upto n f)%R.
Proof.
  induction n as [|n IH]; intros H; simpl; [lra|].
  specialize (IH (fun k Hk => H k ltac:(lia))).
  specialize (H n ltac:(lia)); lra.
Qed.

Lemma sum_upto_term_le (n : nat) (f : nat -> R) (j : nat) :
  (forall k, k < n -> (0 <= f k)%R) -> j < n -> (f j <= sum_upto n f)%R.
Proof.
  induction n as [|n IH]; intros H Hj; [lia|]; simpl.
  pose proof (sum_upto_nonneg n f (fun k Hk => H k ltac:(lia))) as Hs.
  pose proof (H n ltac:(lia)) as Hn.
  destruct (Nat.eq_dec j n) as [->|Hne]; [lra|].
  specialize (IH (fun k Hk => H k ltac:(lia)) ltac:(lia)); lra.
Qed.

Lemma weighted_sum_bounds (n : nat) (w v : nat -> R) (lo hi : R) :
  (forall j, j < n -> (0 <= w j)%R) ->
  (forall j, j < n -> (lo <= v j <= hi)%R) ->
  (lo * sum_upto n w <= sum_upto n (fun j => w j * v j)
   <= hi * sum_upto n w)%R.
Proof.
  induction n as [|n IH]; intros Hw Hv; simpl; [lra|].
  specialize (IH (fun k Hk => Hw k ltac:(lia)) (fun k Hk => Hv k ltac:(lia))).
  specialize (Hw n ltac:(lia)); specialize (Hv n ltac:(lia)); nra.
Qed.

Lemma Rdiv_nonneg_pos (a c : R) :
  (0 <= a)%R -> (0 < c)%R -> (0 <= a / c)%R.
Proof.
  intros Ha Hc; unfold Rdiv.
  apply Rmult_le_pos; [exact Ha|left; apply Rinv_0_lt_compat; exact Hc].
Qed.

Lemma Rdiv_le_one (a c : R) :
  (0 < c)%R -> (a <= c)%R -> (a / c <= 1)%R.
Proof.
  intros Hc Ha.
  apply (Rmult_le_reg_r c); [exact Hc|].
  unfold Rdiv; rewrite Rmult_assoc, Rinv_l by lra; lra.
Qed.

Lemma masked_exp_nonneg (Q K : Tensor3 R) (b i j : nat) :
  (0 <= masked_exp Q K b i j)%R.
Proof.
  unfold masked_exp; destruct (j <=? i); [|lra].
  left; apply exp_pos.
Qed.

Lemma attention_weight_bounds (Q K : Tensor3 R) (b i j T : nat) :
  i < T ->
  (0 <= masked_exp Q K b i j / sum_upto T (masked_exp Q K b i) <= 1)%R.
Proof.
  intros Hi; rewrite (masked_exp_row Q K b i T Hi).
  pose proof (masked_exp_row_pos Q K b i) as Hpos.
  pose proof (masked_exp_nonneg Q K b i j) as Hnn.
  split.
  - apply Rdiv_nonneg_pos; assumption.
  - destruct (le_lt_dec j i) as [Hle|Hgt].
    + pose proof (sum_upto_term_le (S i) (masked_exp Q K b i) j
                    (fun k _ => masked_exp_nonneg Q K b i k) ltac:(lia)) as Hterm.
      apply Rdiv_le_one; lra.
    + rewrite masked_exp_future by lia; lra.
Qed.

(** X19. The attention weights are probabilities: for a head of size at
    least 1 and every input of the right width, every weight of every
    query row lies between 0 and 1. *)
Theorem attention_weights_are_probabilities (h : SingleHeadAttention.t)
        (x w V : Tensor3 R) (b i j : nat) :
  0 < Linear.out_features (SingleHeadAttention.key_layer h) ->
  SingleHeadAttention.weights h x = Ok (w, V) ->
  i < dim1 x ->
  (0 <= at3 w b i j <= 1)%R.
Proof.
  intros _ Hw Hi.
  apply weights_inv in Hw as (K & Q & _ & _ & _ & _ & _ & Hat).
  rewrite Hat; apply attention_weight_bounds; exact Hi.
Qed.

Lemma attention_weights_are_probabilities_witness :
  exists w V,
    SingleHeadAttention.weights (SingleHeadAttention.init theta0 8 4) embedded0
    = Ok (w, V) /\
    (0 <= at3 w 0 2 1 <= 1)%R.
Proof.
  destruct (weights_ok (SingleHeadAttention.init theta0 8 4) 8 4 embedded0
              (head_init_wf theta0 8 4) eq_refl) as (w & V & Hw & _).
  exists w, V; split; [exact Hw|].
  apply (attention_weights_are_probabilities
           (SingleHeadAttention.init theta0 8 4) embedded0 w V 0 2 1);
    [simpl; lia|exact Hw|simpl; lia].
Defined.

Lemma head0_forwards :
  exists o V,
    SingleHeadAttention.forward (SingleHeadAttention.init theta0 8 4) embedded0 = Ok o /\
    Linear.forward
      (SingleHeadAttention.value_layer (SingleHeadAttention.init theta0 8 4))
      embedded0 = Ok V.
Proof.
  destruct (SHA_forward_shape (SingleHeadAttention.init theta0 8 4) 8 4 embedded0
              (head_init_wf theta0 8 4) eq_refl) as (o & Ho & _).
  destruct (Linear_forward_ok
              (SingleHeadAttention.value_layer (SingleHeadAttention.init theta0 8 4))
              embedded0 eq_refl) as (V & HV).
  exists o, V; split; assumption.
Qed.

Lemma head0_values (V : Tensor3 R) :
  Linear.forward
    (SingleHeadAttention.value_layer (SingleHeadAttention.init theta0 8 4))
    embedded0 = Ok V ->
  at3 V 0 0 1 = 364%R /\ at3 V 0 1 1 = 444%R /\ at3 V 0 2 1 = 524%R.
Proof.
  intros HV; apply Linear_forward_inv in HV as (_ & _ & _ & _ & Hat).
  rewrite !Hat; simpl; unfold sub, theta0; simpl; repeat split; lra.
Qed.

(** X20. For a head of size at least 1, the attention output is a
    weighted average of the value vectors of the positions up to the
    query: if every value of a feature at the positions j <= i lies
    between lo and hi, so does the output at position i; later positions
    do not matter.  V is the value projection of the input. *)
Theorem attention_output_is_average (h : SingleHeadAttention.t)
        (x o V : Tensor3 R) (b i a : nat) (lo hi : R) :
  0 < Linear.out_features (SingleHeadAttention.key_layer h) ->
  SingleHeadAttention.forward h x = Ok o ->
  Linear.forward (SingleHeadAttention.value_layer h) x = Ok V ->
  i < dim1 x ->
  (forall j, j <= i -> (lo <= at3 V b j a <= hi)%R) ->
  (lo <= at3 o b i a <= hi)%R.
Proof.
  intros _ Ho HV Hi Hbounds.
  apply SHA_forward_inv in Ho as (w & V' & Hw & _ & Hat).
  apply weights_inv in Hw as (K & Q & _ & _ & HV' & _ & _ & Hw).
  rewrite HV in HV'; injection HV' as <-.
  rewrite Hat, (sum_upto_tail (S i) (dim1 x)); [|lia|].
  - pose proof (weighted_sum_bounds (S i) (at3 w b i) (fun j => at3 V b j a) lo hi)
      as Hb.
    assert (Hsum : sum_upto (S i) (at3 w b i) = 1%R).
    { rewrite (sum_upto_ext _ _ (fun j => (masked_exp Q K b i j
                   / sum_upto (dim1 x) (masked_exp Q K b i))%R))
        by (intros j _; apply Hw).
      rewrite sum_upto_div, (masked_exp_row Q K b i (dim1 x) Hi).
      pose proof (masked_exp_row_pos Q K b i) as Hpos.
      apply Rdiv_diag; lra. }
    rewrite Hsum in Hb; rewrite !Rmult_1_r in Hb; apply Hb.
    + intros j _; rewrite Hw; apply attention_weight_bounds; exact Hi.
    + intros j Hj; apply Hbounds; lia.
  - intros j Hj _; rewrite Hw, masked_exp_future by lia; lra.
Qed.

Lemma attention_output_is_average_witness :
  exists o V,
    SingleHeadAttention.forward (SingleHeadAttention.init theta0 8 4) embedded0 = Ok o /\
    Linear.forward
      (SingleHeadAttention.value_layer (SingleHeadAttention.init theta0 8 4))
      embedded0 = Ok V /\
    at3 V 0 0 1 = 364%R /\ at3 V 0 1 1 = 444%R /\ at3 V 0 2 1 = 524%R /\
    (364 <= at3 o 0 2 1 <= 524)%R.
Proof.
  destruct head0_forwards as (o & V & Ho & HV).
  destruct (head0_values V HV) as (V0 & V1 & V2).
  exists o, V.
  split; [exact Ho|split; [exact HV|split; [exact V0|split; [exact V1|
    split; [exact V2|]]]]].
  apply (attention_output_is_average
           (SingleHeadAttention.init theta0 8 4) embedded0 o V 0 2 1 364 524);
    [simpl; lia|exact Ho|exact HV|simpl; lia|].
  intros j Hj.
  destruct j as [|[|[|j]]]; [rewrite V0|rewrite V1|rewrite V2|lia]; lra.
Defined.

(** X21. The first position attends to itself only: the attention output
    at position 0 is the value vector of position 0. *)
Theorem attention_first_position (h : SingleHeadAttention.t)
        (x o V : Tensor3 R) (b a : nat) :
  SingleHeadAttention.forward h x = Ok o ->
  Linear.forward (SingleHeadAttention.value_layer h) x = Ok V ->
  0 < dim1 x ->
  at3 o b 0 a = at3 V b 0 a.
Proof.
  intros Ho HV HT.
  apply SHA_forward_inv in Ho as (w & V' & Hw & _ & Hat).
  apply weights_inv in Hw as (K & Q & _ & _ & HV' & _ & _ & Hw).
  rewrite HV in HV'; injection HV' as <-.
  rewrite Hat, (sum_upto_tail 1 (dim1 x)); [|lia|].
  - change (sum_upto 1 (fun j => (at3 w b 0 j * at3 V b j a)%R))
      with (0 + at3 w b 0 0 * at3 V b 0 a)%R.
    rewrite Hw, (masked_exp_row Q K b 0 (dim1 x) HT).
    pose proof (masked_exp_row_pos Q K b 0) as Hpos.
    change (sum_upto 1 (masked_exp Q K b 0))
      with (0 + masked_exp Q K b 0 0)%R in Hpos |- *.
    set (e := masked_exp Q K b 0 0) in *.
    replace (0 + e)%R with e by lra.
    rewrite Rdiv_diag by lra; lra.
  - intros j Hj _; rewrite Hw, masked_exp_future by lia; lra.
Qed.

Lemma attention_first_position_witness :
  exists o V,
    SingleHeadAttention.forward (SingleHeadAttention.init theta0 8 4) embedded0 = Ok o /\
    at3 o 0 0 1 = at3 V 0 0 1.
Proof.
  destruct head0_forwards as (o & V & Ho & HV).
  exists o, V; split; [exact Ho|].
  apply (attention_first_position _ embedded0 o V 0 1 Ho HV); simpl; lia.
Defined.

(** ** The layout of the concatenated heads *)

Lemma cat_slice (B T hs : nat) (outs : list (Tensor3 R)) :
  Forall (fun o => shape3 o = (B, T, hs)) outs ->
  forall c, cat outs = Ok c ->
  forall k o, nth_error outs k = Some o ->
  forall b t a, a < hs -> at3 c b t (k * hs + a) = at3 o b t a.
Proof.
  induction outs as [|x outs IH]; intros Hall c Hc k o Hk b t a Ha.
  - destruct k; discriminate.
  - apply Forall_cons_iff in Hall as [Hx Hall].
    unfold shape3 in Hx; injection Hx as X0 X1 X2.
    destruct outs as [|y outs].
    + simpl in Hc; injection Hc as <-.
      destruct k as [|[|k]]; simpl in Hk; try discriminate.
      injection Hk as <-; reflexivity.
    + change (cat (x :: y :: outs)) with (r <- cat (y :: outs) ;; cat2 x r) in Hc.
      apply bind_Ok in Hc as (r & Hr & Hc).
      apply cat2_inv in Hc as (_ & _ & _ & Ec).
      rewrite Ec, X2.
      destruct k as [|k]; simpl in Hk.
      * injection Hk as <-; simpl.
        destruct (a <? hs) eqn:E; [reflexivity|apply Nat.ltb_ge in E; lia].
      * destruct (S k * hs + a <? hs) eqn:E; [apply Nat.ltb_lt in E; simpl in E; lia|].
        replace (S k * hs + a - hs) with (k * hs + a) by (simpl; lia).
        exact (IH Hall r Hr k o Hk b t a Ha).
Qed.

Lemma mapM_nth {A B : Type} (f : A -> result B) (l : list A) (bs : list B) :
  mapM f l = Ok bs ->
  forall k a, nth_error l k = Some a ->
  exists b, f a = Ok b /\ nth_error bs k = Some b.
Proof.
  revert bs; induction l as [|x l IH]; simpl; intros bs H k a Hk.
  - destruct k; discriminate.
  - apply bind_Ok in H as (b & Hb & H).
    apply bind_Ok in H as (bs' & Hbs & H).
    injection H as <-.
    destruct k as [|k]; simpl in Hk.
    + injection Hk as <-; exists b; split; [exact Hb|reflexivity].
    + exact (IH bs' Hbs k a Hk).
Qed.

Lemma MHSA_init_eq (theta : Params) (d nh : nat) :
  MultiHeadedSelfAttention.init theta d nh
  = Ok (MultiHeadedSelfAttention.mk
          (map (fun k => SingleHeadAttention.init (sub (sub theta 0) k) d (d / nh))
             (seq 0 nh))
          (Linear.init (sub theta 1) d d true)
          (Dropout.mk (2 / 10)%R)).
Proof.
  unfold MultiHeadedSelfAttention.init.
  rewrite (mapM_map _ (fun k => SingleHeadAttention.init (sub (sub theta 0) k)
                                  d (d / nh))); [reflexivity|].
  intros k Hk; apply in_seq in Hk; unfold floordiv.
  destruct (nh =? 0) eqn:E; [apply Nat.eqb_eq in E; lia|reflexivity].
Qed.

Lemma MHSA_concat_layout (theta : Params) (d nh : nat) (x : Tensor3 R) :
  0 < nh -> dim2 x = d ->
  exists m outs c,
    MultiHeadedSelfAttention.init theta d nh = Ok m /\
    mapM (fun head => SingleHeadAttention.forward head x)
      (MultiHeadedSelfAttention.attention_heads m) = Ok outs /\
    cat outs = Ok c /\
    shape3 c = (dim0 x, dim1 x, nh * (d / nh)) /\
    forall k, k < nh ->
      exists o,
        SingleHeadAttention.forward
          (SingleHeadAttention.init (sub (sub theta 0) k) d (d / nh)) x = Ok o /\
        forall b t a, a < d / nh ->
          at3 c b t (k * (d / nh) + a) = at3 o b t a.
Proof.
  intros Hnh Hx.
  destruct (MHSA_init_ok theta d nh) as (m & Hm & Hwf).
  destruct (MHSA_concat_shape d nh m x Hwf Hnh Hx) as (outs & c & Ho & Hc & Sc).
  exists m, outs, c; split; [exact Hm|split; [exact Ho|split; [exact Hc|split; [exact Sc|]]]].
  intros k Hk.
  rewrite MHSA_init_eq in Hm; injection Hm as <-; simpl in Ho.
  destruct (mapM_nth _ _ _ Ho k
              (SingleHeadAttention.init (sub (sub theta 0) k) d (d / nh)))
    as (o & Hfo & Hnth).
  { rewrite nth_error_map, nth_error_seq.
    destruct (k <? nh) eqn:E; [reflexivity|apply Nat.ltb_ge in E; lia]. }
  exists o; split; [exact Hfo|].
  destruct Hwf as (_ & Hheads & _); simpl in Hheads.
  destruct (heads_forward_shape d (d / nh) _ x Hheads Hx) as (outs' & Ho' & Souts).
  rewrite Ho in Ho'; injection Ho' as <-.
  exact (cat_slice (dim0 x) (dim1 x) (d / nh) outs Souts c Hc k o Hnth).
Qed.

(** X22. The heads are laid side by side in the order of the list: in the
    tensor that [MultiHeadedSelfAttention.forward] hands to [compute],
    the columns k * head_size .. (k + 1) * head_size - 1 are the output of
    head k. *)
Theorem heads_layout (theta : Params) (d nh : nat) (x : Tensor3 R) :
  0 < nh -> dim2 x = d ->
  exists m outs c,
    MultiHeadedSelfAttention.init theta d nh = Ok m /\
    mapM (fun head => SingleHeadAttention.forward head x)
      (MultiHeadedSelfAttention.attention_heads m) = Ok outs /\
    cat outs = Ok c /\
    shape3 c = (dim0 x, dim1 x, nh * (d / nh)) /\
    forall k, k < nh ->
      exists o,
        SingleHeadAttention.forward
          (SingleHeadAttention.init (sub (sub theta 0) k) d (d / nh)) x = Ok o /\
        forall b t a, a < d / nh ->
          at3 c b t (k * (d / nh) + a) = at3 o b t a.
Proof. exact (MHSA_concat_layout theta d nh x). Qed.

Lemma heads_layout_witness :
  exists m outs c o,
    MultiHeadedSelfAttention.init theta0 8 2 = Ok m /\
    mapM (fun head => SingleHeadAttention.forward head embedded0)
      (MultiHeadedSelfAttention.attention_heads m) = Ok outs /\
    cat outs = Ok c /\
    SingleHeadAttention.forward
      (SingleHeadAttention.init (sub (sub theta0 0) 1) 8 (8 / 2)) embedded0 = Ok o /\
    at3 c 0 2 (1 * (8 / 2) + 3) = at3 o 0 2 3.
Proof.
  assert (H2 : 0 < 2) by lia.
  destruct (heads_layout theta0 8 2 embedded0 H2 (@eq_refl nat 8))
    as (m & outs & c & Hm & Ho & Hc & _ & H).
  destruct (H 1 ltac:(lia)) as (o & Hfo & Hat).
  exists m, outs, c, o.
  split; [exact Hm|split; [exact Ho|split; [exact Hc|split; [exact Hfo|]]]].
  apply Hat; simpl; lia.
Defined.

(** X23. Head independence: the columns of head k in the concatenation
    depend on the parameters of head k only.  Two parameter sets that
    coincide on head k, and differ anywhere else (say, another head set
    to zero), give the same columns for head k. *)
Theorem head_independence (theta1 theta2 : Params) (d nh : nat) (x : Tensor3 R)
        (k : nat) :
  0 < nh -> dim2 x = d -> k < nh ->
  sub (sub theta1 0) k = sub (sub theta2 0) k ->
  exists m1 m2 outs1 outs2 c1 c2,
    MultiHeadedSelfAttention.init theta1 d nh = Ok m1 /\
    MultiHeadedSelfAttention.init theta2 d nh = Ok m2 /\
    mapM (fun head => SingleHeadAttention.forward head x)
      (MultiHeadedSelfAttention.attention_heads m1) = Ok outs1 /\
    mapM (fun head => SingleHeadAttention.forward head x)
      (MultiHeadedSelfAttention.attention_heads m2) = Ok outs2 /\
    cat outs1 = Ok c1 /\ cat outs2 = Ok c2 /\
    forall b t a, a < d / nh ->
      at3 c1 b t (k * (d / nh) + a) = at3 c2 b t (k * (d / nh) + a).
Proof.
  intros Hnh Hx Hk Heq.
  destruct (MHSA_concat_layout theta1 d nh x Hnh Hx)
    as (m1 & outs1 & c1 & Hm1 & Ho1 & Hc1 & _ & L1).
  destruct (MHSA_concat_layout theta2 d nh x Hnh Hx)
    as (m2 & outs2 & c2 & Hm2 & Ho2 & Hc2 & _ & L2).
  exists m1, m2, outs1, outs2, c1, c2.
  split; [exact Hm1|split; [exact Hm2|split; [exact Ho1|split; [exact Ho2|]]]].
  split; [exact Hc1|split; [exact Hc2|]].
  destruct (L1 k Hk) as (o1 & Hf1 & A1), (L2 k Hk) as (o2 & Hf2 & A2).
  rewrite Heq, Hf2 in Hf1; injection Hf1 as <-.
  intros b t a Ha; rewrite A1, A2 by exact Ha; reflexivity.
Qed.

Lemma head0_unchanged :
  sub (sub theta0 0) 0 = sub (sub theta0_without_head1 0) 0.
Proof. reflexivity. Qed.

Lemma head_independence_witness :
  exists m1 m2 outs1 outs2 c1 c2,
    MultiHeadedSelfAttention.init theta0 8 2 = Ok m1 /\
    MultiHeadedSelfAttention.init theta0_without_head1 8 2 = Ok m2 /\
    mapM (fun head => SingleHeadAttention.forward head embedded0)
      (MultiHeadedSelfAttention.attention_heads m1) = Ok outs1 /\
    mapM (fun head => SingleHeadAttention.forward head embedded0)
      (MultiHeadedSelfAttention.attention_heads m2) = Ok outs2 /\
    cat outs1 = Ok c1 /\ cat outs2 = Ok c2 /\
    at3 c1 0 2 (0 * (8 / 2) + 3) = at3 c2 0 2 (0 * (8 / 2) + 3).
Proof.
  assert (H2 : 0 < 2) by lia.
  pose proof (head_independence theta0 theta0_without_head1 8 2 embedded0 0
                H2 (@eq_refl nat 8) H2 head0_unchanged) as H.
  destruct H as (m1 & m2 & o1 & o2 & c1 & c2 & Hm1 & Hm2 & Ho1 & Ho2 & Hc1 & Hc2 & H).
  exists m1, m2, o1, o2, c1, c2.
  split; [exact Hm1|split; [exact Hm2|split; [exact Ho1|split; [exact Ho2|]]]].
  split; [exact Hc1|split; [exact Hc2|]].
  apply H; simpl; lia.
Defined.

(** ** Degenerate configurations *)

Lemma MHSA_forward_no_heads (d : nat) (training : bool) (keep : Mask)
      (m : MultiHeadedSelfAttention.t) (x : Tensor3 R) :
  mhsa_wf d 0 m ->
  MultiHeadedSelfAttention.forward training keep m x = Raise RuntimeError.
Proof.
  intros (Hlen & _); unfold MultiHeadedSelfAttention.forward.
  destruct (MultiHeadedSelfAttention.attention_heads m); [reflexivity|discriminate].
Qed.

Lemma GPT_embeddings_ok (V C d nb nh : nat) (m : GPT.t) (context : Tensor2 Z) :
  gpt_wf V C d nb nh m -> valid_context V C context ->
  exists te pe e,
    Embedding.forward (GPT.token_embedding m) context = Ok te /\
    Embedding.forward1 (GPT.pos_embedding m) (arange (cols context)) = Ok pe /\
    add_broadcast te pe = Ok e /\
    shape3 e = (rows context, cols context, d) /\
    forall b t k,
      at3 e b t k
      = (Embedding.weight (GPT.token_embedding m) (Z.to_nat (at2 context b t)) k
         + Embedding.weight (GPT.pos_embedding m) t k)%R.
Proof.
  intros (TV & TD & PC & PD & _) (HT & Htok).
  destruct (Embedding_forward_ok (GPT.token_embedding m) context)
    as (te & Hte & Ste & Ate); [rewrite TV; exact Htok|].
  destruct (positions_ok (GPT.pos_embedding m) (cols context))
    as (pe & Hpe & Pr & Pc & Ape); [rewrite PC; exact HT|].
  unfold shape3 in Ste; injection Ste as E0 E1 E2.
  exists te, pe; unfold add_broadcast.
  rewrite E1, E2, Pr, Pc, TD, PD, !Nat.eqb_refl; simpl.
  eexists; split; [exact Hte|split; [exact Hpe|split; [reflexivity|]]].
  unfold shape3; simpl; split; [congruence|].
  intros b t k; rewrite Ate, Ape; reflexivity.
Qed.

(** X24. num_heads = 0 is accepted by the constructors (the division
    [model_dim // num_heads] sits in a loop that does not run), and
    rejected by the first forward pass through a block: concatenating no
    heads raises RuntimeError. *)
Theorem zero_heads (theta : Params) (V C d nb : nat) (training : bool)
        (rng : nat -> nat -> Mask) (context : Tensor2 Z) :
  0 < nb -> valid_context V C context ->
  exists m, GPT.init theta V C d nb 0 = Ok m /\
            GPT.forward training rng m context = Raise RuntimeError.
Proof.
  intros Hnb Hv.
  destruct (GPT_init_ok theta V C d nb 0) as (m & Hm & Hwf).
  exists m; split; [exact Hm|].
  destruct (GPT_embeddings_ok V C d nb 0 m context Hwf Hv)
    as (te & pe & e & Hte & Hpe & He & Se & _).
  destruct Hwf as (_ & _ & _ & _ & Hlen & Hblocks & _).
  unfold GPT.forward; rewrite Hte; simpl; rewrite Hpe; simpl; rewrite He; simpl.
  destruct (GPT.transformer_blocks m) as [|blk blocks]; [simpl in Hlen; lia|].
  apply Forall_cons_iff in Hblocks as [(Hmh & _ & L1 & _) _].
  unfold shape3 in Se; injection Se as _ _ S2.
  destruct (LayerNorm_forward_ok (TransformerBlock.layer_norm_one blk) e)
    as (n1 & Hn1 & _); [congruence|].
  simpl; unfold TransformerBlock.forward; rewrite Hn1; simpl.
  rewrite (MHSA_forward_no_heads d); [reflexivity|exact Hmh].
Qed.

Lemma zero_heads_witness :
  exists m, GPT.init theta0 4 8 8 1 0 = Ok m /\
            GPT.forward false rng0 m context0 = Raise RuntimeError.
Proof.
  exact (zero_heads theta0 4 8 8 1 false rng0 context0 ltac:(lia) context0_valid).
Defined.

(** X25. With num_blocks = 0 there is no attention and no check on
    num_heads: the forward pass returns on every valid context, for any
    num_heads, and the logits of a position depend only on the token at
    that position and on the position. *)
Theorem no_blocks_no_mixing (theta : Params) (V C d nh : nat) (training : bool)
        (rng : nat -> nat -> Mask) (c1 c2 : Tensor2 Z) (b1 b2 t : nat) :
  valid_context V C c1 -> valid_context V C c2 ->
  at2 c1 b1 t = at2 c2 b2 t ->
  exists m l1 l2,
    GPT.init theta V C d 0 nh = Ok m /\
    GPT.forward training rng m c1 = Ok l1 /\
    GPT.forward training rng m c2 = Ok l2 /\
    shape3 l1 = (rows c1, cols c1, V) /\
    forall k, at3 l1 b1 t k = at3 l2 b2 t k.
Proof.
  intros V1 V2 Htok.
  destruct (GPT_init_ok theta V C d 0 nh) as (m & Hm & Hwf).
  destruct (GPT_embeddings_ok V C d 0 nh m c1 Hwf V1)
    as (te1 & pe1 & e1 & Hte1 & Hpe1 & He1 & Se1 & Ae1).
  destruct (GPT_embeddings_ok V C d 0 nh m c2 Hwf V2)
    as (te2 & pe2 & e2 & Hte2 & Hpe2 & He2 & Se2 & Ae2).
  destruct Hwf as (_ & _ & _ & _ & Hlen & _ & L3 & (Pi & Po)).
  assert (Hb : GPT.transformer_blocks m = [])
    by (destruct (GPT.transformer_blocks m); [reflexivity|discriminate]).
  unfold shape3 in Se1, Se2; injection Se1 as A0 A1 A2; injection Se2 as B0 B1 B2.
  destruct (LayerNorm_forward_ok (GPT.layer_norm_three m) e1) as (n1 & Hn1 & Sn1);
    [congruence|].
  destruct (LayerNorm_forward_ok (GPT.layer_norm_three m) e2) as (n2 & Hn2 & Sn2);
    [congruence|].
  apply shape3_inv in Sn1 as (N10 & N11 & N12), Sn2 as (N20 & N21 & N22).
  destruct (Linear_forward_ok (GPT.vocab_projection m) n1) as (l1 & Hl1); [congruence|].
  destruct (Linear_forward_ok (GPT.vocab_projection m) n2) as (l2 & Hl2); [congruence|].
  exists m, l1, l2; split; [exact Hm|].
  assert (F1 : GPT.forward training rng m c1 = Ok l1).
  { unfold GPT.forward; rewrite Hte1; simpl; rewrite Hpe1; simpl; rewrite He1; simpl.
    rewrite Hb; simpl; rewrite Hn1; simpl; exact Hl1. }
  assert (F2 : GPT.forward training rng m c2 = Ok l2).
  { unfold GPT.forward; rewrite Hte2; simpl; rewrite Hpe2; simpl; rewrite He2; simpl.
    rewrite Hb; simpl; rewrite Hn2; simpl; exact Hl2. }
  split; [exact F1|split; [exact F2|]].
  apply Linear_forward_inv in Hl1 as (_ & Y0 & Y1 & Y2 & E1).
  apply Linear_forward_inv in Hl2 as (_ & _ & _ & _ & E2).
  split; [unfold shape3; congruence|].
  assert (Hrow : forall j, at3 e1 b1 t j = at3 e2 b2 t j).
  { intros j; rewrite Ae1, Ae2, Htok; reflexivity. }
  assert (Hn : forall j, at3 n1 b1 t j = at3 n2 b2 t j).
  { unfold LayerNorm.forward in Hn1, Hn2.
    destruct (dim2 e1 =? _) in Hn1; [|discriminate].
    destruct (dim2 e2 =? _) in Hn2; [|discriminate].
    injection Hn1 as <-; injection Hn2 as <-; intros j; simpl.
    assert (Hmu : LayerNorm.mean (LayerNorm.normalized_shape (GPT.layer_norm_three m))
                    (at3 e1 b1 t)
                  = LayerNorm.mean (LayerNorm.normalized_shape (GPT.layer_norm_three m))
                      (at3 e2 b2 t)).
    { unfold LayerNorm.mean; f_equal; apply sum_upto_ext; intros; apply Hrow. }
    rewrite Hmu, (Hrow j); do 4 f_equal.
    unfold LayerNorm.mean; do 2 f_equal.
    apply sum_upto_ext; intros i _; rewrite (Hrow i); reflexivity. }
  intros k; rewrite E1, E2; f_equal.
  apply sum_upto_ext; intros j _; rewrite Hn; reflexivity.
Qed.

Lemma no_blocks_no_mixing_witness :
  exists m l1 l2,
    GPT.init theta0 4 8 7 0 2 = Ok m /\
    GPT.forward false rng0 m context_pair = Ok l1 /\
    GPT.forward false rng0 m context0 = Ok l2 /\
    at3 l1 1 2 0 = at3 l2 0 2 0.
Proof.
  destruct (no_blocks_no_mixing theta0 4 8 7 2 false rng0 context_pair context0
              1 0 2 context_pair_valid context0_valid eq_refl)
    as (m & l1 & l2 & Hm & H1 & H2 & _ & H).
  exists m, l1, l2; split; [exact Hm|split; [exact H1|split; [exact H2|apply H]]].
Defined.

(** ** Generating one more character *)

Lemma iteration_draw (model : Tensor2 Z -> result (Tensor3 R))
      (draw : Sampler) (context_length : Z) (int_to_char : gmap Z pystr)
      (i : nat) (c c' : Tensor2 Z) (s : pystr) :
  snd (iteration model draw context_length int_to_char i c) = Ok (c', s) ->
  exists prediction last_time_step,
    model (slice_last c context_length) = Ok prediction /\
    select_last prediction = Ok last_time_step /\
    int_to_char !! (draw i (softmax2 last_time_step) 0) = Some s.
Proof.
  unfold iteration.
  destruct (predict model draw i _) as [nc|e] eqn:Hp; cbn [snd]; [|discriminate].
  unfold predict in Hp.
  apply bind_Ok in Hp as (p & Hmodel & Hp).
  apply bind_Ok in Hp as (l & Hl & Hp).
  unfold multinomial in Hp.
  destruct (cols (softmax2 l) =? 0); [discriminate|].
  injection Hp as <-.
  unfold update; intros H.
  apply bind_Ok in H as (c1 & _ & H).
  apply bind_Ok in H as (k & Hk & H).
  apply bind_Ok in H as (s' & Hs & H).
  injection H as _ <-.
  unfold item in Hk.
  match type of Hk with
  | (if ?t then _ else _) = _ => destruct t; [|discriminate]
  end.
  injection Hk as <-; cbn [at2] in Hs.
  unfold getitem in Hs.
  exists p, l; split; [exact Hmodel|split; [exact Hl|]].
  match type of Hs with
  | match ?x with Some _ => _ | None => _ end = _ =>
      destruct x as [s0|] eqn:E; [|discriminate]
  end.
  injection Hs as <-; reflexivity.
Qed.

Lemma generate_step (model : Tensor2 Z -> result (Tensor3 R))
      (draw : Sampler) (context_length : Z) (int_to_char : gmap Z pystr)
      (n : nat) (context : Tensor2 Z) (s' : pystr) :
  generate model draw context_length int_to_char (n + 1) context = Ok s' ->
  exists c res prediction last_time_step ch,
    snd (loop model draw context_length int_to_char n 0 context []) = Ok (c, res) /\
    generate model draw context_length int_to_char n context = Ok (concat res) /\
    model (slice_last c context_length) = Ok prediction /\
    select_last prediction = Ok last_time_step /\
    int_to_char !! (draw n (softmax2 last_time_step) 0) = Some ch /\
    s' = concat res ++ ch.
Proof.
  unfold generate; rewrite loop_add; intros H.
  destruct (loop model draw context_length int_to_char n 0 context [])
    as [evs [[c1 res1]|e]]; [|simpl in H; discriminate].
  simpl in H.
  pose proof (iteration_draw model draw context_length int_to_char n c1) as Hd.
  destruct (iteration model draw context_length int_to_char n c1)
    as [ev [[c2 ch]|e]]; [|simpl in H; discriminate].
  simpl in H; injection H as <-.
  destruct (Hd c2 ch eq_refl) as (p & l & Hp & Hl & Hch).
  exists c1, res1, p, l, ch.
  split; [reflexivity|split; [reflexivity|split; [exact Hp|split; [exact Hl|
    split; [exact Hch|]]]]].
  rewrite concat_app; simpl; rewrite app_nil_r; reflexivity.
Qed.

(** X26. Asking for one more character extends the text: with the same
    model and the same draws, when [generate] returns for new_chars + 1 it
    also returns for new_chars, and the longer string is the shorter one
    followed by one more entry of [int_to_char]: the entry of the index
    drawn, in iteration new_chars, from the softmax of the last time step
    of the model's prediction on the window of the context the shorter
    run ends with. *)
Theorem generate_extends (model : Tensor2 Z -> result (Tensor3 R))
        (draw : Sampler) (context_length : Z) (int_to_char : gmap Z pystr)
        (n : nat) (context : Tensor2 Z) (s' : pystr) :
  generate model draw context_length int_to_char (n + 1) context = Ok s' ->
  exists c res prediction last_time_step ch,
    snd (loop model draw context_length int_to_char n 0 context []) = Ok (c, res) /\
    generate model draw context_length int_to_char n context = Ok (concat res) /\
    model (slice_last c context_length) = Ok prediction /\
    select_last prediction = Ok last_time_step /\
    int_to_char !! (draw n (softmax2 last_time_step) 0) = Some ch /\
    s' = concat res ++ ch.
Proof. exact (generate_step model draw context_length int_to_char n context s'). Qed.

Lemma generate_extends_witness :
  exists m s' s,
    GPT.init theta0 4 8 8 1 2 = Ok m /\
    generate (GPT.forward false rng0 m) draw0 8 int_to_char0 (1 + 1) context0 = Ok s' /\
    generate (GPT.forward false rng0 m) draw0 8 int_to_char0 1 context0 = Ok s /\
    s' = s ++ [32%N].
Proof.
  destruct (GPT_init_ok theta0 4 8 8 1 2) as (m & Hm & Hwf).
  destruct (loop_ok (GPT.forward false rng0 m) draw0 8 int_to_char0
              (fun z => (0 <= z < Z.of_nat 4)%Z) (fun _ => True) ltac:(lia)
              (GPT_model_accepts 4 8 8 1 2 false rng0 m Hwf divisible_8_2 ltac:(lia))
              (1 + 1) 0 context0 [] (draw0_ok _ 0 (1 + 1) I) context0_single_row)
    as (evs & c' & res & Hl & _).
  assert (Hg : generate (GPT.forward false rng0 m) draw0 8 int_to_char0 (1 + 1)
                 context0 = Ok (concat res))
    by (unfold generate; rewrite Hl; reflexivity).
  destruct (generate_extends _ _ _ _ _ _ _ Hg)
    as (c & res1 & p & l & ch & _ & Hs & _ & _ & Hch & E).
  exists m, (concat res), (concat res1).
  split; [exact Hm|split; [exact Hg|split; [exact Hs|]]].
  rewrite E; f_equal.
  unfold draw0 in Hch; vm_compute in Hch; injection Hch as <-; reflexivity.
Defined.
